(** * TransferQueue: the bounded tile transfer ring of the Android WebKit port

    Shallow embedding of
    [Source/WebCore/platform/graphics/android/TransferQueue.cpp].

    The queue object is a record of its member variables.  Everything the
    queue reaches through a pointer (tiles, tile textures) lives in a world of
    type [W] that is only accessed through the [TileWorld] interface; every
    call that leaves the queue (GL, SurfaceTexture, Tile, TileTexture, the
    condition variable) is appended to a call log, so that orderings and call
    counts can be stated on the log. *)

From Stdlib Require Import ZArith Lia.
From stdpp Require Import base decidable option numbers list.

Open Scope Z_scope.
Open Scope nat_scope.

(** ** Data model *)

(** [Tile*] and [TileTexture*]: an address, the null pointer being [None]. *)
Definition Tile := nat.
Definition TileTexture := nat.
Definition Color := Z.
(** The pixels of an [SkBitmap]; the queue only copies them. *)
Definition SkBitmap := list Z.

Inductive TransferItemStatus := emptyItem | pendingBlit | pendingDiscard.
Inductive TextureUploadType := CpuUpload | GpuUpload.

#[global] Instance TransferItemStatus_eq_dec : EqDecision TransferItemStatus.
Proof. solve_decision. Defined.
#[global] Instance TextureUploadType_eq_dec : EqDecision TextureUploadType.
Proof. solve_decision. Defined.

(** An [int] is 32 bits wide: the value that the sum or difference [z] of two
    [int]s has as an [int], wrapped around into [-2^31, 2^31). *)
Definition wrapInt (z : Z) : Z := ((z + 2 ^ 31) mod 2 ^ 32 - 2 ^ 31)%Z.

Record IntRect := mkIntRect { rx : Z; ry : Z; rwidth : Z; rheight : Z }.
Record SkIRect := mkSkIRect { fLeft : Z; fTop : Z; fRight : Z; fBottom : Z }.

(** [TileRenderInfo].  [baseTile] is a [Tile*]: [updateQueueWithBitmap]
    tests it for null, [addItemCommon] dereferences it without a test. *)
Record TileRenderInfo := mkRenderInfo {
  baseTile : option Tile;
  invalRectPtr : option SkIRect;
  ri_pureColor : Color;
}.

Record TileTransferData := mkData {
  status : TransferItemStatus;
  savedTilePtr : option Tile;
  savedTileTexturePtr : option TileTexture;
  uploadType : TextureUploadType;
  bitmap : option SkBitmap;
  invalRect : IntRect;
  pureColor : Color;
}.

(** Modelled from the spec: the default constructor of [TileTransferData]
    lives in TransferQueue.h, which is not among the sources; a fresh slot is
    Empty, holds no reference and no payload, and carries the default upload
    kind. *)
Definition TileTransferData_new (DEFAULT_UPLOAD_TYPE : TextureUploadType)
  : TileTransferData :=
  {| status := emptyItem; savedTilePtr := None; savedTileTexturePtr := None;
     uploadType := DEFAULT_UPLOAD_TYPE; bitmap := None;
     invalRect := mkIntRect 0 0 0 0; pureColor := 0%Z |}.

(** ** The collaborators *)

(** What the queue asks of tiles and textures.  Their sources are outside
    this file; the theorems hold for every implementation. *)
Class TileWorld (W : Type) := {
  backTexture : W -> Tile -> option TileTexture;
  frontTexture : W -> Tile -> option TileTexture;
  owner : W -> TileTexture -> option Tile;
  discardBackTexture : Tile -> W -> W;
  backTextureTransferFail : Tile -> W -> W;
  requireGLTexture : TileTexture -> W -> W;
  setPureColor : TileTexture -> Color -> W -> W;
  setPure : TileTexture -> bool -> W -> W;
  transferComplete : TileTexture -> W -> W;
}.

(** Where a call was made from: ring slot [index], or entry [i] of the
    pure-colour queue. *)
Inductive Origin := Ring (index : nat) | Side (i : nat).

(** The call log.  [EvSlotEmptied] is not a call: it records the write that
    returns a ring slot to [emptyItem], with the slot as it is left. *)
Inductive Event :=
| EvUpdateTexImage (index : nat)
| EvSlotEmptied (index : nat) (left : TileTransferData)
| EvDiscardBackTexture (index : nat) (tile : Tile)
| EvRequireGLTexture (index : nat) (tex : TileTexture)
| EvUpdateTextureWithBitmap (index : nat) (tex : TileTexture)
    (bmp : option SkBitmap) (inval : IntRect)
| EvSaveGLState
| EvBlit (index : nat) (dest : TileTexture) (front : option TileTexture)
    (inval : IntRect)
| EvRestoreGLState
| EvSetPure (index : nat) (tex : TileTexture) (pure : bool)
| EvSetPureColor (i : nat) (tex : TileTexture) (c : Color)
| EvTransferComplete (o : Origin) (tex : TileTexture)
| EvSharedSurfaceWrite (bmp : SkBitmap) (ok : bool)
| EvBackTextureTransferFail (tile : Tile)
| EvWait
| EvSignal.

(** ** The queue *)

Record TransferQueue {W : Type} := mkTQ {
  m_transferQueue : list TileTransferData;
  m_transferQueueSize : nat;
  m_transferQueueIndex : nat;
  m_emptyItemCount : Z;
  m_hasGLContext : bool;
  m_interruptedByRemovingOp : bool;
  m_currentUploadType : TextureUploadType;
  m_pureColorTileQueue : list TileTransferData;
  m_ANW : bool;  (* whether m_ANW.get() is non-null *)
  tiles : W;
  calls : list Event;
}.
Arguments TransferQueue : clear implicits.
Arguments mkTQ {W}.

Definition MINIMAL_SIZE : nat := 1.
Definition EFFICIENT_SIZE : nat := 6.

(** The positions visited by a loop that starts at [index] and steps by
    [(index + 1) % size], [n] times. *)
Fixpoint walkFrom (n index size : nat) : list nat :=
  match n with
  | 0 => []
  | S n' => index :: walkFrom n' ((index + 1) mod size) size
  end.

Section Queue.
Context {W : Type} `{TileWorld W}.

#[local] Abbreviation TQ := (TransferQueue W).

Definition set_ring (r : list TileTransferData) (q : TQ) : TQ :=
  mkTQ r (m_transferQueueSize q) (m_transferQueueIndex q) (m_emptyItemCount q)
    (m_hasGLContext q) (m_interruptedByRemovingOp q) (m_currentUploadType q)
    (m_pureColorTileQueue q) (m_ANW q) (tiles q) (calls q).

Definition set_index (i : nat) (q : TQ) : TQ :=
  mkTQ (m_transferQueue q) (m_transferQueueSize q) i (m_emptyItemCount q)
    (m_hasGLContext q) (m_interruptedByRemovingOp q) (m_currentUploadType q)
    (m_pureColorTileQueue q) (m_ANW q) (tiles q) (calls q).

Definition set_emptyItemCount (c : Z) (q : TQ) : TQ :=
  mkTQ (m_transferQueue q) (m_transferQueueSize q) (m_transferQueueIndex q) c
    (m_hasGLContext q) (m_interruptedByRemovingOp q) (m_currentUploadType q)
    (m_pureColorTileQueue q) (m_ANW q) (tiles q) (calls q).

Definition setHasGLContext (hasContext : bool) (q : TQ) : TQ :=
  mkTQ (m_transferQueue q) (m_transferQueueSize q) (m_transferQueueIndex q)
    (m_emptyItemCount q) hasContext (m_interruptedByRemovingOp q)
    (m_currentUploadType q) (m_pureColorTileQueue q) (m_ANW q) (tiles q)
    (calls q).

Definition set_interrupted (b : bool) (q : TQ) : TQ :=
  mkTQ (m_transferQueue q) (m_transferQueueSize q) (m_transferQueueIndex q)
    (m_emptyItemCount q) (m_hasGLContext q) b (m_currentUploadType q)
    (m_pureColorTileQueue q) (m_ANW q) (tiles q) (calls q).

Definition set_currentUploadType (t : TextureUploadType) (q : TQ) : TQ :=
  mkTQ (m_transferQueue q) (m_transferQueueSize q) (m_transferQueueIndex q)
    (m_emptyItemCount q) (m_hasGLContext q) (m_interruptedByRemovingOp q) t
    (m_pureColorTileQueue q) (m_ANW q) (tiles q) (calls q).

Definition set_pureColorTileQueue (l : list TileTransferData) (q : TQ) : TQ :=
  mkTQ (m_transferQueue q) (m_transferQueueSize q) (m_transferQueueIndex q)
    (m_emptyItemCount q) (m_hasGLContext q) (m_interruptedByRemovingOp q)
    (m_currentUploadType q) l (m_ANW q) (tiles q) (calls q).

Definition set_tiles (w : W) (q : TQ) : TQ :=
  mkTQ (m_transferQueue q) (m_transferQueueSize q) (m_transferQueueIndex q)
    (m_emptyItemCount q) (m_hasGLContext q) (m_interruptedByRemovingOp q)
    (m_currentUploadType q) (m_pureColorTileQueue q) (m_ANW q) w (calls q).

(** Append one entry to the call log. *)
Definition emit (e : Event) (q : TQ) : TQ :=
  mkTQ (m_transferQueue q) (m_transferQueueSize q) (m_transferQueueIndex q)
    (m_emptyItemCount q) (m_hasGLContext q) (m_interruptedByRemovingOp q)
    (m_currentUploadType q) (m_pureColorTileQueue q) (m_ANW q) (tiles q)
    (calls q ++ [e]).

(** A collaborator call: logged, and its effect applied to the world. *)
Definition call (e : Event) (f : W -> W) (q : TQ) : TQ :=
  emit e (set_tiles (f (tiles q)) q).

(** [TransferQueue::TransferQueue(bool useMinimalMem)].  DEFAULT_UPLOAD_TYPE
    is a macro of TransferQueue.h and is taken as a parameter; the window
    handle is null until initGLResources runs. *)
Definition TransferQueue_new (DEFAULT_UPLOAD_TYPE : TextureUploadType)
    (useMinimalMem : bool) (w : W) : TQ :=
  let size := if useMinimalMem then MINIMAL_SIZE else EFFICIENT_SIZE in
  {| m_transferQueue := replicate size (TileTransferData_new DEFAULT_UPLOAD_TYPE);
     m_transferQueueSize := size;
     m_transferQueueIndex := 0;
     m_emptyItemCount := Z.of_nat size;
     m_hasGLContext := true;
     m_interruptedByRemovingOp := false;
     m_currentUploadType := DEFAULT_UPLOAD_TYPE;
     m_pureColorTileQueue := [];
     m_ANW := false;
     tiles := w;
     calls := [] |}.

(** initGLResources, as far as the queue's own state goes: the native window
    handle becomes non-null. *)
Definition initGLResources (q : TQ) : TQ :=
  mkTQ (m_transferQueue q) (m_transferQueueSize q) (m_transferQueueIndex q)
    (m_emptyItemCount q) (m_hasGLContext q) (m_interruptedByRemovingOp q)
    (m_currentUploadType q) (m_pureColorTileQueue q) true (tiles q) (calls q).

(** Pointer comparison. *)
Definition ptr_eqb (a b : option nat) : bool := bool_decide (a = b).

(** [TransferQueue::checkObsolete]. *)
Definition checkObsolete (w : W) (data : TileTransferData) : bool :=
  match savedTilePtr data with
  | None => true
  | Some baseTilePtr =>
      let baseTileTexture := backTexture w baseTilePtr in
      if negb (bool_decide (is_Some baseTileTexture))
         || negb (ptr_eqb baseTileTexture (savedTileTexturePtr data))
      then true
      else false
  end.

Definition getHasGLContext (q : TQ) : bool := m_hasGLContext q.

Definition getNextTransferQueueIndex (q : TQ) : nat :=
  (m_transferQueueIndex q + 1) mod m_transferQueueSize q.

(** [TransferQueue::interruptTransferQueue]. *)
Definition interruptTransferQueue (interrupt : bool) (q : TQ) : TQ :=
  let q := set_interrupted interrupt q in
  if m_interruptedByRemovingOp q then emit EvSignal q else q.

(** [TransferQueue::readyForUpdate].  The condition wait releases the lock:
    [others] is what the other threads do to the queue, each under the lock,
    between the release and the moment this thread holds the lock again. *)
Definition readyForUpdate (others : TQ -> TQ) (q : TQ) : bool * TQ :=
  let finish (q : TQ) :=
    if negb (getHasGLContext q) then (false, q) else (true, q) in
  if negb (getHasGLContext q) then (false, q)
  else if (m_emptyItemCount q =? 0)%Z then
    if m_interruptedByRemovingOp q then (false, q)
    else
      let q := others (emit EvWait q) in
      if m_interruptedByRemovingOp q then (false, q)
      else finish q
  else finish q.

(** The body of the loop of [setPendingDiscard] at slot [i].  Here and in
    the other loops a position outside the array, which [wf] rules out,
    leaves the state as it is. *)
Definition markDiscard (i : nat) (ring : list TileTransferData)
  : list TileTransferData :=
  match ring !! i with
  | Some d =>
      match status d with
      | pendingBlit =>
          <[i := mkData pendingDiscard (savedTilePtr d) (savedTileTexturePtr d)
                   (uploadType d) (bitmap d) (invalRect d) (pureColor d)]> ring
      | _ => ring
      end
  | None => ring
  end.

(** The loop itself, over the slots [i], [i+1], ... *)
Fixpoint markDiscardLoop (n i : nat) (ring : list TileTransferData)
  : list TileTransferData :=
  match n with
  | 0 => ring
  | S n' => markDiscardLoop n' (S i) (markDiscard i ring)
  end.

(** [TransferQueue::setPendingDiscard]. *)
Definition setPendingDiscard (q : TQ) : TQ :=
  let q := set_ring (markDiscardLoop (m_transferQueueSize q) 0 (m_transferQueue q)) q in
  let q := set_pureColorTileQueue [] q in
  let GLContextExisted := getHasGLContext q in
  let q := setHasGLContext false q in
  if GLContextExisted then emit EvSignal q else q.

Definition setPendingDiscardWithLock (q : TQ) : TQ := setPendingDiscard q.

(** The body of the loop of [updatePureColorTiles] at entry [i]. *)
Definition pureColorBody (i : nat) (data : TileTransferData) (q : TQ) : TQ :=
  match status data with
  | pendingBlit =>
      let obsoleteTile := checkObsolete (tiles q) data in
      if obsoleteTile then q
      else
        match savedTilePtr data ≫= backTexture (tiles q) with
        | Some destTexture =>
            let q := call (EvSetPureColor i destTexture (pureColor data))
                       (setPureColor destTexture (pureColor data)) q in
            call (EvTransferComplete (Side i) destTexture)
              (transferComplete destTexture) q
        | None => q
        end
  | _ => q
  end.

Fixpoint pureColorLoop (i : nat) (l : list TileTransferData) (q : TQ) : TQ :=
  match l with
  | [] => q
  | data :: l' => pureColorLoop (S i) l' (pureColorBody i data q)
  end.

(** [TransferQueue::updatePureColorTiles]. *)
Definition updatePureColorTiles (q : TQ) : TQ :=
  let q := pureColorLoop 0 (m_pureColorTileQueue q) q in
  set_pureColorTileQueue [] q.

(** The body of the loop of [cleanupPendingDiscard] at ring position
    [index]. *)
Definition cleanupBody (index : nat) (q : TQ) : TQ :=
  match m_transferQueue q !! index with
  | Some d =>
      match status d with
      | pendingDiscard =>
          let q :=
            match uploadType d with
            | GpuUpload => emit (EvUpdateTexImage index) q
            | CpuUpload => q
            end in
          let q :=
            match savedTilePtr d, savedTileTexturePtr d with
            | Some tile, Some texture =>
                if ptr_eqb (owner (tiles q) texture) (Some tile)
                then call (EvDiscardBackTexture index tile)
                       (discardBackTexture tile) q
                else q
            | _, _ => q
            end in
          let d' := mkData emptyItem None None (uploadType d) (bitmap d)
                      (invalRect d) (pureColor d) in
          emit (EvSlotEmptied index d')
            (set_ring (<[index := d']> (m_transferQueue q)) q)
      | _ => q
      end
  | None => q
  end.

Fixpoint cleanupLoop (n index : nat) (q : TQ) : TQ :=
  match n with
  | 0 => q
  | S n' =>
      let q := cleanupBody index q in
      cleanupLoop n' ((index + 1) mod m_transferQueueSize q) q
  end.

(** [TransferQueue::cleanupPendingDiscard]. *)
Definition cleanupPendingDiscard (q : TQ) : TQ :=
  cleanupLoop (m_transferQueueSize q) (getNextTransferQueueIndex q) q.

(** [TransferQueue::emptyQueue]; cleanupGLResources only touches GL
    objects. *)
Definition emptyQueue (q : TQ) : TQ :=
  cleanupPendingDiscard (setPendingDiscard q).

(** The body of the ring walk of [updateDirtyTiles] at position [index];
    the boolean is [usedFboForUpload]. *)
Definition blitBody (index : nat) (st : bool * TQ) : bool * TQ :=
  let '(usedFboForUpload, q) := st in
  match m_transferQueue q !! index with
  | Some d =>
      match status d with
      | pendingBlit =>
          let obsoleteTile := checkObsolete (tiles q) d in
          let destTexture :=
            if obsoleteTile then None
            else savedTilePtr d ≫= backTexture (tiles q) in
          let frontTex :=
            if obsoleteTile then None
            else savedTilePtr d ≫= frontTexture (tiles q) in
          let q :=
            match uploadType d with
            | GpuUpload => emit (EvUpdateTexImage index) q
            | CpuUpload => q
            end in
          let d' := mkData emptyItem None (savedTileTexturePtr d)
                      (uploadType d) (bitmap d) (invalRect d) (pureColor d) in
          let q := emit (EvSlotEmptied index d')
                     (set_ring (<[index := d']> (m_transferQueue q)) q) in
          if obsoleteTile then (usedFboForUpload, q)
          else
            match destTexture with
            | Some dest =>
                let q := call (EvRequireGLTexture index dest)
                           (requireGLTexture dest) q in
                let '(usedFboForUpload, q) :=
                  match uploadType d' with
                  | CpuUpload =>
                      (usedFboForUpload,
                       emit (EvUpdateTextureWithBitmap index dest (bitmap d')
                               (invalRect d')) q)
                  | GpuUpload =>
                      let q := if usedFboForUpload then q
                               else emit EvSaveGLState q in
                      (true, emit (EvBlit index dest frontTex (invalRect d')) q)
                  end in
                let q := call (EvSetPure index dest false) (setPure dest false) q in
                let q := call (EvTransferComplete (Ring index) dest)
                           (transferComplete dest) q in
                (usedFboForUpload, q)
            | None => (usedFboForUpload, q)
            end
      | _ => st
      end
  | None => st
  end.

Fixpoint blitLoop (k index : nat) (st : bool * TQ) : bool * TQ :=
  match k with
  | 0 => st
  | S k' =>
      let st := blitBody index st in
      blitLoop k' ((index + 1) mod m_transferQueueSize (snd st)) st
  end.

(** [TransferQueue::updateDirtyTiles]. *)
Definition updateDirtyTiles (q : TQ) : TQ :=
  let q := cleanupPendingDiscard q in
  let q := if negb (getHasGLContext q) then setHasGLContext true q else q in
  let q := updatePureColorTiles q in
  let nextItemIndex := getNextTransferQueueIndex q in
  let '(usedFboForUpload, q) :=
    blitLoop (m_transferQueueSize q) nextItemIndex (false, q) in
  let q := if usedFboForUpload then emit EvRestoreGLState q else q in
  let q := set_emptyItemCount (Z.of_nat (m_transferQueueSize q)) q in
  emit EvSignal q.

(** [TransferQueue::addItemCommon].  [SkIRect::width()] and [height()] are
    [fRight - fLeft] and [fBottom - fTop] computed in [int].  The source
    dereferences [baseTile] in the first line; with a null [baseTile] the
    embedding stores the null pointer and no texture. *)
Definition addItemCommon (w : W) (renderInfo : TileRenderInfo)
    (type : TextureUploadType) (data : TileTransferData) : TileTransferData :=
  let inval :=
    match invalRectPtr renderInfo with
    | Some r => mkIntRect (fLeft r) (fTop r) (wrapInt (fRight r - fLeft r))
                  (wrapInt (fBottom r - fTop r))
    | None => mkIntRect 0 0 0 0
    end in
  mkData pendingBlit (baseTile renderInfo)
    (baseTile renderInfo ≫= backTexture w) type (bitmap data) inval
    (pureColor data).

(** [TransferQueue::addItemInTransferQueue].  The slot array is indexed by a
    position below its size; a position outside the list leaves it as it
    is. *)
Definition addItemInTransferQueue (renderInfo : TileRenderInfo)
    (type : TextureUploadType) (bmp : option SkBitmap) (q : TQ) : TQ :=
  let q := set_index ((m_transferQueueIndex q + 1) mod m_transferQueueSize q) q in
  let index := m_transferQueueIndex q in
  let q :=
    match m_transferQueue q !! index with
    | Some d =>
        let data := addItemCommon (tiles q) renderInfo type d in
        let data :=
          match type, bmp with
          | CpuUpload, Some b =>
              mkData (status data) (savedTilePtr data) (savedTileTexturePtr data)
                (uploadType data) (Some b) (invalRect data) (pureColor data)
          | _, _ => data
          end in
        set_ring (<[index := data]> (m_transferQueue q)) q
    | None => q
    end in
  set_emptyItemCount (m_emptyItemCount q - 1)%Z q.

(** [TransferQueue::addItemInPureColorQueue]. *)
Definition addItemInPureColorQueue (renderInfo : TileRenderInfo) (q : TQ) : TQ :=
  (* the upload kind of the temporary is overwritten by addItemCommon *)
  let data := addItemCommon (tiles q) renderInfo GpuUpload
                (TileTransferData_new GpuUpload) in
  let data := mkData (status data) (savedTilePtr data) (savedTileTexturePtr data)
                (uploadType data) (bitmap data) (invalRect data)
                (ri_pureColor renderInfo) in
  set_pureColorTileQueue (m_pureColorTileQueue q ++ [data]) q.

(** [TransferQueue::tryUpdateQueueWithBitmap].  [writeOk] is the result of
    [GLUtils::updateSharedSurfaceTextureWithBitmap], which does not touch the
    queue. *)
Definition tryUpdateQueueWithBitmap (others : TQ -> TQ) (writeOk : bool)
    (renderInfo : TileRenderInfo) (bmp : SkBitmap) (q : TQ) : bool * TQ :=
  let '(ready, q) := readyForUpdate others q in
  let currentUploadType := m_currentUploadType q in
  if negb ready then (false, q)
  else
    let enqueue (q : TQ) :=
      (true, addItemInTransferQueue renderInfo currentUploadType (Some bmp) q) in
    match currentUploadType with
    | GpuUpload =>
        if negb (m_ANW q) then (false, q)
        else
          let q := emit (EvSharedSurfaceWrite bmp writeOk) q in
          if negb writeOk then (false, q)
          else enqueue q
    | CpuUpload => enqueue q
    end.

(** [TransferQueue::updateQueueWithBitmap]. *)
Definition updateQueueWithBitmap (others : TQ -> TQ) (writeOk : bool)
    (renderInfo : TileRenderInfo) (bmp : SkBitmap) (q : TQ) : TQ :=
  let '(ok, q) := tryUpdateQueueWithBitmap others writeOk renderInfo bmp q in
  if negb ok then
    let tile := baseTile renderInfo in
    match tile with
    | Some tile =>
        call (EvBackTextureTransferFail tile) (backTextureTransferFail tile) q
    | None => q
    end
  else q.

(** [TransferQueue::setTextureUploadType]. *)
Definition setTextureUploadType (type : TextureUploadType) (q : TQ) : TQ :=
  if bool_decide (m_currentUploadType q = type) then q
  else
    let q := setPendingDiscard q in
    set_currentUploadType type q.

(** The array has [m_transferQueueSize] slots and the write index stays
    below it. *)
Definition wf (q : TQ) : Prop :=
  0 < m_transferQueueSize q
  /\ length (m_transferQueue q) = m_transferQueueSize q
  /\ m_transferQueueIndex q < m_transferQueueSize q.

End Queue.

(** * Derived definitions *)

(** ** What each loop body does to its slot and to the log *)

(** The slot left by [cleanupPendingDiscard]. *)
Definition resolveDiscard (d : TileTransferData) : TileTransferData :=
  match status d with
  | pendingDiscard =>
      mkData emptyItem None None (uploadType d) (bitmap d) (invalRect d)
        (pureColor d)
  | _ => d
  end.

(** The slot left by the ring walk of [updateDirtyTiles]. *)
Definition releaseBlit (d : TileTransferData) : TileTransferData :=
  match status d with
  | pendingBlit =>
      mkData emptyItem None (savedTileTexturePtr d) (uploadType d) (bitmap d)
        (invalRect d) (pureColor d)
  | _ => d
  end.

(** The slot left by [setPendingDiscard]. *)
Definition toDiscard (d : TileTransferData) : TileTransferData :=
  match status d with
  | pendingBlit =>
      mkData pendingDiscard (savedTilePtr d) (savedTileTexturePtr d)
        (uploadType d) (bitmap d) (invalRect d) (pureColor d)
  | _ => d
  end.

(** The guard of the discard call in [cleanupPendingDiscard]. *)
Definition stillOwned {W} `{TileWorld W} (w : W) (d : TileTransferData) : option Tile :=
  match savedTilePtr d, savedTileTexturePtr d with
  | Some tile, Some texture =>
      if ptr_eqb (owner w texture) (Some tile) then Some tile else None
  | _, _ => None
  end.

(** The log entries of one iteration of [cleanupPendingDiscard]. *)
Definition cleanupEvents {W} `{TileWorld W} (index : nat) (w : W)
    (slot : option TileTransferData) : list Event :=
  match slot with
  | Some d =>
      match status d with
      | pendingDiscard =>
          (match uploadType d with
           | GpuUpload => [EvUpdateTexImage index]
           | CpuUpload => []
           end)
          ++ (match stillOwned w d with
              | Some tile => [EvDiscardBackTexture index tile]
              | None => []
              end)
          ++ [EvSlotEmptied index (resolveDiscard d)]
      | _ => []
      end
  | None => []
  end.

(** The log entries of one iteration of the ring walk of
    [updateDirtyTiles], entered with [usedFboForUpload = usedFbo]. *)
Definition blitEvents {W} `{TileWorld W} (index : nat) (usedFbo : bool) (w : W)
    (slot : option TileTransferData) : list Event :=
  match slot with
  | Some d =>
      match status d with
      | pendingBlit =>
          (match uploadType d with
           | GpuUpload => [EvUpdateTexImage index]
           | CpuUpload => []
           end)
          ++ [EvSlotEmptied index (releaseBlit d)]
          ++ (if checkObsolete w d then []
              else
                match savedTilePtr d ≫= backTexture w with
                | Some dest =>
                    [EvRequireGLTexture index dest]
                    ++ (match uploadType d with
                        | CpuUpload =>
                            [EvUpdateTextureWithBitmap index dest (bitmap d)
                               (invalRect d)]
                        | GpuUpload =>
                            (if usedFbo then [] else [EvSaveGLState])
                            ++ [EvBlit index dest
                                  (savedTilePtr d ≫= frontTexture w)
                                  (invalRect d)]
                        end)
                    ++ [EvSetPure index dest false;
                        EvTransferComplete (Ring index) dest]
                | None => []
                end)
      | _ => []
      end
  | None => []
  end.

(** The entries logged by an operation that takes [q] to [q']. *)
Definition newCalls {W} (q q' : TransferQueue W) : list Event :=
  drop (length (calls q)) (calls q').

(** The members that only the queue's own control paths write. *)
Definition sameControl {W} (q q' : TransferQueue W) : Prop :=
  m_transferQueueSize q' = m_transferQueueSize q
  /\ m_transferQueueIndex q' = m_transferQueueIndex q
  /\ m_emptyItemCount q' = m_emptyItemCount q
  /\ m_hasGLContext q' = m_hasGLContext q
  /\ m_interruptedByRemovingOp q' = m_interruptedByRemovingOp q
  /\ m_currentUploadType q' = m_currentUploadType q
  /\ m_pureColorTileQueue q' = m_pureColorTileQueue q
  /\ m_ANW q' = m_ANW q.

(** ** Reading the log *)

(** The ring position an entry of the log belongs to. *)
Definition slotOf (e : Event) : option nat :=
  match e with
  | EvUpdateTexImage i | EvSlotEmptied i _ | EvDiscardBackTexture i _
  | EvRequireGLTexture i _ | EvUpdateTextureWithBitmap i _ _ _
  | EvBlit i _ _ _ | EvSetPure i _ _ | EvTransferComplete (Ring i) _ => Some i
  | _ => None
  end.

(** Entries made while processing the pure-colour queue. *)
Definition isSideEvent (e : Event) : bool :=
  match e with
  | EvSetPureColor _ _ _ | EvTransferComplete (Side _) _ => true
  | _ => false
  end.

(** Entries made while a ring slot is examined. *)
Definition isRingEvent (e : Event) : bool :=
  match e with
  | EvSaveGLState => true
  | _ => bool_decide (is_Some (slotOf e))
  end.

(** [updateTexImage] called at ring position [j]. *)
Definition isUpdateTexImageAt (j : nat) (e : Event) : bool :=
  match e with
  | EvUpdateTexImage i => bool_decide (i = j)
  | _ => false
  end.

(** A GPU write for ring position [j]: texture materialization, direct
    bitmap upload, or blit. *)
Definition isGpuWriteAt (j : nat) (e : Event) : bool :=
  match e with
  | EvRequireGLTexture i _ | EvUpdateTextureWithBitmap i _ _ _
  | EvBlit i _ _ _ => bool_decide (i = j)
  | _ => false
  end.

(** The positions of the ring slots emptied, in log order. *)
Definition emptiedSlots (evs : list Event) : list nat :=
  omap (λ e, match e with EvSlotEmptied i _ => Some i | _ => None end) evs.

Definition countEvents (p : Event -> bool) (evs : list Event) : nat :=
  length (List.filter p evs).

(** How many [updateTexImage] calls discard resolution owes a slot. *)
Definition discardReads (d : TileTransferData) : nat :=
  match status d, uploadType d with
  | pendingDiscard, GpuUpload => 1
  | _, _ => 0
  end.

(** How many [updateTexImage] calls the ring walk owes a slot. *)
Definition blitReads (d : TileTransferData) : nat :=
  match status d, uploadType d with
  | pendingBlit, GpuUpload => 1
  | _, _ => 0
  end.

(** The slot the ring walk empties at position [i], if any. *)
Definition blitTargets (i : nat) (slot : option TileTransferData) : list nat :=
  match slot with
  | Some d =>
      match status d with
      | pendingBlit => [i]
      | _ => []
      end
  | None => []
  end.

(** ** A concrete world *)

(** Modelled from the spec: Tile.cpp and TileTexture.cpp are not among the
    sources.  A destination has a current (back) and a previous (front)
    texture and a texture has an owner; discarding drops the destination's
    current texture and, if the destination owns it, releases it; the other
    calls do not change which texture a destination holds. *)
Record Tiles := mkTiles {
  back_of : Tile -> option TileTexture;
  front_of : Tile -> option TileTexture;
  owner_of : TileTexture -> option Tile;
}.

#[global] Instance Tiles_world : TileWorld Tiles := {|
  backTexture w t := back_of w t;
  frontTexture w t := front_of w t;
  owner w x := owner_of w x;
  discardBackTexture t w :=
    mkTiles (λ t', if decide (t' = t) then None else back_of w t')
      (front_of w)
      (λ x, if decide (back_of w t = Some x /\ owner_of w x = Some t)
            then None else owner_of w x);
  backTextureTransferFail t w := w;
  requireGLTexture x w := w;
  setPureColor x c w := w;
  setPure x b w := w;
  transferComplete x w := w;
|}.

(** ** Sequences of operations *)

Section Runs.
Context {W : Type} `{TileWorld W}.

(** The operations that write the ring and its empty-slot count. *)
Inductive Op :=
| OpEnqueue (renderInfo : TileRenderInfo) (type : TextureUploadType)
    (bmp : option SkBitmap)
| OpDrain
| OpSetPendingDiscard
| OpCleanupPendingDiscard.

Definition runOp (o : Op) (q : TransferQueue W) : TransferQueue W :=
  match o with
  | OpEnqueue renderInfo type bmp => addItemInTransferQueue renderInfo type bmp q
  | OpDrain => updateDirtyTiles q
  | OpSetPendingDiscard => setPendingDiscard q
  | OpCleanupPendingDiscard => cleanupPendingDiscard q
  end.






(** Enqueuing the requests [rs] one after the other. *)
Definition enqueueAll (rs : list TileRenderInfo) (type : TextureUploadType)
    (bmp : option SkBitmap) (q : TransferQueue W) : TransferQueue W :=
  foldl (λ q r, addItemInTransferQueue r type bmp q) q rs.

(** A request as it arrives at the ring: the tile world at that moment (tiles
    change their textures between two arrivals), the request, the upload
    kind and the bitmap. *)
Record Arrival := mkArrival {
  a_world : W;
  a_request : TileRenderInfo;
  a_type : TextureUploadType;
  a_bitmap : option SkBitmap;
}.

Definition arrive (a : Arrival) (q : TransferQueue W) : TransferQueue W :=
  addItemInTransferQueue (a_request a) (a_type a) (a_bitmap a)
    (set_tiles (a_world a) q).

(** The arrivals [l] enqueued one after the other. *)
Definition arriveAll (l : list Arrival) (q : TransferQueue W)
  : TransferQueue W :=
  foldl (λ q a, arrive a q) q l.

(** The entry points other than the drain. *)
Inductive Request :=
| ReqUpdate (others : TransferQueue W -> TransferQueue W) (writeOk : bool)
    (renderInfo : TileRenderInfo) (bmp : SkBitmap)
| ReqPureColor (renderInfo : TileRenderInfo)
| ReqSetPendingDiscard
| ReqEmptyQueue
| ReqInterrupt (interrupt : bool)
| ReqSetTextureUploadType (type : TextureUploadType)
| ReqInitGLResources.

(** Serving a request; the boolean is the result of
    [tryUpdateQueueWithBitmap] when the request is an update. *)
Definition serve (r : Request) (q : TransferQueue W)
  : option bool * TransferQueue W :=
  match r with
  | ReqUpdate others writeOk renderInfo bmp =>
      (Some (fst (tryUpdateQueueWithBitmap others writeOk renderInfo bmp q)),
       updateQueueWithBitmap others writeOk renderInfo bmp q)
  | ReqPureColor renderInfo => (None, addItemInPureColorQueue renderInfo q)
  | ReqSetPendingDiscard => (None, setPendingDiscardWithLock q)
  | ReqEmptyQueue => (None, emptyQueue q)
  | ReqInterrupt interrupt => (None, interruptTransferQueue interrupt q)
  | ReqSetTextureUploadType type => (None, setTextureUploadType type q)
  | ReqInitGLResources => (None, initGLResources q)
  end.

Fixpoint serveAll (rs : list Request) (q : TransferQueue W)
  : list (option bool) * TransferQueue W :=
  match rs with
  | [] => ([], q)
  | r :: rs' =>
      let '(res, q) := serve r q in
      let '(ress, q) := serveAll rs' q in
      (res :: ress, q)
  end.

End Runs.

(** ** The stages of a drain cycle *)

Section Stages.
Context {W : Type} `{TileWorld W}.

(** After discard resolution and the context being marked live. *)
Definition afterDiscards (q : TransferQueue W) : TransferQueue W :=
  let q := cleanupPendingDiscard q in
  if negb (getHasGLContext q) then setHasGLContext true q else q.

(** After the pure-colour queue has been processed. *)
Definition afterPureColor (q : TransferQueue W) : TransferQueue W :=
  updatePureColorTiles (afterDiscards q).

(** After the ring walk, with [usedFboForUpload]. *)
Definition afterRingWalk (q : TransferQueue W) : bool * TransferQueue W :=
  blitLoop (m_transferQueueSize (afterPureColor q))
    (getNextTransferQueueIndex (afterPureColor q)) (false, afterPureColor q).

(** In [evs], every GPU write for a ring slot comes after the entry that
    records the slot being emptied with its tile reference reset. *)
Definition emptiedFirst (evs : list Event) : Prop :=
  forall n e j, evs !! n = Some e -> isGpuWriteAt j e = true ->
    exists m d, m < n /\ evs !! m = Some (EvSlotEmptied j d)
      /\ status d = emptyItem /\ savedTilePtr d = None.

(** The same with every reference of the slot reset. *)
Definition releasedFirst (evs : list Event) : Prop :=
  forall n e j, evs !! n = Some e -> isGpuWriteAt j e = true ->
    exists m d, m < n /\ evs !! m = Some (EvSlotEmptied j d)
      /\ status d = emptyItem /\ savedTilePtr d = None
      /\ savedTileTexturePtr d = None.

(** In [evs], no entry made at a ring slot precedes an entry made for the
    pure-colour queue. *)
Definition sideFirst (evs : list Event) : Prop :=
  forall m n e1 e2, evs !! m = Some e1 -> evs !! n = Some e2 ->
    isRingEvent e1 = true -> isSideEvent e2 = true -> n < m.

End Stages.

(** ** Example states *)

(** Tiles that hold no texture yet. *)
Definition bareTiles : Tiles := mkTiles (λ _, None) (λ _, None) (λ _, None).

(** Tile [t] holds back texture [100 + t], which it owns. *)
Definition paintedTiles : Tiles :=
  mkTiles (λ t, Some (100 + t)) (λ _, None) (λ x, Some (x - 100)).

Definition requestFor (t : Tile) : TileRenderInfo :=
  mkRenderInfo (Some t) None 0%Z.

(** A one-slot DirectUpload queue whose slot has just been filled. *)
Definition fullSmallQueue : TransferQueue Tiles :=
  snd (tryUpdateQueueWithBitmap id true (requestFor 1) [1%Z]
         (TransferQueue_new CpuUpload true paintedTiles)).

(** While a producer waits, the consumer drains and another producer
    enqueues before the waiter holds the lock again. *)
Definition drainThenRival (q : TransferQueue Tiles) : TransferQueue Tiles :=
  snd (tryUpdateQueueWithBitmap id true (requestFor 2) [2%Z]
         (updateDirtyTiles q)).

(** A six-slot GpuUpload queue with its GL resources, and tile 1 enqueued. *)
Definition oneQueuedGpu : TransferQueue Tiles :=
  snd (tryUpdateQueueWithBitmap id true (requestFor 1) [1%Z]
         (initGLResources (TransferQueue_new GpuUpload false paintedTiles))).

(** Texture 101, which the queued entry expects, has been given to tile 9. *)
Definition reassignedTiles : Tiles :=
  mkTiles (λ t, if decide (t = 1) then None else Some (100 + t)) (λ _, None)
    (λ x, if decide (x = 101) then Some 9 else Some (x - 100)).

(** The queued entry is marked for discard, then a pure-colour request for
    tile 4 arrives. *)
Definition discardedThenPure : TransferQueue Tiles :=
  addItemInPureColorQueue (requestFor 4)
    (setPendingDiscardWithLock oneQueuedGpu).

(** * The rest of the file *)

(** ** GL resources: [initGLResources] and [cleanupGLResources] *)

Module GL.

(** The GL and SurfaceTexture calls of the two functions. *)
Inductive Call :=
| GenTextures (name : nat)
| NewSurfaceTexture (tex : nat)
| NewSurfaceTextureClient (surface : nat)
| SetSynchronousMode (enabled : bool)
| QueryMinUndequeuedBuffers
| SetBufferCount (n : Z)
| SetBuffersGeometry (width height : Z)
| SetUsage
| GenFramebuffers (name : nat)
| Abandon (surface : nat)
| DeleteFramebuffers (name : nat)
| DeleteTextures (name : nat).

(** The members the two functions manage.  A SurfaceTexture is identified by
    the texture name it was created on, a SurfaceTextureClient by the surface
    it wraps; a null [sp] is [None], the GL name 0 is "none". *)
Record Resources := mkResources {
  m_sharedSurfaceTextureId : nat;
  m_fboID : nat;
  m_sharedSurfaceTexture : option nat;
  m_ANW : option nat;
}.

(** [TransferQueue::cleanupGLResources]. *)
Definition cleanupGLResources (r : Resources) : Resources * list Call :=
  let '(surface, c1) :=
    match m_sharedSurfaceTexture r with
    | Some s => (None, [Abandon s])
    | None => (m_sharedSurfaceTexture r, [])
    end in
  let '(fbo, c2) :=
    if negb (m_fboID r =? 0) then (0, [DeleteFramebuffers (m_fboID r)])
    else (m_fboID r, []) in
  let '(tex, c3) :=
    if negb (m_sharedSurfaceTextureId r =? 0)
    then (0, [DeleteTextures (m_sharedSurfaceTextureId r)])
    else (m_sharedSurfaceTextureId r, []) in
  (mkResources tex fbo surface (m_ANW r), c1 ++ c2 ++ c3).

(** [TransferQueue::initGLResources].  [newTexture] and [newFbo] are the
    names the driver hands out, [extraBuffersNeeded] the answer to the
    NATIVE_WINDOW_MIN_UNDEQUEUED_BUFFERS query; the buffer count is the sum
    of two [int]s. *)
Definition initGLResources (m_transferQueueSize : nat) (newTexture newFbo : nat)
    (extraBuffersNeeded : Z) (width height : Z) (r : Resources)
  : Resources * list Call :=
  let '(r, c1) :=
    if m_sharedSurfaceTextureId r =? 0 then
      (mkResources newTexture (m_fboID r) (Some newTexture) (Some newTexture),
       [GenTextures newTexture; NewSurfaceTexture newTexture;
        NewSurfaceTextureClient newTexture; SetSynchronousMode true;
        QueryMinUndequeuedBuffers;
        SetBufferCount
          (wrapInt (Z.of_nat m_transferQueueSize + extraBuffersNeeded));
        SetBuffersGeometry width height; SetUsage])
    else (r, []) in
  let '(r, c2) :=
    if m_fboID r =? 0 then
      (mkResources (m_sharedSurfaceTextureId r) newFbo
         (m_sharedSurfaceTexture r) (m_ANW r),
       [GenFramebuffers newFbo])
    else (r, []) in
  (r, c1 ++ c2).

(** The members as the constructor leaves them. *)
Definition fresh : Resources := mkResources 0 0 None None.

End GL.

(** ** GL state around the blit: [saveGLState], [setGLStateForCopy],
    [restoreGLState] *)

(** The part of the GL state the three functions read and write (DEBUG is
    not defined, so the clear colour is left out). *)
Record GLState := mkGLState {
  gl_viewport : Z * Z * Z * Z;
  gl_scissorTest : bool;
  gl_depthTest : bool;
}.

(** [m_GLStateBeforeBlit]. *)
Record GLStateBeforeBlit := mkSaved {
  saved_viewport : Z * Z * Z * Z;
  saved_scissor : bool;
  saved_depth : bool;
}.

(** [TransferQueue::saveGLState]. *)
Definition saveGLState (gl : GLState) : GLStateBeforeBlit :=
  mkSaved (gl_viewport gl) (gl_scissorTest gl) (gl_depthTest gl).

(** [TransferQueue::setGLStateForCopy]. *)
Definition setGLStateForCopy (width height : Z) (gl : GLState) : GLState :=
  mkGLState (0, 0, width, height)%Z false false.

(** [TransferQueue::restoreGLState]. *)
Definition restoreGLState (saved : GLStateBeforeBlit) (gl : GLState) : GLState :=
  let gl := mkGLState (saved_viewport saved) (gl_scissorTest gl)
              (gl_depthTest gl) in
  let gl := if saved_scissor saved
            then mkGLState (gl_viewport gl) true (gl_depthTest gl) else gl in
  if saved_depth saved
  then mkGLState (gl_viewport gl) (gl_scissorTest gl) true else gl.

(** ** [blitTileFromQueue] (GPU_UPLOAD_WITHOUT_DRAW is 1) *)

(** [IntRect::isEmpty]: no positive area. *)
Definition IntRect_isEmpty (r : IntRect) : bool :=
  (rwidth r <=? 0)%Z || (rheight r <=? 0)%Z.

(** What the blit needs of a [TileTexture]. *)
Record TextureInfo := mkTextureInfo {
  m_ownTextureId : nat;
  textureWidth : Z;
  textureHeight : Z;
}.

Inductive BlitCall :=
| BindFramebuffer (fbo : nat)
| BindTexture (tex : nat)
| FramebufferTexture2D (tex : nat)
| CopyTexSubImage2D (xoffset yoffset x y width height : Z).

(** [TransferQueue::blitTileFromQueue]; [inval] is the dirty region of the
    slot at [index]. *)
Definition blitTileFromQueue (fboID : nat) (destTex : TextureInfo)
    (frontTex : option TextureInfo) (srcTexId : nat) (inval : IntRect)
  : list BlitCall :=
  let partialInval := negb (IntRect_isEmpty inval) in
  [BindFramebuffer fboID; BindTexture (m_ownTextureId destTex)]
  ++ (match frontTex with
      | Some front =>
          if partialInval
          then [FramebufferTexture2D (m_ownTextureId front);
                CopyTexSubImage2D 0 0 0 0 (textureWidth destTex)
                  (textureHeight destTex)]
          else []
      | None => []
      end)
  ++ [FramebufferTexture2D srcTexId]
  ++ (if negb partialInval
      then [CopyTexSubImage2D 0 0 0 0 (textureWidth destTex)
              (textureHeight destTex)]
      else [CopyTexSubImage2D (rx inval) (ry inval) 0 0 (rwidth inval)
              (rheight inval)]).

(** ** More ways of reading the log *)

Definition isRequireAt (j : nat) (e : Event) : bool :=
  match e with EvRequireGLTexture i _ => bool_decide (i = j) | _ => false end.

Definition isSetPureAt (j : nat) (e : Event) : bool :=
  match e with EvSetPure i _ _ => bool_decide (i = j) | _ => false end.

Definition isCompleteAt (j : nat) (e : Event) : bool :=
  match e with
  | EvTransferComplete (Ring i) _ => bool_decide (i = j)
  | _ => false
  end.

(** A pixel transfer into the destination of slot [j]: bitmap upload or
    blit. *)
Definition isTransferAt (j : nat) (e : Event) : bool :=
  match e with
  | EvUpdateTextureWithBitmap i _ _ _ | EvBlit i _ _ _ => bool_decide (i = j)
  | _ => false
  end.

Definition isSaveGLState (e : Event) : bool :=
  match e with EvSaveGLState => true | _ => false end.

Definition isRestoreGLState (e : Event) : bool :=
  match e with EvRestoreGLState => true | _ => false end.

Definition isBlit (e : Event) : bool :=
  match e with EvBlit _ _ _ _ => true | _ => false end.

Definition isWait (e : Event) : bool :=
  match e with EvWait => true | _ => false end.

(** Whether the ring-walk iteration at a slot takes the blit path. *)
Definition takesBlitPath {W} `{TileWorld W} (w : W)
    (slot : option TileTransferData) : bool :=
  match slot with
  | Some d =>
      match status d, uploadType d with
      | pendingBlit, GpuUpload =>
          negb (checkObsolete w d)
          && bool_decide (is_Some (savedTilePtr d ≫= backTexture w))
      | _, _ => false
      end
  | None => false
  end.

(** One update request per tile request, all with the same environment. *)
Definition updateRequests {W} `{TileWorld W}
    (others : TransferQueue W -> TransferQueue W) (writeOk : bool)
    (bmp : SkBitmap) (rs : list TileRenderInfo) : list (@Request W) :=
  (λ r, ReqUpdate others writeOk r bmp) <$> rs.

(** Resources after init with texture name 7 and framebuffer name 3. *)
Definition initialisedGL : GL.Resources :=
  fst (GL.initGLResources 6 7 3 2 256 256 GL.fresh).

(** * Proofs *)

Lemma mod_shift_inj (N i k1 k2 : nat) :
  k1 < N -> k2 < N -> (i + k1) mod N = (i + k2) mod N -> k1 = k2.
Proof.
  intros H1 H2 E.
  assert (HN : N ≠ 0) by lia.
  pose proof (Nat.div_mod (i + k1) N HN) as D1.
  pose proof (Nat.div_mod (i + k2) N HN) as D2.
  pose proof (Nat.mod_upper_bound (i + k1) N HN) as B1.
  rewrite E in D1.
  set (a := (i + k1) / N) in *. set (b := (i + k2) / N) in *.
  set (r := (i + k2) mod N) in *.
  assert (a = b) by nia. subst. lia.
Qed.

Lemma walkFrom_map n i N :
  i < N -> walkFrom n i N = map (λ k, (i + k) mod N) (seq 0 n).
Proof.
  revert i. induction n as [|n IH]; intros i Hi; [done|].
  simpl. f_equal.
  - rewrite Nat.add_0_r, Nat.mod_small; done.
  - rewrite IH by (apply Nat.mod_upper_bound; lia).
    rewrite <- seq_shift, map_map. apply map_ext. intros k.
    rewrite Nat.Div0.add_mod_idemp_l. f_equal. lia.
Qed.

Lemma walkFrom_snoc n i N :
  i < N -> walkFrom (S n) i N = walkFrom n i N ++ [(i + n) mod N].
Proof.
  intros Hi. rewrite !walkFrom_map by done. by rewrite seq_S, map_app.
Qed.

Lemma walkFrom_fresh n i N : i < N -> n < N -> (i + n) mod N ∉ walkFrom n i N.
Proof.
  intros Hi Hn. rewrite walkFrom_map by done.
  intros (k & E & Hk%elem_of_seq)%list_elem_of_fmap.
  apply mod_shift_inj in E; lia.
Qed.

Lemma walkFrom_NoDup n i N : i < N -> n ≤ N -> NoDup (walkFrom n i N).
Proof.
  intros Hi Hn. rewrite walkFrom_map by done.
  apply NoDup_fmap_2_strong; [|apply NoDup_seq].
  intros k1 k2 H1%elem_of_seq H2%elem_of_seq E.
  eapply mod_shift_inj; [| |exact E]; lia.
Qed.

Lemma walkFrom_elem i N j : i < N -> j ∈ walkFrom N i N <-> j < N.
Proof.
  intros Hi. rewrite walkFrom_map by done. split.
  - intros (k & -> & _)%list_elem_of_fmap. apply Nat.mod_upper_bound. lia.
  - intros Hj. apply list_elem_of_fmap.
    exists (if decide (i ≤ j) then j - i else j + N - i). split.
    + case_decide.
      * replace (i + (j - i)) with j by lia. by rewrite Nat.mod_small.
      * replace (i + (j + N - i)) with (j + 1 * N) by lia.
        rewrite Nat.Div0.mod_add. by rewrite Nat.mod_small.
    + apply elem_of_seq. case_decide; lia.
Qed.

(** ** Loops over distinct ring positions *)

Section SlotFolds.
Context {St A : Type} (step : nat -> St -> St) (ring : St -> list A) (f : A -> A).
Hypothesis step_ring : forall i s, ring (step i s) = alter f i (ring s).

Lemma foldl_step_lookup (l : list nat) (s : St) (j : nat) :
  NoDup l ->
  ring (foldl (λ s i, step i s) s l) !! j
  = if decide (j ∈ l) then f <$> ring s !! j else ring s !! j.
Proof.
  revert s. induction l as [|a l IH]; intros s Hnd; cbn [foldl].
  - rewrite decide_False; [done|]. apply not_elem_of_nil.
  - apply NoDup_cons in Hnd as [Ha Hnd]. rewrite IH by done.
    rewrite step_ring. destruct (decide (a = j)) as [->|Hne].
    + rewrite (decide_False (P := j ∈ l)) by done.
      rewrite decide_True by apply list_elem_of_here.
      by rewrite list_lookup_alter_eq.
    + rewrite list_lookup_alter_ne by done.
      destruct (decide (j ∈ l)).
      * rewrite decide_True; [done|]. by apply list_elem_of_further.
      * rewrite decide_False; [done|].
        intros [?|?]%elem_of_cons; congruence.
Qed.

Lemma foldl_step_all (l : list nat) (s : St) :
  NoDup l -> (forall j, j ∈ l <-> j < length (ring s)) ->
  ring (foldl (λ s i, step i s) s l) = f <$> ring s.
Proof.
  intros Hnd Hall. apply list_eq. intros j.
  rewrite foldl_step_lookup by done. rewrite list_lookup_fmap.
  case_decide as Hj; [done|].
  rewrite Hall in Hj. rewrite lookup_ge_None_2 by lia. done.
Qed.

(** A quantity [m] of the state to which only the step at position [j]
    contributes, by an amount that depends on slot [j] alone. *)
Lemma foldl_step_count (m : St -> nat) (c : A -> nat) (j : nat) :
  (forall i s, m (step i s)
     = m s + (if decide (i = j) then from_option c 0 (ring s !! i) else 0)) ->
  forall (l : list nat) (s : St), NoDup l ->
    m (foldl (λ s i, step i s) s l)
    = m s + (if decide (j ∈ l) then from_option c 0 (ring s !! j) else 0).
Proof.
  intros Hm l. induction l as [|a l IH]; intros s Hnd; cbn [foldl].
  - rewrite decide_False; [lia|]. apply not_elem_of_nil.
  - apply NoDup_cons in Hnd as [Ha Hnd]. rewrite IH by done.
    rewrite Hm, step_ring. destruct (decide (a = j)) as [->|Hne].
    + rewrite (decide_False (P := j ∈ l)) by done.
      rewrite decide_True by apply list_elem_of_here. lia.
    + rewrite list_lookup_alter_ne by done.
      destruct (decide (j ∈ l)).
      * rewrite decide_True; [lia|]. by apply list_elem_of_further.
      * rewrite decide_False; [lia|].
        intros [?|?]%elem_of_cons; congruence.
Qed.

Lemma foldl_step_untouched (l : list nat) (s : St) (j : nat) :
  j ∉ l -> ring (foldl (λ s i, step i s) s l) !! j = ring s !! j.
Proof.
  revert s. induction l as [|a l IH]; intros s Hj; cbn [foldl]; [done|].
  apply not_elem_of_cons in Hj as [Hne Hj].
  rewrite IH by done. rewrite step_ring. by apply list_lookup_alter_ne.
Qed.

(** A list-valued quantity [m] to which the step at each position appends
    something that depends on that position's slot alone. *)
Lemma foldl_step_bind {B : Type} (m : St -> list B)
    (c : nat -> option A -> list B) :
  (forall i s, m (step i s) = m s ++ c i (ring s !! i)) ->
  forall (l : list nat) (s : St), NoDup l ->
    m (foldl (λ s i, step i s) s l) = m s ++ (l ≫= λ i, c i (ring s !! i)).
Proof.
  intros Hm l. induction l as [|a l IH]; intros s Hnd; cbn [foldl].
  - by rewrite app_nil_r.
  - apply NoDup_cons in Hnd as [Ha Hnd]. rewrite IH by done.
    rewrite Hm, bind_cons, <- app_assoc. do 2 f_equal.
    clear IH Hnd. induction l as [|b l IH]; [done|].
    apply not_elem_of_cons in Ha as [Hne Ha].
    rewrite !bind_cons, IH by done. f_equal.
    by rewrite step_ring, list_lookup_alter_ne.
Qed.

End SlotFolds.

Section LogFolds.
Context {St : Type} (step : nat -> St -> St) (log : St -> list Event).

(** A property of event lists that holds of the empty list and is closed
    under concatenation holds of what a loop logs if it holds of what each
    iteration logs. *)
Lemma foldl_log_closed (Q : list Event -> Prop) :
  Q [] -> (forall a b, Q a -> Q b -> Q (a ++ b)) ->
  (forall i s, exists evs, log (step i s) = log s ++ evs /\ Q evs) ->
  forall (l : list nat) (s : St),
    exists evs, log (foldl (λ s i, step i s) s l) = log s ++ evs /\ Q evs.
Proof.
  intros Hnil Happ Hstep l. induction l as [|a l IH]; intros s; cbn [foldl].
  - exists []. by rewrite app_nil_r.
  - destruct (Hstep a s) as (e1 & E1 & Q1).
    destruct (IH (step a s)) as (e2 & E2 & Q2).
    exists (e1 ++ e2). split; [|by apply Happ].
    by rewrite E2, E1, app_assoc.
Qed.

Lemma foldl_preserved (R : St -> St -> Prop) :
  (forall s, R s s) -> (forall a b c, R a b -> R b c -> R a c) ->
  (forall i s, R s (step i s)) ->
  forall (l : list nat) (s : St), R s (foldl (λ s i, step i s) s l).
Proof.
  intros Hrefl Htrans Hstep l. induction l as [|a l IH]; intros s; cbn [foldl].
  - apply Hrefl.
  - eapply Htrans; [apply Hstep|apply IH].
Qed.

End LogFolds.

Lemma insert_as_alter {A} (g : A -> A) (l : list A) (i : nat) (x : A) :
  l !! i = Some x -> <[i := g x]> l = alter g i l.
Proof.
  intros Hx. apply list_eq. intros j. destruct (decide (i = j)) as [->|Hne].
  - rewrite list_lookup_alter_eq, Hx.
    apply list_lookup_insert_eq. by eapply lookup_lt_Some.
  - by rewrite list_lookup_insert_ne, list_lookup_alter_ne.
Qed.

Lemma alter_fixed {A} (g : A -> A) (l : list A) (i : nat) :
  (forall x, l !! i = Some x -> g x = x) -> alter g i l = l.
Proof.
  intros Hg. apply list_eq. intros j. destruct (decide (i = j)) as [->|Hne].
  - rewrite list_lookup_alter_eq. destruct (l !! j) eqn:E; [|done].
    simpl. by rewrite Hg.
  - by rewrite list_lookup_alter_ne.
Qed.

Section BodyFacts.
Context {W : Type} `{TileWorld W}.

#[local] Abbreviation TQ := (TransferQueue W).

Lemma sameControl_refl (q : TQ) : sameControl q q.
Proof. by repeat split. Qed.

Lemma sameControl_trans (q1 q2 q3 : TQ) :
  sameControl q1 q2 -> sameControl q2 q3 -> sameControl q1 q3.
Proof. unfold sameControl. intros ? ?. intuition congruence. Qed.

Lemma newCalls_app (q q' : TQ) (evs : list Event) :
  calls q' = calls q ++ evs -> newCalls q q' = evs.
Proof. intros E. unfold newCalls. by rewrite E, drop_app_length. Qed.

Lemma cleanupBody_ring (i : nat) (q : TQ) :
  m_transferQueue (cleanupBody i q) = alter resolveDiscard i (m_transferQueue q).
Proof.
  unfold cleanupBody. destruct (m_transferQueue q !! i) as [d|] eqn:Hd.
  - destruct (status d) eqn:Hs.
    1,2: symmetry; apply alter_fixed; intros x Hx;
      unfold resolveDiscard; replace x with d by congruence; by rewrite Hs.
    rewrite <- (insert_as_alter resolveDiscard _ _ d) by done.
    unfold resolveDiscard. rewrite Hs.
    destruct d as [st tp xp [] bm ir pc], tp, xp; simpl; try done;
      by case_match.
  - symmetry. apply alter_fixed. intros x Hx. congruence.
Qed.

Lemma cleanupBody_calls (i : nat) (q : TQ) :
  calls (cleanupBody i q)
  = calls q ++ cleanupEvents i (tiles q) (m_transferQueue q !! i).
Proof.
  unfold cleanupBody, cleanupEvents, stillOwned, resolveDiscard.
  destruct (m_transferQueue q !! i) as [d|]; [|by rewrite app_nil_r].
  destruct d as [[] tp xp [] bm ir pc], tp, xp; simpl;
    rewrite <- ?app_assoc, ?app_nil_r; try done;
    case_match; simpl; by rewrite <- ?app_assoc.
Qed.

Lemma cleanupBody_control (i : nat) (q : TQ) : sameControl q (cleanupBody i q).
Proof.
  unfold cleanupBody.
  destruct (m_transferQueue q !! i) as [d|]; [|apply sameControl_refl].
  destruct d as [[] tp xp [] bm ir pc], tp, xp; simpl;
    try (by repeat split); case_match; by repeat split.
Qed.

Lemma blitBody_ring (i : nat) (st : bool * TQ) :
  m_transferQueue (snd (blitBody i st))
  = alter releaseBlit i (m_transferQueue (snd st)).
Proof.
  destruct st as [u q]. change (snd (u, q)) with q. unfold blitBody.
  destruct (m_transferQueue q !! i) as [d|] eqn:Hd.
  - destruct (status d) eqn:Hs.
    1,3: change (snd (u, q)) with q; symmetry; apply alter_fixed; intros x Hx;
      unfold releaseBlit; replace x with d by congruence; by rewrite Hs.
    rewrite <- (insert_as_alter releaseBlit _ _ d) by done.
    unfold releaseBlit. rewrite Hs.
    destruct (checkObsolete (tiles q) d).
    + by destruct (uploadType d).
    + destruct (savedTilePtr d ≫= backTexture (tiles q));
        destruct (uploadType d), u; done.
  - change (snd (u, q)) with q. symmetry. apply alter_fixed. intros x Hx.
    congruence.
Qed.

Lemma blitBody_calls (i : nat) (st : bool * TQ) :
  calls (snd (blitBody i st))
  = calls (snd st)
    ++ blitEvents i (fst st) (tiles (snd st)) (m_transferQueue (snd st) !! i).
Proof.
  destruct st as [u q]. change (snd (u, q)) with q. change (fst (u, q)) with u.
  unfold blitBody, blitEvents, releaseBlit.
  destruct (m_transferQueue q !! i) as [d|]; [|by rewrite app_nil_r].
  destruct (status d); try by rewrite app_nil_r.
  destruct (checkObsolete (tiles q) d).
  - destruct (uploadType d); simpl; by rewrite <- ?app_assoc.
  - destruct (savedTilePtr d ≫= backTexture (tiles q));
      destruct (uploadType d), u; simpl; by rewrite <- ?app_assoc.
Qed.

Lemma blitBody_control (i : nat) (st : bool * TQ) :
  sameControl (snd st) (snd (blitBody i st)).
Proof.
  destruct st as [u q]. change (snd (u, q)) with q. unfold blitBody.
  destruct (m_transferQueue q !! i) as [d|]; [|apply sameControl_refl].
  destruct (status d); try apply sameControl_refl.
  destruct (checkObsolete (tiles q) d).
  - destruct (uploadType d); by repeat split.
  - destruct (savedTilePtr d ≫= backTexture (tiles q));
      destruct (uploadType d), u; by repeat split.
Qed.

Lemma cleanupLoop_fold (n i : nat) (q : TQ) :
  cleanupLoop n i q
  = foldl (λ q i, cleanupBody i q) q (walkFrom n i (m_transferQueueSize q)).
Proof.
  revert i q. induction n as [|n IH]; intros i q; [done|].
  cbn [cleanupLoop walkFrom foldl]. rewrite IH.
  by destruct (cleanupBody_control i q) as [-> _].
Qed.

Lemma blitLoop_fold (k i : nat) (st : bool * TQ) :
  blitLoop k i st
  = foldl (λ st i, blitBody i st) st
      (walkFrom k i (m_transferQueueSize (snd st))).
Proof.
  revert i st. induction k as [|k IH]; intros i st; [done|].
  cbn [blitLoop walkFrom foldl]. rewrite IH.
  by destruct (blitBody_control i st) as [-> _].
Qed.

(** The positions of a full pass starting after the write index. *)
Lemma walk_full (q : TQ) :
  wf q ->
  NoDup (walkFrom (m_transferQueueSize q) (getNextTransferQueueIndex q)
           (m_transferQueueSize q))
  /\ (forall j,
        j ∈ walkFrom (m_transferQueueSize q) (getNextTransferQueueIndex q)
              (m_transferQueueSize q)
        <-> j < length (m_transferQueue q)).
Proof.
  intros (Hpos & Hlen & Hidx).
  assert (getNextTransferQueueIndex q < m_transferQueueSize q) as Hn
    by (apply Nat.mod_upper_bound; lia).
  split.
  - by apply walkFrom_NoDup.
  - intros j. rewrite Hlen. by apply walkFrom_elem.
Qed.

Lemma cleanupPendingDiscard_ring (q : TQ) :
  wf q ->
  m_transferQueue (cleanupPendingDiscard q)
  = resolveDiscard <$> m_transferQueue q.
Proof.
  intros Hwf. destruct (walk_full q Hwf) as [Hnd Hall].
  unfold cleanupPendingDiscard. rewrite cleanupLoop_fold.
  by apply (foldl_step_all (λ i q, cleanupBody i q) m_transferQueue
              resolveDiscard cleanupBody_ring).
Qed.

Lemma cleanupPendingDiscard_control (q : TQ) :
  sameControl q (cleanupPendingDiscard q).
Proof.
  unfold cleanupPendingDiscard. rewrite cleanupLoop_fold.
  apply (foldl_preserved (λ i q, cleanupBody i q) sameControl).
  - apply sameControl_refl.
  - apply sameControl_trans.
  - intros i s. apply cleanupBody_control.
Qed.

Lemma blitLoop_ring (q : TQ) (u : bool) :
  wf q ->
  m_transferQueue
    (snd (blitLoop (m_transferQueueSize q) (getNextTransferQueueIndex q) (u, q)))
  = releaseBlit <$> m_transferQueue q.
Proof.
  intros Hwf. destruct (walk_full q Hwf) as [Hnd Hall].
  rewrite blitLoop_fold. change (snd (u, q)) with q.
  by apply (foldl_step_all (λ i st, blitBody i st) (λ st, m_transferQueue (snd st))
              releaseBlit blitBody_ring _ (u, q)).
Qed.

Lemma blitLoop_control (k i : nat) (st : bool * TQ) :
  sameControl (snd st) (snd (blitLoop k i st)).
Proof.
  rewrite blitLoop_fold.
  apply (foldl_preserved (λ i st, blitBody i st)
           (λ a b, sameControl (snd a) (snd b))).
  - intros s. apply sameControl_refl.
  - intros a b c. apply sameControl_trans.
  - intros j s. apply blitBody_control.
Qed.

Lemma pureColorBody_frame (i : nat) (d : TileTransferData) (q : TQ) :
  m_transferQueue (pureColorBody i d q) = m_transferQueue q
  /\ sameControl q (pureColorBody i d q)
  /\ exists evs, calls (pureColorBody i d q) = calls q ++ evs
       /\ Forall (λ e, isSideEvent e = true) evs.
Proof.
  unfold pureColorBody.
  assert (m_transferQueue q = m_transferQueue q /\ sameControl q q
          /\ exists evs, calls q = calls q ++ evs
               /\ Forall (λ e, isSideEvent e = true) evs) as Hsame.
  { split; [done|]. split; [apply sameControl_refl|].
    exists []. by rewrite app_nil_r. }
  destruct (status d); try done.
  destruct (checkObsolete (tiles q) d); [done|].
  destruct (savedTilePtr d ≫= backTexture (tiles q)) as [x|]; [|done].
  split; [done|]. split; [by repeat split|].
  eexists [_; _]. cbn. rewrite <- app_assoc. split; [done|].
  by repeat constructor.
Qed.

Lemma pureColorLoop_frame (l : list TileTransferData) (i : nat) (q : TQ) :
  m_transferQueue (pureColorLoop i l q) = m_transferQueue q
  /\ sameControl q (pureColorLoop i l q)
  /\ exists evs, calls (pureColorLoop i l q) = calls q ++ evs
       /\ Forall (λ e, isSideEvent e = true) evs.
Proof.
  revert i q. induction l as [|d l IH]; intros i q; cbn [pureColorLoop].
  - split; [done|]. split; [apply sameControl_refl|].
    exists []. by rewrite app_nil_r.
  - destruct (pureColorBody_frame i d q) as (R1 & C1 & e1 & E1 & F1).
    destruct (IH (S i) (pureColorBody i d q)) as (R2 & C2 & e2 & E2 & F2).
    split; [congruence|]. split; [by eapply sameControl_trans|].
    exists (e1 ++ e2). split; [by rewrite E2, E1, app_assoc|].
    by apply Forall_app.
Qed.

Lemma updatePureColorTiles_frame (q : TQ) :
  m_transferQueue (updatePureColorTiles q) = m_transferQueue q
  /\ m_transferQueueSize (updatePureColorTiles q) = m_transferQueueSize q
  /\ m_transferQueueIndex (updatePureColorTiles q) = m_transferQueueIndex q
  /\ m_emptyItemCount (updatePureColorTiles q) = m_emptyItemCount q
  /\ m_hasGLContext (updatePureColorTiles q) = m_hasGLContext q
  /\ m_currentUploadType (updatePureColorTiles q) = m_currentUploadType q
  /\ m_pureColorTileQueue (updatePureColorTiles q) = []
  /\ exists evs, calls (updatePureColorTiles q) = calls q ++ evs
       /\ Forall (λ e, isSideEvent e = true) evs.
Proof.
  unfold updatePureColorTiles. cbn.
  destruct (pureColorLoop_frame (m_pureColorTileQueue q) 0 q)
    as (R & (S1 & S2 & S3 & S4 & S5 & S6 & S7 & S8) & E).
  by repeat split.
Qed.

Lemma afterDiscards_frame (q : TQ) :
  m_transferQueue (afterDiscards q) = m_transferQueue (cleanupPendingDiscard q)
  /\ m_transferQueueSize (afterDiscards q) = m_transferQueueSize q
  /\ m_transferQueueIndex (afterDiscards q) = m_transferQueueIndex q
  /\ m_emptyItemCount (afterDiscards q) = m_emptyItemCount q
  /\ m_hasGLContext (afterDiscards q) = true
  /\ m_currentUploadType (afterDiscards q) = m_currentUploadType q
  /\ m_pureColorTileQueue (afterDiscards q) = m_pureColorTileQueue q
  /\ calls (afterDiscards q) = calls (cleanupPendingDiscard q)
  /\ tiles (afterDiscards q) = tiles (cleanupPendingDiscard q).
Proof.
  unfold afterDiscards, getHasGLContext.
  destruct (cleanupPendingDiscard_control q)
    as (S1 & S2 & S3 & S4 & S5 & S6 & S7 & S8).
  destruct (m_hasGLContext (cleanupPendingDiscard q)) eqn:Hgl; cbn;
    by repeat split.
Qed.

Lemma afterPureColor_frame (q : TQ) :
  m_transferQueue (afterPureColor q) = m_transferQueue (cleanupPendingDiscard q)
  /\ m_transferQueueSize (afterPureColor q) = m_transferQueueSize q
  /\ m_transferQueueIndex (afterPureColor q) = m_transferQueueIndex q
  /\ m_hasGLContext (afterPureColor q) = true
  /\ m_currentUploadType (afterPureColor q) = m_currentUploadType q
  /\ m_pureColorTileQueue (afterPureColor q) = [].
Proof.
  unfold afterPureColor.
  destruct (updatePureColorTiles_frame (afterDiscards q))
    as (P1 & P2 & P3 & P4 & P5 & P6 & P7 & _).
  destruct (afterDiscards_frame q) as (D1 & D2 & D3 & D4 & D5 & D6 & D7 & _).
  repeat split; congruence.
Qed.

Lemma afterRingWalk_frame (q : TQ) :
  m_transferQueueSize (snd (afterRingWalk q)) = m_transferQueueSize q
  /\ m_transferQueueIndex (snd (afterRingWalk q)) = m_transferQueueIndex q
  /\ m_hasGLContext (snd (afterRingWalk q)) = true
  /\ m_currentUploadType (snd (afterRingWalk q)) = m_currentUploadType q
  /\ m_pureColorTileQueue (snd (afterRingWalk q)) = [].
Proof.
  unfold afterRingWalk.
  match goal with |- context [blitLoop ?n ?i ?st] =>
    destruct (blitLoop_control n i st) as (S1 & S2 & S3 & S4 & S5 & S6 & S7 & S8)
  end.
  cbn [snd] in *.
  destruct (afterPureColor_frame q) as (P1 & P2 & P3 & P4 & P5 & P6).
  repeat split; congruence.
Qed.

Lemma updateDirtyTiles_stages (q : TQ) :
  updateDirtyTiles q
  = emit EvSignal
      (set_emptyItemCount (Z.of_nat (m_transferQueueSize q))
         (if fst (afterRingWalk q)
          then emit EvRestoreGLState (snd (afterRingWalk q))
          else snd (afterRingWalk q))).
Proof.
  destruct (afterRingWalk_frame q) as [Hsz _]. revert Hsz.
  unfold updateDirtyTiles, afterRingWalk, afterPureColor, afterDiscards.
  match goal with |- context [blitLoop ?n ?i ?st] =>
    destruct (blitLoop n i st) as [u q3] end.
  cbn [fst snd]. intros Hsz.
  destruct u; cbn; by rewrite Hsz.
Qed.

Lemma status_releaseBlit_resolveDiscard (d : TileTransferData) :
  status (releaseBlit (resolveDiscard d)) = emptyItem.
Proof. unfold releaseBlit, resolveDiscard. by destruct d as [[] ? ? ? ? ? ?]. Qed.

Lemma wf_intro (q q' : TQ) :
  wf q ->
  m_transferQueueSize q' = m_transferQueueSize q ->
  m_transferQueueIndex q' = m_transferQueueIndex q ->
  length (m_transferQueue q') = length (m_transferQueue q) ->
  wf q'.
Proof. unfold wf. intros (? & ? & ?) -> -> ->. done. Qed.

Lemma afterPureColor_wf (q : TQ) : wf q -> wf (afterPureColor q).
Proof.
  intros Hwf. destruct (afterPureColor_frame q) as (R & S1 & S2 & _).
  apply (wf_intro q); try done.
  by rewrite R, cleanupPendingDiscard_ring, length_fmap.
Qed.

Lemma afterRingWalk_ring (q : TQ) :
  wf q ->
  m_transferQueue (snd (afterRingWalk q))
  = releaseBlit <$> (resolveDiscard <$> m_transferQueue q).
Proof.
  intros Hwf. unfold afterRingWalk.
  rewrite blitLoop_ring by by apply afterPureColor_wf.
  destruct (afterPureColor_frame q) as (-> & _).
  by rewrite cleanupPendingDiscard_ring.
Qed.

(** What a drain leaves behind. *)
Lemma updateDirtyTiles_result (q : TQ) :
  wf q ->
  m_transferQueue (updateDirtyTiles q)
  = releaseBlit <$> (resolveDiscard <$> m_transferQueue q)
  /\ m_transferQueueSize (updateDirtyTiles q) = m_transferQueueSize q
  /\ m_transferQueueIndex (updateDirtyTiles q) = m_transferQueueIndex q
  /\ m_emptyItemCount (updateDirtyTiles q) = Z.of_nat (m_transferQueueSize q)
  /\ m_hasGLContext (updateDirtyTiles q) = true
  /\ m_currentUploadType (updateDirtyTiles q) = m_currentUploadType q
  /\ m_pureColorTileQueue (updateDirtyTiles q) = [].
Proof.
  intros Hwf. rewrite updateDirtyTiles_stages.
  pose proof (afterRingWalk_ring q Hwf) as R.
  destruct (afterRingWalk_frame q) as (S1 & S2 & S3 & S4 & S5).
  destruct (fst (afterRingWalk q)); cbn; by repeat split.
Qed.

Lemma updateDirtyTiles_wf (q : TQ) : wf q -> wf (updateDirtyTiles q).
Proof.
  intros Hwf. destruct (updateDirtyTiles_result q Hwf) as (R & S1 & S2 & _).
  apply (wf_intro q); try done. by rewrite R, !length_fmap.
Qed.

Lemma updateDirtyTiles_all_empty (q : TQ) :
  wf q ->
  Forall (λ d, status d = emptyItem) (m_transferQueue (updateDirtyTiles q)).
Proof.
  intros Hwf. destruct (updateDirtyTiles_result q Hwf) as (-> & _).
  rewrite <- list_fmap_compose. apply Forall_fmap, Forall_forall.
  intros d _. apply status_releaseBlit_resolveDiscard.
Qed.

(** On a ring without pending slots the loops do nothing. *)
Lemma cleanupLoop_idle (n i : nat) (q : TQ) :
  Forall (λ d, status d = emptyItem) (m_transferQueue q) ->
  cleanupLoop n i q = q.
Proof.
  intros Hall. revert i. induction n as [|n IH]; intros i; [done|].
  cbn [cleanupLoop].
  assert (cleanupBody i q = q) as ->; [|apply IH].
  unfold cleanupBody. destruct (m_transferQueue q !! i) as [d|] eqn:Hd; [|done].
  rewrite Forall_lookup in Hall. by rewrite (Hall i d Hd).
Qed.

Lemma blitLoop_idle (k i : nat) (u : bool) (q : TQ) :
  Forall (λ d, status d = emptyItem) (m_transferQueue q) ->
  blitLoop k i (u, q) = (u, q).
Proof.
  intros Hall. revert i. induction k as [|k IH]; intros i; [done|].
  cbn [blitLoop].
  assert (blitBody i (u, q) = (u, q)) as ->; [|apply IH].
  unfold blitBody. destruct (m_transferQueue q !! i) as [d|] eqn:Hd; [|done].
  rewrite Forall_lookup in Hall. by rewrite (Hall i d Hd).
Qed.

Lemma updateDirtyTiles_idle (q : TQ) :
  Forall (λ d, status d = emptyItem) (m_transferQueue q) ->
  m_pureColorTileQueue q = [] ->
  calls (updateDirtyTiles q) = calls q ++ [EvSignal]
  /\ tiles (updateDirtyTiles q) = tiles q
  /\ m_transferQueue (updateDirtyTiles q) = m_transferQueue q.
Proof.
  intros Hall Hside. unfold updateDirtyTiles, cleanupPendingDiscard.
  rewrite cleanupLoop_idle by done.
  unfold updatePureColorTiles, getHasGLContext.
  destruct (m_hasGLContext q); cbn; rewrite Hside; cbn;
    by rewrite blitLoop_idle.
Qed.

Lemma countEvents_app (p : Event -> bool) (a b : list Event) :
  countEvents p (a ++ b) = countEvents p a + countEvents p b.
Proof. unfold countEvents. by rewrite List.filter_app, length_app. Qed.

Lemma countEvents_none (p : Event -> bool) (evs : list Event) :
  Forall (λ e, p e = false) evs -> countEvents p evs = 0.
Proof.
  unfold countEvents. induction 1 as [|e evs He _ IH]; [done|].
  cbn. by rewrite He.
Qed.

Lemma countEvents_newCalls (p : Event -> bool) (q q' : TQ) (evs : list Event) :
  calls q' = calls q ++ evs ->
  countEvents p (calls q') = countEvents p (calls q) + countEvents p (newCalls q q').
Proof.
  intros E. rewrite (newCalls_app _ _ _ E), E. apply countEvents_app.
Qed.

(** What the two ring loops log, for any property closed under
    concatenation. *)
Lemma cleanupLoop_log (Q : list Event -> Prop) (n i : nat) (q : TQ) :
  Q [] -> (forall a b, Q a -> Q b -> Q (a ++ b)) ->
  (forall i w slot, Q (cleanupEvents i w slot)) ->
  exists evs, calls (cleanupLoop n i q) = calls q ++ evs /\ Q evs.
Proof.
  intros Hnil Happ Hstep. rewrite cleanupLoop_fold.
  apply (foldl_log_closed (λ i q, cleanupBody i q) calls Q Hnil Happ).
  intros j s. eexists. split; [apply cleanupBody_calls|apply Hstep].
Qed.

Lemma blitLoop_log (Q : list Event -> Prop) (k i : nat) (st : bool * TQ) :
  Q [] -> (forall a b, Q a -> Q b -> Q (a ++ b)) ->
  (forall i u w slot, Q (blitEvents i u w slot)) ->
  exists evs, calls (snd (blitLoop k i st)) = calls (snd st) ++ evs /\ Q evs.
Proof.
  intros Hnil Happ Hstep. rewrite blitLoop_fold.
  apply (foldl_log_closed (λ i st, blitBody i st) (λ st, calls (snd st)) Q
           Hnil Happ).
  intros j s. eexists. split; [apply blitBody_calls|apply Hstep].
Qed.

Lemma countEvents_reads_one (i j : nat) :
  countEvents (isUpdateTexImageAt j) [EvUpdateTexImage i]
  = if decide (i = j) then 1 else 0.
Proof.
  unfold countEvents. cbn. case_bool_decide; case_decide; done.
Qed.

Lemma cleanupEvents_reads (i j : nat) (w : W) (slot : option TileTransferData) :
  countEvents (isUpdateTexImageAt j) (cleanupEvents i w slot)
  = if decide (i = j) then from_option discardReads 0 slot else 0.
Proof.
  unfold cleanupEvents, discardReads.
  destruct slot as [d|]; [|by case_decide]. cbn [from_option].
  destruct (status d); try by case_decide.
  rewrite !countEvents_app.
  replace (countEvents (isUpdateTexImageAt j)
             match stillOwned w d with
             | Some tile => [EvDiscardBackTexture i tile]
             | None => []
             end) with 0 by by destruct (stillOwned w d).
  destruct (uploadType d).
  - by case_decide.
  - rewrite countEvents_reads_one. by case_decide.
Qed.

Lemma blitEvents_reads (i j : nat) (u : bool) (w : W)
    (slot : option TileTransferData) :
  countEvents (isUpdateTexImageAt j) (blitEvents i u w slot)
  = if decide (i = j) then from_option blitReads 0 slot else 0.
Proof.
  unfold blitEvents, blitReads.
  destruct slot as [d|]; [|by case_decide]. cbn [from_option].
  destruct (status d); try by case_decide.
  rewrite !countEvents_app.
  match goal with |- _ + (_ + countEvents _ ?rest) = _ =>
    replace (countEvents (isUpdateTexImageAt j) rest) with 0 end.
  - destruct (uploadType d).
    + by case_decide.
    + rewrite countEvents_reads_one. by case_decide.
  - destruct (checkObsolete w d); [done|].
    destruct (savedTilePtr d ≫= backTexture w); [|done].
    by destruct (uploadType d), u.
Qed.

(** [updateTexImage] calls made for position [j] by discard resolution. *)
Lemma cleanupPendingDiscard_reads (q : TQ) (j : nat) :
  wf q ->
  countEvents (isUpdateTexImageAt j) (calls (cleanupPendingDiscard q))
  = countEvents (isUpdateTexImageAt j) (calls q)
    + from_option discardReads 0 (m_transferQueue q !! j).
Proof.
  intros Hwf. destruct (walk_full q Hwf) as [Hnd Hall].
  unfold cleanupPendingDiscard. rewrite cleanupLoop_fold.
  rewrite (foldl_step_count (λ i q, cleanupBody i q) m_transferQueue
             resolveDiscard cleanupBody_ring
             (λ q, countEvents (isUpdateTexImageAt j) (calls q))
             discardReads j); [|..|done].
  - case_decide as Hj; [done|]. rewrite Hall in Hj.
    by rewrite lookup_ge_None_2 by lia.
  - intros i s. by rewrite cleanupBody_calls, countEvents_app,
      cleanupEvents_reads.
Qed.

(** [updateTexImage] calls made for position [j] by the ring walk. *)
Lemma blitLoop_reads (q : TQ) (u : bool) (j : nat) :
  wf q ->
  countEvents (isUpdateTexImageAt j)
    (calls (snd (blitLoop (m_transferQueueSize q)
                   (getNextTransferQueueIndex q) (u, q))))
  = countEvents (isUpdateTexImageAt j) (calls q)
    + from_option blitReads 0 (m_transferQueue q !! j).
Proof.
  intros Hwf. destruct (walk_full q Hwf) as [Hnd Hall].
  rewrite blitLoop_fold. change (snd (u, q)) with q.
  rewrite (foldl_step_count (λ i st, blitBody i st)
             (λ st, m_transferQueue (snd st))
             releaseBlit blitBody_ring
             (λ st, countEvents (isUpdateTexImageAt j) (calls (snd st)))
             blitReads j); [|..|done].
  - cbn [snd]. case_decide as Hj; [done|]. rewrite Hall in Hj.
    by rewrite lookup_ge_None_2 by lia.
  - intros i s. by rewrite blitBody_calls, countEvents_app,
      blitEvents_reads.
Qed.

Lemma extends_newCalls (Q : list Event -> Prop) (q q' : TQ) :
  (exists evs, calls q' = calls q ++ evs /\ Q evs) ->
  calls q' = calls q ++ newCalls q q' /\ Q (newCalls q q').
Proof. intros (evs & E & HQ). by rewrite (newCalls_app _ _ _ E). Qed.

Lemma cleanupPendingDiscard_newCalls (Q : list Event -> Prop) (q : TQ) :
  Q [] -> (forall a b, Q a -> Q b -> Q (a ++ b)) ->
  (forall i w slot, Q (cleanupEvents i w slot)) ->
  calls (cleanupPendingDiscard q)
  = calls q ++ newCalls q (cleanupPendingDiscard q)
  /\ Q (newCalls q (cleanupPendingDiscard q)).
Proof.
  intros Hnil Happ Hstep. apply extends_newCalls.
  by apply cleanupLoop_log.
Qed.

Lemma afterPureColor_newCalls (q : TQ) :
  calls (afterPureColor q)
  = calls (afterDiscards q) ++ newCalls (afterDiscards q) (afterPureColor q)
  /\ Forall (λ e, isSideEvent e = true)
       (newCalls (afterDiscards q) (afterPureColor q)).
Proof.
  apply extends_newCalls. unfold afterPureColor.
  by destruct (updatePureColorTiles_frame (afterDiscards q))
    as (_ & _ & _ & _ & _ & _ & _ & E).
Qed.

Lemma afterRingWalk_newCalls (Q : list Event -> Prop) (q : TQ) :
  Q [] -> (forall a b, Q a -> Q b -> Q (a ++ b)) ->
  (forall i u w slot, Q (blitEvents i u w slot)) ->
  calls (snd (afterRingWalk q))
  = calls (afterPureColor q)
    ++ newCalls (afterPureColor q) (snd (afterRingWalk q))
  /\ Q (newCalls (afterPureColor q) (snd (afterRingWalk q))).
Proof.
  intros Hnil Happ Hstep. apply extends_newCalls. unfold afterRingWalk.
  match goal with |- context [blitLoop ?n ?i ?st] =>
    apply (blitLoop_log Q n i st Hnil Happ Hstep) end.
Qed.

(** The log of a drain cycle, stage by stage. *)
Lemma updateDirtyTiles_log (q : TQ) :
  newCalls q (updateDirtyTiles q)
  = newCalls q (cleanupPendingDiscard q)
    ++ newCalls (afterDiscards q) (afterPureColor q)
    ++ newCalls (afterPureColor q) (snd (afterRingWalk q))
    ++ (if fst (afterRingWalk q) then [EvRestoreGLState] else [])
    ++ [EvSignal].
Proof.
  apply newCalls_app. rewrite updateDirtyTiles_stages.
  destruct (cleanupPendingDiscard_newCalls (λ _, True) q) as [E1 _]; try done.
  destruct (afterPureColor_newCalls q) as [E2 _].
  destruct (afterRingWalk_newCalls (λ _, True) q) as [E3 _]; try done.
  destruct (afterDiscards_frame q) as (_ & _ & _ & _ & _ & _ & _ & E0 & _).
  rewrite E0, E1 in E2. rewrite E2 in E3.
  destruct (fst (afterRingWalk q)); unfold emit, set_emptyItemCount;
    cbn [calls]; rewrite E3; by rewrite <- ?app_assoc.
Qed.






(** Ordering of slot release and GPU writes in the log. *)
Lemma emptiedFirst_app (a b : list Event) :
  emptiedFirst a -> emptiedFirst b -> emptiedFirst (a ++ b).
Proof.
  intros Ha Hb n e j Hn Hw. apply lookup_app_Some in Hn as [Hn|[Hlen Hn]].
  - destruct (Ha n e j Hn Hw) as (m & d & Hm & Hd & Hs).
    exists m, d. split; [done|]. split; [|done].
    by apply lookup_app_l_Some.
  - destruct (Hb _ e j Hn Hw) as (m & d & Hm & Hd & Hs).
    exists (length a + m), d. split; [lia|]. split; [|done].
    rewrite lookup_app_r by lia. by replace (length a + m - length a) with m by lia.
Qed.

Lemma emptiedFirst_quiet (evs : list Event) :
  Forall (λ e, forall j, isGpuWriteAt j e = false) evs -> emptiedFirst evs.
Proof.
  intros Hq n e j Hn Hw. rewrite Forall_lookup in Hq.
  specialize (Hq n e Hn j). congruence.
Qed.

Lemma emptiedFirst_slot (pre rest : list Event) (i : nat) (d : TileTransferData) :
  Forall (λ e, forall j, isGpuWriteAt j e = false) pre ->
  status d = emptyItem -> savedTilePtr d = None ->
  Forall (λ e, forall j, isGpuWriteAt j e = true -> j = i) rest ->
  emptiedFirst (pre ++ EvSlotEmptied i d :: rest).
Proof.
  intros Hpre Hs Ht Hrest n e j Hn Hw.
  apply lookup_app_Some in Hn as [Hn|[Hlen Hn]].
  - rewrite Forall_lookup in Hpre. specialize (Hpre n e Hn j). congruence.
  - destruct (n - length pre) as [|k] eqn:Hk; cbn in Hn.
    + injection Hn as <-. done.
    + rewrite Forall_lookup in Hrest. rewrite (Hrest k e Hn j Hw).
      exists (length pre), d. split; [lia|]. split; [|done].
      rewrite lookup_app_r by lia. by rewrite Nat.sub_diag.
Qed.

Lemma cleanupEvents_quiet (i : nat) (w : W) (slot : option TileTransferData) :
  Forall (λ e, forall j, isGpuWriteAt j e = false) (cleanupEvents i w slot).
Proof.
  unfold cleanupEvents. destruct slot as [d|]; [|done].
  destruct (status d); try done.
  destruct (uploadType d), (stillOwned w d); by repeat constructor.
Qed.

Lemma blitEvents_emptiedFirst (i : nat) (u : bool) (w : W)
    (slot : option TileTransferData) :
  emptiedFirst (blitEvents i u w slot).
Proof.
  unfold blitEvents. destruct slot as [d|]; [|by apply emptiedFirst_quiet].
  destruct (status d) eqn:Hs; try by apply emptiedFirst_quiet.
  apply emptiedFirst_slot.
  - by destruct (uploadType d); repeat constructor.
  - unfold releaseBlit. by rewrite Hs.
  - unfold releaseBlit. by rewrite Hs.
  - destruct (checkObsolete w d); [done|].
    destruct (savedTilePtr d ≫= backTexture w) as [x|]; [|done].
    destruct (uploadType d), u; repeat constructor;
      intros j; cbn; try done; by intros ->%bool_decide_eq_true.
Qed.

(** One more iteration of discard resolution: it runs the body at the next
    position of the walk, whose slot no earlier iteration has touched. *)
Lemma cleanupLoop_next (k : nat) (q : TQ) :
  wf q -> k < m_transferQueueSize q ->
  let i := (getNextTransferQueueIndex q + k) mod m_transferQueueSize q in
  let s := cleanupLoop k (getNextTransferQueueIndex q) q in
  m_transferQueue s !! i = m_transferQueue q !! i
  /\ cleanupLoop (S k) (getNextTransferQueueIndex q) q = cleanupBody i s.
Proof.
  intros (Hpos & Hlen & Hidx) Hk i s.
  assert (getNextTransferQueueIndex q < m_transferQueueSize q) as Hn
    by (apply Nat.mod_upper_bound; lia).
  split.
  - unfold s. rewrite cleanupLoop_fold.
    apply (foldl_step_untouched (λ i q, cleanupBody i q) m_transferQueue
             resolveDiscard cleanupBody_ring).
    by apply walkFrom_fresh.
  - unfold s. rewrite !cleanupLoop_fold, walkFrom_snoc by done.
    by rewrite foldl_app.
Qed.

Lemma bind_nil_forall {A B} (g : A -> list B) (l : list A) :
  (forall x, x ∈ l -> g x = []) -> l ≫= g = [].
Proof.
  induction l as [|x l IH]; intros Hg; [done|].
  rewrite bind_cons, Hg by apply list_elem_of_here.
  apply IH. intros y Hy. apply Hg. by apply list_elem_of_further.
Qed.

Lemma bind_singleton_forall {A B} (g : A -> list B) (h : A -> B) (l : list A) :
  (forall x, x ∈ l -> g x = [h x]) -> l ≫= g = h <$> l.
Proof.
  induction l as [|x l IH]; intros Hg; [done|].
  rewrite bind_cons, Hg by apply list_elem_of_here.
  rewrite fmap_cons. cbn. f_equal.
  apply IH. intros y Hy. apply Hg. by apply list_elem_of_further.
Qed.

Lemma emptiedSlots_app (a b : list Event) :
  emptiedSlots (a ++ b) = emptiedSlots a ++ emptiedSlots b.
Proof. unfold emptiedSlots. apply omap_app. Qed.

Lemma blitEvents_emptied (i : nat) (u : bool) (w : W)
    (slot : option TileTransferData) :
  emptiedSlots (blitEvents i u w slot) = blitTargets i slot.
Proof.
  unfold blitEvents, blitTargets. destruct slot as [d|]; [|done].
  destruct (status d); try done.
  destruct (checkObsolete w d).
  - by destruct (uploadType d).
  - destruct (savedTilePtr d ≫= backTexture w); by destruct (uploadType d), u.
Qed.

(** The slots the ring walk empties, in order. *)
Lemma blitLoop_emptied (q : TQ) (u : bool) :
  wf q ->
  emptiedSlots (calls (snd (blitLoop (m_transferQueueSize q)
                              (getNextTransferQueueIndex q) (u, q))))
  = emptiedSlots (calls q)
    ++ (walkFrom (m_transferQueueSize q) (getNextTransferQueueIndex q)
          (m_transferQueueSize q)
        ≫= λ i, blitTargets i (m_transferQueue q !! i)).
Proof.
  intros Hwf. destruct (walk_full q Hwf) as [Hnd Hall].
  rewrite blitLoop_fold. change (snd (u, q)) with q.
  rewrite (foldl_step_bind (λ i st, blitBody i st)
             (λ st, m_transferQueue (snd st)) releaseBlit blitBody_ring
             (λ st, emptiedSlots (calls (snd st))) blitTargets); [done| |done].
  intros i s. by rewrite blitBody_calls, emptiedSlots_app, blitEvents_emptied.
Qed.

Lemma afterRingWalk_emptied (q : TQ) :
  wf q ->
  emptiedSlots (newCalls (afterPureColor q) (snd (afterRingWalk q)))
  = walkFrom (m_transferQueueSize q) (getNextTransferQueueIndex q)
      (m_transferQueueSize q)
    ≫= λ i, blitTargets i (m_transferQueue q !! i).
Proof.
  intros Hwf.
  destruct (afterRingWalk_newCalls (λ _, True) q) as [E _]; try done.
  pose proof (f_equal emptiedSlots E) as E'.
  rewrite emptiedSlots_app in E'. unfold afterRingWalk in E' at 1.
  rewrite blitLoop_emptied in E' by by apply afterPureColor_wf.
  apply app_inv_head in E'. rewrite <- E'.
  destruct (afterPureColor_frame q) as (R & S1 & S2 & _).
  unfold getNextTransferQueueIndex. rewrite S1, S2, R.
  rewrite cleanupPendingDiscard_ring by done.
  apply list_bind_ext; [|done]. intros i.
  rewrite list_lookup_fmap. destruct (m_transferQueue q !! i) as [d|]; [|done].
  unfold blitTargets, resolveDiscard. cbn. by destruct d as [[] ? ? ? ? ? ?].
Qed.

Lemma markDiscard_alter (i : nat) (ring : list TileTransferData) :
  markDiscard i ring = alter toDiscard i ring.
Proof.
  unfold markDiscard. destruct (ring !! i) as [d|] eqn:Hd.
  - destruct (status d) eqn:Hs.
    1,3: symmetry; apply alter_fixed; intros x Hx;
      unfold toDiscard; replace x with d by congruence; by rewrite Hs.
    rewrite <- (insert_as_alter toDiscard _ _ d) by done.
    unfold toDiscard. by rewrite Hs.
  - symmetry. apply alter_fixed. intros x Hx. congruence.
Qed.

Lemma markDiscardLoop_fold (n i : nat) (ring : list TileTransferData) :
  markDiscardLoop n i ring = foldl (λ r j, markDiscard j r) ring (seq i n).
Proof.
  revert i ring. induction n as [|n IH]; intros i ring; [done|].
  cbn [markDiscardLoop seq foldl]. apply IH.
Qed.

Lemma markDiscardLoop_all (ring : list TileTransferData) :
  markDiscardLoop (length ring) 0 ring = toDiscard <$> ring.
Proof.
  rewrite markDiscardLoop_fold.
  apply (foldl_step_all (λ j r, markDiscard j r) id toDiscard markDiscard_alter).
  - apply NoDup_seq.
  - intros j. rewrite elem_of_seq. unfold id. lia.
Qed.

Lemma setPendingDiscard_frame (q : TQ) :
  length (m_transferQueue q) = m_transferQueueSize q ->
  m_transferQueue (setPendingDiscard q) = toDiscard <$> m_transferQueue q
  /\ m_transferQueueSize (setPendingDiscard q) = m_transferQueueSize q
  /\ m_transferQueueIndex (setPendingDiscard q) = m_transferQueueIndex q
  /\ m_emptyItemCount (setPendingDiscard q) = m_emptyItemCount q
  /\ m_hasGLContext (setPendingDiscard q) = false
  /\ m_currentUploadType (setPendingDiscard q) = m_currentUploadType q
  /\ m_pureColorTileQueue (setPendingDiscard q) = []
  /\ tiles (setPendingDiscard q) = tiles q.
Proof.
  intros Hlen. unfold setPendingDiscard, getHasGLContext. cbn.
  rewrite <- Hlen, markDiscardLoop_all.
  by destruct (m_hasGLContext q).
Qed.

Lemma addItemInTransferQueue_effect (renderInfo : TileRenderInfo)
    (type : TextureUploadType) (bmp : option SkBitmap) (q : TQ) :
  wf q ->
  exists old data,
    m_transferQueue q !! getNextTransferQueueIndex q = Some old
    /\ m_transferQueue (addItemInTransferQueue renderInfo type bmp q)
       = <[getNextTransferQueueIndex q := data]> (m_transferQueue q)
    /\ status data = pendingBlit
    /\ savedTilePtr data = baseTile renderInfo
    /\ uploadType data = type
    /\ m_transferQueueSize (addItemInTransferQueue renderInfo type bmp q)
       = m_transferQueueSize q
    /\ m_transferQueueIndex (addItemInTransferQueue renderInfo type bmp q)
       = getNextTransferQueueIndex q
    /\ m_emptyItemCount (addItemInTransferQueue renderInfo type bmp q)
       = (m_emptyItemCount q - 1)%Z.
Proof.
  intros (Hpos & Hlen & Hidx).
  assert (getNextTransferQueueIndex q < length (m_transferQueue q)) as Hnext
    by (rewrite Hlen; apply Nat.mod_upper_bound; lia).
  destruct (lookup_lt_is_Some_2 _ _ Hnext) as [old Hold].
  exists old. unfold addItemInTransferQueue. cbn.
  unfold getNextTransferQueueIndex in Hold. rewrite Hold. cbn.
  eexists. split; [done|]. split; [done|].
  by destruct type, bmp.
Qed.

(** The operations keep the ring well formed. *)
Lemma runOp_wf (o : Op) (q : TQ) : wf q -> wf (runOp o q).
Proof.
  intros Hwf. destruct o as [ri ty bmp| | |]; cbn [runOp].
  - destruct (addItemInTransferQueue_effect ri ty bmp q Hwf)
      as (old & data & _ & R & _ & _ & _ & S1 & S2 & _).
    destruct Hwf as (Hpos & Hlen & Hidx). unfold wf.
    rewrite S1, S2, R, length_insert. repeat split; try done.
    apply Nat.mod_upper_bound. lia.
  - by apply updateDirtyTiles_wf.
  - destruct (setPendingDiscard_frame q) as (R & S1 & S2 & _);
      [by destruct Hwf as (_ & ? & _)|].
    apply (wf_intro q); try done. by rewrite R, length_fmap.
  - destruct (cleanupPendingDiscard_control q) as (S1 & S2 & _).
    apply (wf_intro q); try done.
    by rewrite cleanupPendingDiscard_ring, length_fmap.
Qed.





(** While the context is not live no update request succeeds, and no
    request other than a drain makes it live. *)
Lemma serve_no_context (r : Request) (q : TQ) :
  m_hasGLContext q = false ->
  fst (serve r q) <> Some true /\ m_hasGLContext (snd (serve r q)) = false.
Proof.
  intros Hgl. destruct r as [others ok ri bmp|ri| | |b|ty|]; cbn [serve].
  - unfold updateQueueWithBitmap, tryUpdateQueueWithBitmap, readyForUpdate,
      getHasGLContext.
    rewrite Hgl. cbn. by destruct (baseTile ri).
  - done.
  - unfold setPendingDiscardWithLock, setPendingDiscard, getHasGLContext.
    cbn. rewrite Hgl. done.
  - unfold emptyQueue. cbn [fst snd]. split; [done|].
    destruct (cleanupPendingDiscard_control (setPendingDiscard q))
      as (_ & _ & _ & -> & _).
    unfold setPendingDiscard, getHasGLContext. cbn. by rewrite Hgl.
  - unfold interruptTransferQueue. cbn. by destruct b.
  - unfold setTextureUploadType. case_bool_decide; [done|].
    unfold setPendingDiscard, getHasGLContext. cbn. by rewrite Hgl.
  - done.
Qed.

Lemma serveAll_no_context (rs : list Request) (q : TQ) :
  m_hasGLContext q = false ->
  Forall (λ res, res <> Some true) (fst (serveAll rs q))
  /\ m_hasGLContext (snd (serveAll rs q)) = false.
Proof.
  revert q. induction rs as [|r rs IH]; intros q Hgl; cbn [serveAll].
  - by split.
  - destruct (serve_no_context r q Hgl) as [Hr Hgl'].
    destruct (serve r q) as [res q']. cbn [fst snd] in *.
    destruct (IH q' Hgl') as [Hrs Hgl''].
    destruct (serveAll rs q') as [ress q'']. cbn [fst snd] in *.
    split; [by constructor|done].
Qed.

(** The ring after the requests [rs] have been enqueued in turn: request
    number [a] sits [a + 1] positions after the original write index. *)
Lemma enqueueAll_state (rs : list TileRenderInfo) (type : TextureUploadType)
    (bmp : option SkBitmap) (q0 : TQ) :
  wf q0 -> length rs <= m_transferQueueSize q0 ->
  let q := enqueueAll rs type bmp q0 in
  let N := m_transferQueueSize q0 in
  wf q
  /\ m_transferQueueSize q = N
  /\ m_transferQueueIndex q = (m_transferQueueIndex q0 + length rs) mod N
  /\ (forall a r, rs !! a = Some r ->
        exists d, m_transferQueue q !! ((m_transferQueueIndex q0 + 1 + a) mod N)
                  = Some d
          /\ status d = pendingBlit
          /\ savedTilePtr d = baseTile r)
  /\ (forall j,
        (forall a, a < length rs -> j <> (m_transferQueueIndex q0 + 1 + a) mod N) ->
        m_transferQueue q !! j = m_transferQueue q0 !! j).
Proof.
  intros Hwf0. induction rs as [|r rs IH] using rev_ind; intros Hlen q N.
  - unfold q. cbn. destruct Hwf0 as (Hpos & Hl & Hidx).
    split; [done|]. split; [done|]. split.
    { by rewrite Nat.add_0_r, Nat.mod_small. }
    split; [by intros a r [=]|done].
  - rewrite length_app in Hlen. cbn in Hlen.
    destruct IH as (Hwf & Hsz & Hix & Hin & Hout); [lia|].
    set (p := enqueueAll rs type bmp q0) in *.
    assert (q = addItemInTransferQueue r type bmp p) as Hq
      by (unfold q, p, enqueueAll; by rewrite foldl_app).
    destruct (addItemInTransferQueue_effect r type bmp p Hwf)
      as (old & data & Hold & R & Hst & Htile & _ & S1 & S2 & _).
    rewrite <- Hq in R, S1, S2. subst N.
    set (N := m_transferQueueSize q0) in *.
    assert (0 < N) as HN by (destruct Hwf0; done).
    assert (getNextTransferQueueIndex p
            = (m_transferQueueIndex q0 + 1 + length rs) mod N) as Hnext.
    { unfold getNextTransferQueueIndex. rewrite Hsz, Hix.
      rewrite Nat.Div0.add_mod_idemp_l. f_equal. lia. }
    assert (getNextTransferQueueIndex p < N) as Hlt
      by (rewrite Hnext; apply Nat.mod_upper_bound; lia).
    assert (forall a, a < length rs ->
              (m_transferQueueIndex q0 + 1 + a) mod N
              <> getNextTransferQueueIndex p) as Hfresh.
    { intros a Ha E. rewrite Hnext in E. apply mod_shift_inj in E; lia. }
    split; [|split; [congruence|split; [|split]]].
    + destruct Hwf as (_ & Hl & _). unfold wf.
      rewrite S1, S2, R, length_insert, Hl, Hsz. done.
    + rewrite S2, Hnext, length_app. cbn. f_equal. lia.
    + intros a r' Ha. apply lookup_app_Some in Ha as [Ha|[Hge Ha]].
      * destruct (Hin a r' Ha) as (d & Hd & Hs & Ht).
        exists d. split; [|done]. rewrite R, list_lookup_insert_ne; [done|].
        intros E. eapply Hfresh; [|by symmetry]. by eapply lookup_lt_Some.
      * destruct (a - length rs) as [|k] eqn:Hk; [|done].
        cbn in Ha. injection Ha as <-.
        replace a with (length rs) by lia. rewrite <- Hnext.
        exists data. split; [|done]. rewrite R.
        apply list_lookup_insert_eq. by eapply lookup_lt_Some.
    + intros j Hj. rewrite R, list_lookup_insert_ne.
      * apply Hout. intros a Ha. apply Hj. rewrite length_app. cbn. lia.
      * rewrite Hnext. intros E. eapply (Hj (length rs)); [|by symmetry].
        rewrite length_app. cbn. lia.
Qed.

Lemma arrive_effect (a : Arrival) (q : TQ) :
  wf q ->
  exists old data,
    m_transferQueue q !! getNextTransferQueueIndex q = Some old
    /\ m_transferQueue (arrive a q)
       = <[getNextTransferQueueIndex q := data]> (m_transferQueue q)
    /\ status data = pendingBlit
    /\ savedTilePtr data = baseTile (a_request a)
    /\ m_transferQueueSize (arrive a q) = m_transferQueueSize q
    /\ m_transferQueueIndex (arrive a q) = getNextTransferQueueIndex q.
Proof.
  intros Hwf.
  destruct (addItemInTransferQueue_effect (a_request a) (a_type a) (a_bitmap a)
              (set_tiles (a_world a) q) Hwf)
    as (old & data & Hold & R & Hst & Htile & _ & S1 & S2 & _).
  by exists old, data.
Qed.

(** The ring after the arrivals [l]: arrival [a] sits [a + 1] positions
    after the old write index, whatever the tiles did in between. *)
Lemma arriveAll_state (l : list Arrival) (q0 : TQ) :
  wf q0 -> length l <= m_transferQueueSize q0 ->
  let q := arriveAll l q0 in
  let N := m_transferQueueSize q0 in
  wf q
  /\ m_transferQueueSize q = N
  /\ m_transferQueueIndex q = (m_transferQueueIndex q0 + length l) mod N
  /\ (forall a x, l !! a = Some x ->
        exists d, m_transferQueue q !! ((m_transferQueueIndex q0 + 1 + a) mod N)
                  = Some d
          /\ status d = pendingBlit
          /\ savedTilePtr d = baseTile (a_request x))
  /\ (forall j,
        (forall a, a < length l -> j <> (m_transferQueueIndex q0 + 1 + a) mod N) ->
        m_transferQueue q !! j = m_transferQueue q0 !! j).
Proof.
  intros Hwf0. induction l as [|x l IH] using rev_ind; intros Hlen q N.
  - unfold q. cbn. destruct Hwf0 as (Hpos & Hl & Hidx).
    split; [done|]. split; [done|]. split.
    { by rewrite Nat.add_0_r, Nat.mod_small. }
    split; [by intros a r [=]|done].
  - rewrite length_app in Hlen. cbn in Hlen.
    destruct IH as (Hwf & Hsz & Hix & Hin & Hout); [lia|].
    set (p := arriveAll l q0) in *.
    assert (q = arrive x p) as Hq
      by (unfold q, p, arriveAll; by rewrite foldl_app).
    destruct (arrive_effect x p Hwf)
      as (old & data & Hold & R & Hst & Htile & S1 & S2).
    rewrite <- Hq in R, S1, S2. subst N.
    set (N := m_transferQueueSize q0) in *.
    assert (0 < N) as HN by (destruct Hwf0; done).
    assert (getNextTransferQueueIndex p
            = (m_transferQueueIndex q0 + 1 + length l) mod N) as Hnext.
    { unfold getNextTransferQueueIndex. rewrite Hsz, Hix.
      rewrite Nat.Div0.add_mod_idemp_l. f_equal. lia. }
    assert (forall a, a < length l ->
              (m_transferQueueIndex q0 + 1 + a) mod N
              <> getNextTransferQueueIndex p) as Hfresh.
    { intros a Ha E. rewrite Hnext in E. apply mod_shift_inj in E; lia. }
    split; [|split; [congruence|split; [|split]]].
    + destruct Hwf as (_ & Hl & _). unfold wf.
      rewrite S1, S2, R, length_insert, Hl, Hsz.
      repeat split; [done|]. rewrite Hnext. apply Nat.mod_upper_bound. lia.
    + rewrite S2, Hnext, length_app. cbn. f_equal. lia.
    + intros a x' Ha. apply lookup_app_Some in Ha as [Ha|[Hge Ha]].
      * destruct (Hin a x' Ha) as (d & Hd & Hs & Ht).
        exists d. split; [|done]. rewrite R, list_lookup_insert_ne; [done|].
        intros E. eapply Hfresh; [|by symmetry]. by eapply lookup_lt_Some.
      * destruct (a - length l) as [|k] eqn:Hk; [|done].
        cbn in Ha. injection Ha as <-.
        replace a with (length l) by lia. rewrite <- Hnext.
        exists data. split; [|done]. rewrite R.
        apply list_lookup_insert_eq. by eapply lookup_lt_Some.
    + intros j Hj. rewrite R, list_lookup_insert_ne.
      * apply Hout. intros a Ha. apply Hj. rewrite length_app. cbn. lia.
      * rewrite Hnext. intros E. eapply (Hj (length l)); [|by symmetry].
        rewrite length_app. cbn. lia.
Qed.

(** The PendingUpload slots met by a walk that starts after the write index
    are then the slots written, in the order of arrival. *)
Lemma arriveAll_walk_targets (l : list Arrival) (q0 : TQ) :
  wf q0 ->
  Forall (λ d, status d <> pendingBlit) (m_transferQueue q0) ->
  length l <= m_transferQueueSize q0 ->
  let q := arriveAll l q0 in
  let N := m_transferQueueSize q0 in
  walkFrom (m_transferQueueSize q) (getNextTransferQueueIndex q)
    (m_transferQueueSize q)
  ≫= (λ i, blitTargets i (m_transferQueue q !! i))
  = (λ a, (m_transferQueueIndex q0 + 1 + a) mod N) <$> seq 0 (length l).
Proof.
  intros Hwf0 Hempty Hlen q N.
  destruct (arriveAll_state l q0 Hwf0 Hlen) as (Hwf & Hsz & Hix & Hin & Hout).
  fold q N in Hwf, Hsz, Hix, Hin, Hout.
  assert (0 < N) as HN by (destruct Hwf0; done).
  set (i0 := m_transferQueueIndex q0) in *. set (p := length l) in *.
  assert (getNextTransferQueueIndex q = (i0 + p + 1) mod N) as Hnext.
  { unfold getNextTransferQueueIndex. rewrite Hsz, Hix.
    by rewrite Nat.Div0.add_mod_idemp_l. }
  rewrite Hsz, Hnext, walkFrom_map by (apply Nat.mod_upper_bound; lia).
  change map with (@fmap list _). rewrite list_fmap_bind.
  assert (seq 0 N = seq 0 (N - p) ++ seq (N - p) p) as ->
    by (rewrite <- seq_app; f_equal; lia).
  rewrite bind_app.
  rewrite bind_nil_forall, app_nil_l.
  - rewrite (bind_singleton_forall _
               (λ k, ((i0 + p + 1) mod N + k) mod N)).
    + replace (seq (N - p) p) with (Nat.add (N - p) <$> seq 0 p)
        by (rewrite fmap_add_seq; f_equal; lia).
      rewrite <- list_fmap_compose.
      apply list_fmap_ext. intros _ a _. cbn.
      rewrite Nat.Div0.add_mod_idemp_l.
      replace (i0 + p + 1 + (N - p + a)) with (i0 + 1 + a + 1 * N) by lia.
      by rewrite Nat.Div0.mod_add.
    + intros k Hk%elem_of_seq. cbn.
      rewrite Nat.Div0.add_mod_idemp_l.
      replace (i0 + p + 1 + k) with (i0 + 1 + (k - (N - p)) + 1 * N) by lia.
      rewrite Nat.Div0.mod_add.
      destruct (lookup_lt_is_Some_2 l (k - (N - p))) as [x Hx];
        [fold p; lia|].
      destruct (Hin _ x Hx) as (d & -> & Hs & _).
      unfold blitTargets. by rewrite Hs.
  - intros k Hk%elem_of_seq. cbn.
    rewrite Nat.Div0.add_mod_idemp_l. rewrite Hout.
    + destruct (m_transferQueue q0 !! _) as [d|] eqn:Hd; [|done].
      rewrite Forall_lookup in Hempty. specialize (Hempty _ d Hd).
      unfold blitTargets. destruct (status d); congruence.
    + intros a Ha E.
      replace (i0 + p + 1 + k) with (i0 + 1 + (p + k)) in E by lia.
      apply mod_shift_inj in E; lia.
Qed.

Lemma cleanupLoop_none_pending (n i : nat) (q : TQ) :
  Forall (λ d, status d <> pendingDiscard) (m_transferQueue q) ->
  cleanupLoop n i q = q.
Proof.
  intros Hall. revert i. induction n as [|n IH]; intros i; [done|].
  cbn [cleanupLoop].
  assert (cleanupBody i q = q) as ->; [|apply IH].
  unfold cleanupBody. destruct (m_transferQueue q !! i) as [d|] eqn:Hd; [|done].
  rewrite Forall_lookup in Hall. specialize (Hall i d Hd).
  destruct (status d); congruence.
Qed.

Lemma cleanupEvents_ring (i : nat) (w : W) (slot : option TileTransferData) :
  Forall (λ e, isRingEvent e = true) (cleanupEvents i w slot).
Proof.
  unfold cleanupEvents. destruct slot as [d|]; [|done].
  destruct (status d); try done.
  destruct (uploadType d), (stillOwned w d); by repeat constructor.
Qed.

Lemma blitEvents_ring (i : nat) (u : bool) (w : W)
    (slot : option TileTransferData) :
  Forall (λ e, isRingEvent e = true) (blitEvents i u w slot).
Proof.
  unfold blitEvents. destruct slot as [d|]; [|done].
  destruct (status d); try done.
  destruct (checkObsolete w d).
  - destruct (uploadType d); by repeat constructor.
  - destruct (savedTilePtr d ≫= backTexture w);
      destruct (uploadType d), u; by repeat constructor.
Qed.

Lemma walk_explicit (q : TQ) :
  wf q ->
  walkFrom (m_transferQueueSize q) (getNextTransferQueueIndex q)
    (m_transferQueueSize q)
  = (λ k, (m_transferQueueIndex q + 1 + k) mod m_transferQueueSize q)
    <$> seq 0 (m_transferQueueSize q).
Proof.
  intros (Hpos & _ & _).
  rewrite walkFrom_map by (apply Nat.mod_upper_bound; lia).
  apply list_fmap_ext. intros _ k _. unfold getNextTransferQueueIndex.
  by rewrite Nat.Div0.add_mod_idemp_l.
Qed.

(** The log of a drain from the point where discard resolution has run. *)
Lemma updateDirtyTiles_log_after (q : TQ) :
  newCalls (afterDiscards q) (updateDirtyTiles q)
  = newCalls (afterDiscards q) (afterPureColor q)
    ++ newCalls (afterPureColor q) (snd (afterRingWalk q))
    ++ (if fst (afterRingWalk q) then [EvRestoreGLState] else [])
    ++ [EvSignal].
Proof.
  apply newCalls_app. rewrite updateDirtyTiles_stages.
  destruct (afterPureColor_newCalls q) as [E2 _].
  destruct (afterRingWalk_newCalls (λ _, True) q) as [E3 _]; try done.
  rewrite E2 in E3.
  destruct (fst (afterRingWalk q)); unfold emit, set_emptyItemCount;
    cbn [calls]; rewrite E3; by rewrite <- ?app_assoc.
Qed.

(** Pure-colour entries followed by entries none of which is one. *)
Lemma sideFirst_split (a b : list Event) :
  Forall (λ e, isSideEvent e = true) a ->
  Forall (λ e, isSideEvent e = false) b ->
  sideFirst (a ++ b).
Proof.
  intros Ha Hb m n e1 e2 H1 H2 Hring Hside.
  assert (n < length a) as Hn.
  { destruct (decide (n < length a)) as [?|Hge]; [done|exfalso].
    rewrite lookup_app_r in H2 by lia.
    rewrite Forall_lookup in Hb. specialize (Hb _ _ H2). congruence. }
  assert (length a <= m); [|lia].
  destruct (decide (length a <= m)) as [?|Hlt]; [done|exfalso].
  rewrite lookup_app_l in H1 by lia.
  rewrite Forall_lookup in Ha. specialize (Ha _ _ H1).
  destruct e1 as [| | | | | | | | | |[]| | | |]; done.
Qed.

End BodyFacts.

(** * Properties of the queue *)

Section Claims.
Context {W : Type} `{TileWorld W}.

#[local] Abbreviation TQ := (TransferQueue W).

(** C1, as amended.  [checkObsolete] returns true exactly when the slot's
    destination reference is null, or the destination's current back texture
    is null, or that back texture differs from the slot's expected texture
    reference; it returns false exactly when the destination is non-null and
    its back texture is non-null and equal to the expected one. *)
Theorem checkObsolete_iff (w : W) (data : TileTransferData) :
  (checkObsolete w data = true <->
   savedTilePtr data = None
   \/ exists tile, savedTilePtr data = Some tile
        /\ (backTexture w tile = None
            \/ backTexture w tile <> savedTileTexturePtr data))
  /\ (checkObsolete w data = false <->
      exists tile texture, savedTilePtr data = Some tile
        /\ backTexture w tile = Some texture
        /\ savedTileTexturePtr data = Some texture).
Proof.
  unfold checkObsolete, ptr_eqb.
  destruct (savedTilePtr data) as [tile|].
  - destruct (backTexture w tile) as [texture|] eqn:Hb; cbn.
    + case_bool_decide as Heq; cbn.
      * split; split; try done.
        -- intros [?|(t & [= <-] & [?|?])]; congruence.
        -- intros _. exists tile, texture. by rewrite Hb.
      * split; split; try done.
        -- intros _. right. exists tile. split; [done|]. right. congruence.
        -- intros (t & x & [= <-] & ? & ?). congruence.
    + split; split; try done.
      * intros _. right. exists tile. split; [done|]. left. done.
      * intros (t & x & [= <-] & ? & ?). congruence.
  - split; split; try done.
    + intros _. by left.
    + intros (t & x & ? & _). done.
Qed.

(** C6.  One call of [setPendingDiscard] turns every PendingUpload ring slot
    into PendingDiscard and leaves every other slot (Empty ones in
    particular) as it is, empties the pure-colour queue, marks the context
    not live, and signals the condition once if the context was live before
    the call and not at all otherwise. *)
Theorem setPendingDiscard_effect (q : TQ) :
  length (m_transferQueue q) = m_transferQueueSize q ->
  let q' := setPendingDiscard q in
  m_transferQueue q' = toDiscard <$> m_transferQueue q
  /\ (forall i d, m_transferQueue q !! i = Some d ->
        exists d', m_transferQueue q' !! i = Some d'
          /\ (status d = pendingBlit ->
              d' = mkData pendingDiscard (savedTilePtr d)
                     (savedTileTexturePtr d) (uploadType d) (bitmap d)
                     (invalRect d) (pureColor d))
          /\ (status d <> pendingBlit -> d' = d))
  /\ m_pureColorTileQueue q' = []
  /\ m_hasGLContext q' = false
  /\ calls q' = calls q ++ (if m_hasGLContext q then [EvSignal] else [])
  /\ countEvents (λ e, match e with EvSignal => true | _ => false end)
       (newCalls q q')
     = (if m_hasGLContext q then 1 else 0).
Proof.
  intros Hlen q'.
  assert (m_transferQueue q' = toDiscard <$> m_transferQueue q) as Hring.
  { unfold q', setPendingDiscard, getHasGLContext. cbn.
    rewrite <- Hlen, markDiscardLoop_all. by destruct (m_hasGLContext q). }
  assert (calls q' = calls q ++ (if m_hasGLContext q then [EvSignal] else []))
    as Hcalls.
  { unfold q', setPendingDiscard, getHasGLContext. cbn.
    destruct (m_hasGLContext q); cbn; [done|by rewrite app_nil_r]. }
  split; [done|]. split; [|split; [|split; [|split; [done|]]]].
  - intros i d Hd. exists (toDiscard d). split.
    + by rewrite Hring, list_lookup_fmap, Hd.
    + unfold toDiscard. split.
      * by intros ->.
      * by destruct (status d).
  - unfold q', setPendingDiscard, getHasGLContext. cbn.
    by destruct (m_hasGLContext q).
  - unfold q', setPendingDiscard, getHasGLContext. cbn.
    by destruct (m_hasGLContext q).
  - rewrite (newCalls_app _ _ _ Hcalls). by destruct (m_hasGLContext q).
Qed.

(** C2, as amended.  [readyForUpdate] returns true only when, at the moment
    of return, the GPU context is live, and either the empty-slot count was
    nonzero at the call, in which case the queue is returned as it was (so
    the count is nonzero at return), or the caller waited once on the
    condition and the interruption flag is clear at return (the count is not
    read again after the wait).  Whenever it returns false,
    [tryUpdateQueueWithBitmap] returns false with the queue exactly as
    [readyForUpdate] left it: no slot populated, no index or count change. *)
Theorem readyForUpdate_gate (others : TQ -> TQ) (q : TQ) :
  let r := readyForUpdate others q in
  (fst r = true ->
     m_hasGLContext (snd r) = true
     /\ ((m_emptyItemCount q <> 0%Z /\ snd r = q)
         \/ (m_emptyItemCount q = 0%Z
             /\ snd r = others (emit EvWait q)
             /\ m_interruptedByRemovingOp (snd r) = false)))
  /\ (fst r = false ->
      (snd r = q \/ snd r = others (emit EvWait q))
      /\ forall writeOk renderInfo bmp,
           tryUpdateQueueWithBitmap others writeOk renderInfo bmp q
           = (false, snd r)).
Proof.
  unfold tryUpdateQueueWithBitmap, readyForUpdate, getHasGLContext.
  assert (forall q' : TQ,
    (q' = q \/ q' = others (emit EvWait q)) ->
    (false = true -> m_hasGLContext q' = true
       /\ ((m_emptyItemCount q <> 0%Z /\ q' = q)
           \/ (m_emptyItemCount q = 0%Z /\ q' = others (emit EvWait q)
               /\ m_interruptedByRemovingOp q' = false)))
    /\ (false = false ->
        (q' = q \/ q' = others (emit EvWait q))
        /\ (bool -> TileRenderInfo -> SkBitmap -> (false, q') = (false, q'))))
    as Hno by (intros q' Hq'; split; [done|]; intros _; by split).
  destruct (m_hasGLContext q) eqn:Hgl; cbn; [|apply Hno; by left].
  destruct (Z.eqb_spec (m_emptyItemCount q) 0) as [Hz|Hnz].
  - destruct (m_interruptedByRemovingOp q) eqn:Hint; cbn;
      [apply Hno; by left|].
    destruct (m_interruptedByRemovingOp (others (emit EvWait q))) eqn:Hint';
      cbn; [apply Hno; by right|].
    destruct (m_hasGLContext (others (emit EvWait q))) eqn:Hgl'; cbn;
      [|apply Hno; by right].
    split; [|done]. intros _. split; [done|]. right. done.
  - split; [|done]. intros _. split; [done|]. by left.
Qed.

(** C5.  [tryUpdateQueueWithBitmap] returns false without enqueuing (write
    index, slots and empty-slot count as [readyForUpdate] left them, which is
    as they were at the call unless other threads ran during its wait) when
    readiness was denied, when the window handle is absent under GpuUpload,
    or when the pixel write into the shared surface failed; otherwise it
    returns true and has enqueued exactly one slot: the write index is
    advanced by one modulo the ring size, the slot at the new index is
    populated as PendingUpload for the request, no other slot changes, and
    the count drops by one. *)
Theorem tryUpdateQueueWithBitmap_outcome (others : TQ -> TQ) (writeOk : bool)
    (renderInfo : TileRenderInfo) (bmp : SkBitmap) (q : TQ) :
  let ready := fst (readyForUpdate others q) in
  let q0 := snd (readyForUpdate others q) in
  let r := tryUpdateQueueWithBitmap others writeOk renderInfo bmp q in
  wf q0 ->
  (q0 = q \/ q0 = others (emit EvWait q))
  /\ if negb ready
        || (bool_decide (m_currentUploadType q0 = GpuUpload)
            && (negb (m_ANW q0) || negb writeOk))
     then fst r = false
          /\ m_transferQueueIndex (snd r) = m_transferQueueIndex q0
          /\ m_transferQueue (snd r) = m_transferQueue q0
          /\ m_emptyItemCount (snd r) = m_emptyItemCount q0
     else fst r = true
          /\ m_transferQueueIndex (snd r)
             = (m_transferQueueIndex q0 + 1) mod m_transferQueueSize q0
          /\ m_emptyItemCount (snd r) = (m_emptyItemCount q0 - 1)%Z
          /\ m_transferQueueIndex (snd r) < length (m_transferQueue q0)
          /\ exists data,
               m_transferQueue (snd r)
               = <[m_transferQueueIndex (snd r) := data]> (m_transferQueue q0)
               /\ status data = pendingBlit
               /\ savedTilePtr data = baseTile renderInfo
               /\ savedTileTexturePtr data
                  = baseTile renderInfo ≫= backTexture (tiles q0)
               /\ uploadType data = m_currentUploadType q0.
Proof.
  intros ready q0 r (Hpos & Hlen & Hidx).
  split.
  { unfold q0, readyForUpdate, getHasGLContext.
    repeat case_match; cbn; auto. }
  unfold r, tryUpdateQueueWithBitmap.
  fold ready q0. destruct (readyForUpdate others q) as [rd q1] eqn:Hr.
  cbn in ready, q0. subst ready q0.
  destruct rd; cbn [negb orb]; [|done].
  assert ((m_transferQueueIndex q1 + 1) mod m_transferQueueSize q1
          < length (m_transferQueue q1)) as Hnext
    by (rewrite Hlen; apply Nat.mod_upper_bound; lia).
  destruct (lookup_lt_is_Some_2 _ _ Hnext) as [d Hd].
  destruct (m_currentUploadType q1) eqn:Hty; cbn.
  - unfold addItemInTransferQueue. cbn. rewrite Hd. cbn.
    repeat split; try done. eexists. split; [done|]. by repeat split.
  - destruct (m_ANW q1); cbn; [|done].
    destruct writeOk; cbn; [|done].
    unfold addItemInTransferQueue. cbn. rewrite Hd. cbn.
    repeat split; try done. eexists. split; [done|]. by repeat split.
Qed.

(** C10.  After a drain cycle, as long as nothing touches the ring or the
    pure-colour queue (the tiles, the flags and the log may change), a
    second drain cycle logs the condition signal and nothing else: no
    [updateTexImage], no bitmap upload, no blit, no GL state save or
    restore, no destination marked transfer-complete; it calls no
    collaborator and leaves the ring as it is. *)
Theorem second_drain_idle (q q1 : TQ) :
  wf q ->
  m_transferQueue q1 = m_transferQueue (updateDirtyTiles q) ->
  m_pureColorTileQueue q1 = m_pureColorTileQueue (updateDirtyTiles q) ->
  newCalls q1 (updateDirtyTiles q1) = [EvSignal]
  /\ tiles (updateDirtyTiles q1) = tiles q1
  /\ m_transferQueue (updateDirtyTiles q1) = m_transferQueue q1.
Proof.
  intros Hwf Hring Hside.
  destruct (updateDirtyTiles_result q Hwf) as (_ & _ & _ & _ & _ & _ & Hs).
  destruct (updateDirtyTiles_idle q1) as (Hc & Ht & Hr).
  - rewrite Hring. by apply updateDirtyTiles_all_empty.
  - congruence.
  - split; [|done]. by apply newCalls_app.
Qed.

(** C4.  In one drain cycle (discard resolution included) [updateTexImage]
    is called exactly once at every ring slot whose upload kind is GpuUpload
    and whose status is PendingUpload or PendingDiscard, whatever the state
    of its destination, and never at a slot whose upload kind is CpuUpload
    or that is Empty; discard resolution on its own calls it exactly once at
    every PendingDiscard GpuUpload slot and nowhere else. *)
Theorem updateTexImage_once_per_slot (q : TQ) (j : nat) :
  wf q ->
  countEvents (isUpdateTexImageAt j) (newCalls q (updateDirtyTiles q))
  = match m_transferQueue q !! j with
    | Some d =>
        match uploadType d, status d with
        | GpuUpload, (pendingBlit | pendingDiscard) => 1
        | _, _ => 0
        end
    | None => 0
    end
  /\ countEvents (isUpdateTexImageAt j) (newCalls q (cleanupPendingDiscard q))
     = match m_transferQueue q !! j with
       | Some d =>
           match uploadType d, status d with
           | GpuUpload, pendingDiscard => 1
           | _, _ => 0
           end
       | None => 0
       end.
Proof.
  intros Hwf.
  assert (countEvents (isUpdateTexImageAt j)
            (newCalls q (cleanupPendingDiscard q))
          = from_option discardReads 0 (m_transferQueue q !! j)) as Hd.
  { destruct (cleanupPendingDiscard_newCalls (λ _, True) q) as [E _];
      try done.
    pose proof (countEvents_newCalls (isUpdateTexImageAt j) _ _ _ E) as Hc.
    rewrite cleanupPendingDiscard_reads in Hc by done. lia. }
  assert (countEvents (isUpdateTexImageAt j)
            (newCalls (afterPureColor q) (snd (afterRingWalk q)))
          = from_option blitReads 0
              ((resolveDiscard <$> m_transferQueue q) !! j)) as Hb.
  { destruct (afterRingWalk_newCalls (λ _, True) q) as [E _]; try done.
    pose proof (countEvents_newCalls (isUpdateTexImageAt j) _ _ _ E) as Hc.
    unfold afterRingWalk in Hc at 1.
    rewrite blitLoop_reads in Hc by by apply afterPureColor_wf.
    destruct (afterPureColor_frame q) as (R & _). rewrite R in Hc.
    rewrite cleanupPendingDiscard_ring in Hc by done. lia. }
  split.
  - rewrite updateDirtyTiles_log, !countEvents_app, Hd, Hb.
    destruct (afterPureColor_newCalls q) as [_ Hside].
    rewrite (countEvents_none _ (newCalls (afterDiscards q) (afterPureColor q))).
    2:{ eapply Forall_impl; [exact Hside|]. by intros []. }
    rewrite list_lookup_fmap.
    replace (countEvents (isUpdateTexImageAt j)
               (if fst (afterRingWalk q) then [EvRestoreGLState] else []))
      with 0 by by destruct (fst (afterRingWalk q)).
    destruct (m_transferQueue q !! j) as [d|]; [|done].
    unfold discardReads, blitReads, resolveDiscard. cbn.
    by destruct d as [[] ? ? [] ? ? ?].
  - rewrite Hd. destruct (m_transferQueue q !! j) as [d|]; [|done].
    unfold discardReads. cbn. by destruct d as [[] ? ? [] ? ? ?].
Qed.


(** The order of the ring walk: in the log of a drain cycle every GPU write
    for a ring slot (texture materialization, direct bitmap upload, blit)
    comes after the write that sets the slot's status to Empty and resets
    its destination reference [savedTilePtr] to null. *)
Theorem slot_emptied_before_gpu_write (q : TQ) :
  emptiedFirst (newCalls q (updateDirtyTiles q)).
Proof.
  rewrite updateDirtyTiles_log.
  repeat apply emptiedFirst_app.
  - apply (cleanupPendingDiscard_newCalls emptiedFirst q).
    + by apply emptiedFirst_quiet.
    + apply emptiedFirst_app.
    + intros i w slot. apply emptiedFirst_quiet, cleanupEvents_quiet.
  - apply emptiedFirst_quiet.
    eapply Forall_impl; [apply (afterPureColor_newCalls q)|].
    by intros [].
  - apply (afterRingWalk_newCalls emptiedFirst q).
    + by apply emptiedFirst_quiet.
    + apply emptiedFirst_app.
    + apply blitEvents_emptiedFirst.
  - apply emptiedFirst_quiet.
    destruct (fst (afterRingWalk q)); by repeat constructor.
  - apply emptiedFirst_quiet. by repeat constructor.
Qed.

(** C7, as amended.  A call of [setTextureUploadType] with the current kind
    changes nothing.  A call with a different kind applies the whole of
    [setPendingDiscard] before the default kind is changed: every
    PendingUpload slot becomes PendingDiscard with its own upload kind and
    references untouched, the pure-colour queue is emptied and the context
    is marked not live.  From then on no update request succeeds and the
    context stays not live until a drain, whose discard resolution runs
    first and visits each displaced entry once; there the entry's
    destination receives a discard call if it is still the owner of the
    entry's expected texture, and no call otherwise. *)
Theorem setTextureUploadType_switch (type : TextureUploadType) (q : TQ) :
  wf q ->
  (m_currentUploadType q = type -> setTextureUploadType type q = q)
  /\ (m_currentUploadType q <> type ->
      let q1 := setTextureUploadType type q in
      q1 = set_currentUploadType type (setPendingDiscard q)
      /\ (forall i d, m_transferQueue q !! i = Some d ->
            exists d', m_transferQueue q1 !! i = Some d'
              /\ uploadType d' = uploadType d
              /\ savedTilePtr d' = savedTilePtr d
              /\ savedTileTexturePtr d' = savedTileTexturePtr d
              /\ status d' = match status d with
                             | pendingBlit => pendingDiscard
                             | st => st
                             end)
      /\ m_pureColorTileQueue q1 = []
      /\ m_hasGLContext q1 = false
      /\ m_currentUploadType q1 = type
      /\ (forall rs,
            Forall (λ res, res <> Some true) (fst (serveAll rs q1))
            /\ m_hasGLContext (snd (serveAll rs q1)) = false)
      /\ (forall q2,
            m_transferQueue q2 = m_transferQueue q1 ->
            m_transferQueueSize q2 = m_transferQueueSize q1 ->
            m_transferQueueIndex q2 = m_transferQueueIndex q1 ->
            (exists rest,
               newCalls q2 (updateDirtyTiles q2)
               = newCalls q2 (cleanupLoop (m_transferQueueSize q2)
                                (getNextTransferQueueIndex q2) q2) ++ rest)
            /\ forall k d,
                 k < m_transferQueueSize q2 ->
                 let i := (getNextTransferQueueIndex q2 + k)
                          mod m_transferQueueSize q2 in
                 let s := cleanupLoop k (getNextTransferQueueIndex q2) q2 in
                 m_transferQueue q !! i = Some d -> status d = pendingBlit ->
                 calls (cleanupLoop (S k) (getNextTransferQueueIndex q2) q2)
                 = calls s
                   ++ (match uploadType d with
                       | GpuUpload => [EvUpdateTexImage i]
                       | CpuUpload => []
                       end)
                   ++ (match stillOwned (tiles s) d with
                       | Some tile => [EvDiscardBackTexture i tile]
                       | None => []
                       end)
                   ++ [EvSlotEmptied i (resolveDiscard (toDiscard d))])).
Proof.
  intros Hwf. split.
  { intros Hty. unfold setTextureUploadType. by rewrite bool_decide_eq_true_2. }
  intros Hty q1.
  assert (q1 = set_currentUploadType type (setPendingDiscard q)) as Hq1.
  { unfold q1, setTextureUploadType. by rewrite bool_decide_eq_false_2. }
  destruct (setPendingDiscard_frame q) as (R & S1 & S2 & _ & G & _ & P & _);
    [by destruct Hwf as (_ & ? & _)|].
  assert (m_transferQueue q1 = toDiscard <$> m_transferQueue q) as Hring
    by (rewrite Hq1; exact R).
  assert (m_hasGLContext q1 = false) as Hgl by (rewrite Hq1; exact G).
  split; [done|]. split; [|split; [|split; [done|split; [|split]]]].
  - intros i d Hd. exists (toDiscard d). split.
    + by rewrite Hring, list_lookup_fmap, Hd.
    + unfold toDiscard. by destruct d as [[] ? ? ? ? ? ?].
  - rewrite Hq1. exact P.
  - by rewrite Hq1.
  - intros rs. by apply serveAll_no_context.
  - intros q2 E1 E2 E3.
    assert (wf q2) as Hwf2.
    { apply (wf_intro q); try done.
      - by rewrite E2, Hq1.
      - by rewrite E3, Hq1.
      - by rewrite E1, Hring, length_fmap. }
    split.
    + eexists. apply updateDirtyTiles_log.
    + intros k d Hk i s Hd Hst.
      destruct (cleanupLoop_next k q2 Hwf2 Hk) as [Hslot ->].
      fold i s in Hslot |- *.
      rewrite cleanupBody_calls, Hslot, E1, Hring, list_lookup_fmap, Hd.
      f_equal. unfold cleanupEvents, toDiscard, stillOwned, resolveDiscard.
      destruct d as [st tp xp ut bm ir pc]. cbn in Hst. subst st. done.
Qed.

(** C9.  In every drain cycle, from the point where discard resolution has
    run (line 353, which the drain engine puts before both), the
    pure-colour queue entries are all processed before any ring slot is
    examined: in the log every entry made for the pure-colour queue precedes
    every entry made at a ring slot.  The ring is then walked for exactly N
    iterations starting at the position after the write index, and the
    PendingUpload slots are emptied in that order; whenever the ring is the
    one that up to N arrivals leave on a ring without PendingUpload slots,
    with the tiles free to change their textures between two arrivals and
    before the drain (so entries may be stale) and whatever happened to the
    rest of the queue in between, that is the order of arrival.  The
    pure-colour queue is empty afterwards. *)
Theorem drain_order (q : TQ) :
  wf q ->
  let N := m_transferQueueSize q in
  let L := newCalls (afterDiscards q) (updateDirtyTiles q) in
  let S := newCalls (afterDiscards q) (afterPureColor q) in
  let R := newCalls (afterPureColor q) (snd (afterRingWalk q)) in
  let walk := (λ k, (m_transferQueueIndex q + 1 + k) mod N) <$> seq 0 N in
  newCalls q (updateDirtyTiles q) = newCalls q (cleanupPendingDiscard q) ++ L
  /\ L = S ++ R
          ++ (if fst (afterRingWalk q) then [EvRestoreGLState] else [])
          ++ [EvSignal]
  /\ Forall (λ e, isSideEvent e = true) S
  /\ Forall (λ e, isRingEvent e = true) R
  /\ sideFirst L
  /\ afterRingWalk q
     = foldl (λ st i, blitBody i st) (false, afterPureColor q) walk
  /\ emptiedSlots R = walk ≫= (λ i, blitTargets i (m_transferQueue q !! i))
  /\ (forall q0 arrivals,
        wf q0 ->
        Forall (λ d, status d <> pendingBlit) (m_transferQueue q0) ->
        length arrivals <= m_transferQueueSize q0 ->
        m_transferQueue q = m_transferQueue (arriveAll arrivals q0) ->
        m_transferQueueSize q = m_transferQueueSize (arriveAll arrivals q0) ->
        m_transferQueueIndex q = m_transferQueueIndex (arriveAll arrivals q0) ->
        emptiedSlots R
        = (λ a, (m_transferQueueIndex q0 + 1 + a) mod N)
            <$> seq 0 (length arrivals)
        /\ forall a x, arrivals !! a = Some x ->
             exists d,
               m_transferQueue q !! ((m_transferQueueIndex q0 + 1 + a) mod N)
               = Some d
               /\ status d = pendingBlit
               /\ savedTilePtr d = baseTile (a_request x))
  /\ m_pureColorTileQueue (updateDirtyTiles q) = [].
Proof.
  intros Hwf N L S R walk. subst N L S R walk.
  pose proof (walk_explicit q Hwf) as Hwalk.
  pose proof (afterRingWalk_emptied q Hwf) as Hemptied.
  rewrite Hwalk in Hemptied.
  assert (Forall (λ e, isSideEvent e = true)
            (newCalls (afterDiscards q) (afterPureColor q))) as HS
    by apply afterPureColor_newCalls.
  assert (Forall (λ e, isRingEvent e = true)
            (newCalls (afterPureColor q) (snd (afterRingWalk q)))) as HR.
  { apply (afterRingWalk_newCalls (Forall (λ e, isRingEvent e = true)) q).
    - constructor.
    - intros a b. apply Forall_app_2.
    - apply blitEvents_ring. }
  split; [by rewrite updateDirtyTiles_log, updateDirtyTiles_log_after|].
  split; [apply updateDirtyTiles_log_after|].
  split; [exact HS|]. split; [exact HR|].
  split.
  { rewrite updateDirtyTiles_log_after. apply sideFirst_split; [exact HS|].
    apply Forall_app_2; [|apply Forall_app_2].
    - eapply Forall_impl; [exact HR|].
      intros e He. destruct e as [| | | | | | | | | |[]| | | |]; done.
    - by destruct (fst (afterRingWalk q)); repeat constructor.
    - by repeat constructor. }
  split.
  { unfold afterRingWalk. rewrite blitLoop_fold. cbn [snd].
    destruct (afterPureColor_frame q) as (_ & S1 & S2 & _).
    unfold getNextTransferQueueIndex. rewrite S1, S2.
    fold (getNextTransferQueueIndex q). by rewrite Hwalk. }
  split; [done|].
  split.
  { intros q0 arrivals Hwf0 Hempty Hlen E1 E2 Ei.
    destruct (arriveAll_state arrivals q0 Hwf0 Hlen)
      as (_ & Hsz & _ & Hin & _).
    pose proof (arriveAll_walk_targets arrivals q0 Hwf0 Hempty Hlen)
      as Htargets.
    cbv zeta in Htargets.
    assert (getNextTransferQueueIndex q
            = getNextTransferQueueIndex (arriveAll arrivals q0)) as E3
      by (unfold getNextTransferQueueIndex; by rewrite E2, Ei).
    rewrite <- E1, <- E2, <- E3 in Htargets. rewrite <- E2 in Hsz.
    rewrite <- E1 in Hin. rewrite <- Hsz in Hin, Htargets.
    split; [|exact Hin].
    by rewrite Hemptied, <- Hwalk. }
  by destruct (updateDirtyTiles_result q Hwf) as (_ & _ & _ & _ & _ & _ & ?).
Qed.

End Claims.

(** C1 fails as stated: a tile that holds no back texture when it is
    enqueued leaves a slot whose expected texture reference is null; at drain
    time the two texture references are equal and the destination is
    non-null, yet the slot is judged obsolete. *)
Lemma checkObsolete_null_texture_counterexample :
  let data := addItemCommon bareTiles (requestFor 7) GpuUpload
                (TileTransferData_new GpuUpload) in
  ~ (checkObsolete bareTiles data = true <->
     savedTilePtr data = None
     \/ exists tile, savedTilePtr data = Some tile
          /\ backTexture bareTiles tile <> savedTileTexturePtr data).
Proof.
  cbn. intros [Hobs _]. destruct (Hobs eq_refl) as [?|(t & _ & Hne)].
  - discriminate.
  - by apply Hne.
Qed.


(** C2 fails as stated.  A one-slot queue is full; a producer calls
    [readyForUpdate] and waits.  The consumer drains and signals, and a
    second producer enqueues before the waiter holds the lock again.  The
    waiter is told the queue is ready although the empty-slot count is zero
    and no ring slot is Empty. *)
Lemma readyForUpdate_full_ring_counterexample :
  let r := readyForUpdate drainThenRival fullSmallQueue in
  ~ (fst r = true ->
     m_hasGLContext (snd r) = true
     /\ m_emptyItemCount (snd r) <> 0%Z
     /\ exists d, d ∈ m_transferQueue (snd r) /\ status d = emptyItem).
Proof.
  cbn. intros Hclaim. destruct (Hclaim eq_refl) as (_ & Hcount & _).
  apply Hcount. reflexivity.
Qed.

Lemma readyForUpdate_gate_witness :
  let r := readyForUpdate drainThenRival fullSmallQueue in
  fst r = true
  /\ m_hasGLContext (snd r) = true
  /\ m_interruptedByRemovingOp (snd r) = false.
Proof.
  pose proof (readyForUpdate_gate drainThenRival fullSmallQueue) as [Hyes _].
  cbv zeta in Hyes. destruct (Hyes eq_refl) as (Hgl & [[Hnz _]|(_ & _ & Hint)]).
  - exfalso. apply Hnz. reflexivity.
  - split; [reflexivity|]. split; [exact Hgl|exact Hint].
Defined.

Lemma tryUpdateQueueWithBitmap_outcome_witness :
  let q := TransferQueue_new CpuUpload true paintedTiles in
  let r := tryUpdateQueueWithBitmap id true (requestFor 1) [1%Z] q in
  wf q
  /\ fst r = true
  /\ m_transferQueueIndex (snd r) = 0
  /\ m_emptyItemCount (snd r) = 0%Z.
Proof.
  assert (wf (TransferQueue_new CpuUpload true paintedTiles)) as Hwf
    by (unfold wf; vm_compute; repeat split; lia).
  split; [exact Hwf|].
  pose proof (tryUpdateQueueWithBitmap_outcome id true (requestFor 1) [1%Z]
                (TransferQueue_new CpuUpload true paintedTiles) Hwf)
    as (_ & Hr & Hi & Hc & _).
  split; [exact Hr|]. split; [exact Hi|exact Hc].
Defined.

Lemma setPendingDiscard_effect_witness :
  m_transferQueue (setPendingDiscard fullSmallQueue)
  = toDiscard <$> m_transferQueue fullSmallQueue
  /\ m_hasGLContext (setPendingDiscard fullSmallQueue) = false.
Proof.
  pose proof (setPendingDiscard_effect fullSmallQueue eq_refl)
    as (Hr & _ & _ & Hgl & _).
  split; [exact Hr|exact Hgl].
Defined.

Lemma second_drain_idle_witness :
  wf fullSmallQueue
  /\ newCalls (updateDirtyTiles fullSmallQueue)
       (updateDirtyTiles (updateDirtyTiles fullSmallQueue))
     = [EvSignal].
Proof.
  assert (wf fullSmallQueue) as Hwf by (unfold wf; vm_compute; repeat split; lia).
  split; [exact Hwf|].
  exact (proj1 (second_drain_idle fullSmallQueue
                  (updateDirtyTiles fullSmallQueue) Hwf eq_refl eq_refl)).
Defined.



(** C8.  The ring walk does not release every captured reference before
    the GPU write.  A one-slot queue holds one direct-upload entry for tile
    1, captured with back texture 101.  The drain empties the slot with the
    tile reference reset and the expected-texture reference still 101,
    then materializes and writes the texture; the reference is still in the
    slot after the drain.  Discard resolution, emptying the same slot,
    resets both references. *)
Theorem drain_keeps_texture_reference :
  let slot st tile tex :=
    mkData st tile tex CpuUpload (Some [1%Z]) (mkIntRect 0 0 0 0) 0%Z in
  m_transferQueue fullSmallQueue = [slot pendingBlit (Some 1) (Some 101)]
  /\ newCalls fullSmallQueue (updateDirtyTiles fullSmallQueue)
     = [EvSlotEmptied 0 (slot emptyItem None (Some 101));
        EvRequireGLTexture 0 101;
        EvUpdateTextureWithBitmap 0 101 (Some [1%Z]) (mkIntRect 0 0 0 0);
        EvSetPure 0 101 false; EvTransferComplete (Ring 0) 101; EvSignal]
  /\ m_transferQueue (updateDirtyTiles fullSmallQueue)
     = [slot emptyItem None (Some 101)]
  /\ m_transferQueue (emptyQueue fullSmallQueue) = [slot emptyItem None None]
  /\ ~ releasedFirst (newCalls fullSmallQueue (updateDirtyTiles fullSmallQueue)).
Proof.
  cbv zeta. split; [reflexivity|]. split; [reflexivity|].
  split; [reflexivity|]. split; [reflexivity|].
  intros Hr.
  destruct (Hr 1 (EvRequireGLTexture 0 101) 0 eq_refl eq_refl)
    as (m & d & Hm & Hd & _ & _ & Hx).
  destruct m as [|m]; [|lia].
  vm_compute in Hd. injection Hd as <-. discriminate Hx.
Qed.

Lemma updateTexImage_once_per_slot_witness :
  wf oneQueuedGpu
  /\ countEvents (isUpdateTexImageAt 1)
       (newCalls oneQueuedGpu (updateDirtyTiles oneQueuedGpu)) = 1.
Proof.
  assert (wf oneQueuedGpu) as Hwf
    by (unfold wf; vm_compute; repeat split; lia).
  split; [exact Hwf|].
  exact (proj1 (updateTexImage_once_per_slot oneQueuedGpu 1 Hwf)).
Defined.

(** C7 fails as stated: the entry queued for tile 1 expects texture 101,
    which by the time of the switch belongs to another tile.  The switch
    displaces the entry, the next drain resolves it without any discard
    call to tile 1, and the first enqueue under the new strategy then
    succeeds. *)
Lemma switch_without_discard_counterexample :
  let q := set_tiles reassignedTiles oneQueuedGpu in
  let q1 := setTextureUploadType CpuUpload q in
  let q2 := updateDirtyTiles q1 in
  let r := tryUpdateQueueWithBitmap id true (requestFor 2) [2%Z] q2 in
  ~ ((exists d, m_transferQueue q !! 1 = Some d
        /\ status d = pendingBlit /\ savedTilePtr d = Some 1) ->
     fst r = true ->
     exists i, In (EvDiscardBackTexture i 1) (newCalls q (snd r))).
Proof.
  cbv zeta. intros Hclaim.
  destruct Hclaim as [i Hin].
  - eexists. split; [reflexivity|]. by split.
  - reflexivity.
  - vm_compute in Hin.
    repeat (destruct Hin as [Hin|Hin]; [discriminate Hin|]). exact Hin.
Qed.

Lemma setTextureUploadType_switch_witness :
  let q := set_tiles reassignedTiles oneQueuedGpu in
  wf q
  /\ m_currentUploadType q <> CpuUpload
  /\ m_hasGLContext (setTextureUploadType CpuUpload q) = false
  /\ m_currentUploadType (setTextureUploadType CpuUpload q) = CpuUpload.
Proof.
  cbv zeta.
  assert (wf (set_tiles reassignedTiles oneQueuedGpu)) as Hwf
    by (unfold wf; vm_compute; repeat split; lia).
  assert (m_currentUploadType (set_tiles reassignedTiles oneQueuedGpu)
          <> CpuUpload) as Hne by (vm_compute; discriminate).
  split; [exact Hwf|]. split; [exact Hne|].
  destruct (proj2 (setTextureUploadType_switch CpuUpload _ Hwf) Hne)
    as (_ & _ & _ & Hgl & Hty & _).
  split; [exact Hgl|exact Hty].
Defined.

Lemma drain_order_witness :
  let q := addItemInPureColorQueue (requestFor 4) oneQueuedGpu in
  let q0 := initGLResources (TransferQueue_new GpuUpload false paintedTiles) in
  let arrivals := [mkArrival paintedTiles (requestFor 1) GpuUpload
                     (Some [1%Z])] in
  wf q /\ wf q0
  /\ Forall (λ d, status d <> pendingBlit) (m_transferQueue q0)
  /\ length arrivals <= m_transferQueueSize q0
  /\ m_transferQueue q = m_transferQueue (arriveAll arrivals q0)
  /\ m_transferQueueSize q = m_transferQueueSize (arriveAll arrivals q0)
  /\ m_transferQueueIndex q = m_transferQueueIndex (arriveAll arrivals q0)
  /\ sideFirst (newCalls (afterDiscards q) (updateDirtyTiles q))
  /\ emptiedSlots (newCalls (afterPureColor q) (snd (afterRingWalk q)))
     = (λ a, (m_transferQueueIndex q0 + 1 + a) mod m_transferQueueSize q)
         <$> seq 0 (length arrivals)
  /\ m_pureColorTileQueue (updateDirtyTiles q) = [].
Proof.
  cbv zeta.
  set (q := addItemInPureColorQueue (requestFor 4) oneQueuedGpu).
  set (q0 := initGLResources (TransferQueue_new GpuUpload false paintedTiles)).
  set (arrivals := [mkArrival paintedTiles (requestFor 1) GpuUpload
                      (Some [1%Z])]).
  assert (wf q) as Hwf by (unfold wf; vm_compute; repeat split; lia).
  assert (wf q0) as Hwf0 by (unfold wf; vm_compute; repeat split; lia).
  assert (Forall (λ d, status d <> pendingBlit) (m_transferQueue q0)) as Hnone
    by (vm_compute; repeat constructor; discriminate).
  assert (length arrivals <= m_transferQueueSize q0) as Hlen
    by (vm_compute; lia).
  assert (m_transferQueue q = m_transferQueue (arriveAll arrivals q0)) as E1
    by (vm_compute; reflexivity).
  assert (m_transferQueueSize q = m_transferQueueSize (arriveAll arrivals q0))
    as E2 by (vm_compute; reflexivity).
  assert (m_transferQueueIndex q
          = m_transferQueueIndex (arriveAll arrivals q0)) as E3
    by (vm_compute; reflexivity).
  destruct (drain_order q Hwf)
    as (_ & _ & _ & _ & Hfirst & _ & _ & Harrive & Hq).
  destruct (Harrive q0 arrivals Hwf0 Hnone Hlen E1 E2 E3) as [Horder _].
  split; [exact Hwf|]. split; [exact Hwf0|]. split; [exact Hnone|].
  split; [exact Hlen|]. split; [exact E1|]. split; [exact E2|].
  split; [exact E3|]. split; [exact Hfirst|]. split; [exact Horder|exact Hq].
Defined.

(** * Further properties *)

Section Lifecycle.
Context {W : Type} `{TileWorld W}.

#[local] Abbreviation TQ := (TransferQueue W).

Lemma toDiscard_idem (d : TileTransferData) : toDiscard (toDiscard d) = toDiscard d.
Proof. unfold toDiscard. by destruct d as [[] ? ? ? ? ? ?]. Qed.

Lemma resolveDiscard_not_pending (l : list TileTransferData) :
  Forall (λ d, status d <> pendingDiscard) (resolveDiscard <$> l).
Proof.
  apply Forall_fmap, Forall_forall. intros d _.
  unfold resolveDiscard. cbn. by destruct d as [[] ? ? ? ? ? ?].
Qed.

(** X1.  Marking for discard twice is the same as marking once: the second
    call changes no slot and does not signal again. *)
Theorem setPendingDiscard_idempotent (q : TQ) :
  length (m_transferQueue q) = m_transferQueueSize q ->
  setPendingDiscard (setPendingDiscard q) = setPendingDiscard q.
Proof.
  intros Hlen.
  destruct q as [ring size idx cnt gl int ty side anw w log].
  cbn in Hlen. subst size.
  unfold setPendingDiscard, getHasGLContext. cbn.
  rewrite markDiscardLoop_all.
  assert (markDiscardLoop (length ring) 0 (toDiscard <$> ring)
          = toDiscard <$> ring) as Hagain.
  { rewrite <- (length_fmap toDiscard ring) at 1.
    rewrite markDiscardLoop_all, <- list_fmap_compose.
    apply list_fmap_ext. intros _ d _. apply toDiscard_idem. }
  destruct gl; cbn; by rewrite Hagain.
Qed.

(** X2.  Discard resolution leaves no PendingDiscard slot, does not touch
    PendingUpload slots, and running it again changes nothing and calls
    nothing. *)
Theorem cleanupPendingDiscard_idempotent (q : TQ) :
  wf q ->
  Forall (λ d, status d <> pendingDiscard)
    (m_transferQueue (cleanupPendingDiscard q))
  /\ (forall i d, m_transferQueue q !! i = Some d -> status d = pendingBlit ->
        m_transferQueue (cleanupPendingDiscard q) !! i = Some d)
  /\ cleanupPendingDiscard (cleanupPendingDiscard q) = cleanupPendingDiscard q.
Proof.
  intros Hwf.
  assert (Forall (λ d, status d <> pendingDiscard)
            (m_transferQueue (cleanupPendingDiscard q))) as Hnone
    by (rewrite cleanupPendingDiscard_ring by done;
        apply resolveDiscard_not_pending).
  split; [done|]. split.
  - intros i d Hd Hs. rewrite cleanupPendingDiscard_ring by done.
    rewrite list_lookup_fmap, Hd. cbn. f_equal.
    unfold resolveDiscard. by rewrite Hs.
  - unfold cleanupPendingDiscard at 1. by apply cleanupLoop_none_pending.
Qed.

(** X3.  [emptyQueue] leaves every ring slot Empty; a slot that was pending
    has lost both its tile and its texture reference but keeps its bitmap
    buffer; the pure-colour queue is empty and the context not live;
    [m_emptyItemCount] is left as it was; and [updateTexImage] has been
    called exactly once at every GpuUpload slot that was pending. *)
Theorem emptyQueue_effect (q : TQ) :
  wf q ->
  Forall (λ d, status d = emptyItem) (m_transferQueue (emptyQueue q))
  /\ (forall i d, m_transferQueue q !! i = Some d -> status d <> emptyItem ->
        exists d', m_transferQueue (emptyQueue q) !! i = Some d'
          /\ savedTilePtr d' = None /\ savedTileTexturePtr d' = None
          /\ bitmap d' = bitmap d)
  /\ m_pureColorTileQueue (emptyQueue q) = []
  /\ m_hasGLContext (emptyQueue q) = false
  /\ m_emptyItemCount (emptyQueue q) = m_emptyItemCount q
  /\ (forall j,
        countEvents (isUpdateTexImageAt j)
          (newCalls (setPendingDiscard q) (emptyQueue q))
        = match m_transferQueue q !! j with
          | Some d =>
              match uploadType d, status d with
              | GpuUpload, (pendingBlit | pendingDiscard) => 1
              | _, _ => 0
              end
          | None => 0
          end).
Proof.
  intros Hwf.
  destruct (setPendingDiscard_frame q) as (R & S1 & S2 & C & G & _ & P & _);
    [by destruct Hwf as (_ & ? & _)|].
  assert (wf (setPendingDiscard q)) as Hwf'
    by (apply (wf_intro q); try done; by rewrite R, length_fmap).
  destruct (cleanupPendingDiscard_control (setPendingDiscard q))
    as (_ & _ & C' & G' & _ & _ & P' & _).
  assert (m_transferQueue (emptyQueue q)
          = resolveDiscard <$> (toDiscard <$> m_transferQueue q)) as Hring
    by (unfold emptyQueue; rewrite cleanupPendingDiscard_ring by done;
        by rewrite R).
  split; [|split; [|split; [|split; [|split]]]].
  - rewrite Hring, <- list_fmap_compose. apply Forall_fmap, Forall_forall.
    intros d _. unfold resolveDiscard, toDiscard. cbn.
    by destruct d as [[] ? ? ? ? ? ?].
  - intros i d Hd Hs. eexists. split.
    + by rewrite Hring, !list_lookup_fmap, Hd.
    + unfold resolveDiscard, toDiscard.
      destruct d as [[] ? ? ? ? ? ?]; cbn in *; done.
  - unfold emptyQueue. congruence.
  - unfold emptyQueue. congruence.
  - unfold emptyQueue. congruence.
  - intros j. unfold emptyQueue.
    destruct (cleanupPendingDiscard_newCalls (λ _, True) (setPendingDiscard q))
      as [E _]; try done.
    pose proof (countEvents_newCalls (isUpdateTexImageAt j) _ _ _ E) as Hc.
    rewrite cleanupPendingDiscard_reads in Hc by done.
    rewrite R, list_lookup_fmap in Hc.
    assert (countEvents (isUpdateTexImageAt j)
              (newCalls (setPendingDiscard q)
                 (cleanupPendingDiscard (setPendingDiscard q)))
            = from_option discardReads 0 (toDiscard <$> m_transferQueue q !! j))
      as -> by lia.
    destruct (m_transferQueue q !! j) as [d|]; [|done].
    unfold discardReads, toDiscard. cbn. by destruct d as [[] ? ? [] ? ? ?].
Qed.

End Lifecycle.

Section Admission.
Context {W : Type} `{TileWorld W}.

#[local] Abbreviation TQ := (TransferQueue W).

Lemma updateDirtyTiles_interrupted (q : TQ) :
  m_interruptedByRemovingOp (updateDirtyTiles q) = m_interruptedByRemovingOp q
  /\ m_ANW (updateDirtyTiles q) = m_ANW q.
Proof.
  rewrite updateDirtyTiles_stages.
  assert (m_interruptedByRemovingOp (snd (afterRingWalk q))
          = m_interruptedByRemovingOp q
          /\ m_ANW (snd (afterRingWalk q)) = m_ANW q) as [Hi Ha].
  { unfold afterRingWalk.
    match goal with |- context [blitLoop ?n ?i ?st] =>
      destruct (blitLoop_control n i st) as (_ & _ & _ & _ & -> & _ & _ & ->)
    end.
    cbn [snd]. unfold afterPureColor, updatePureColorTiles. cbn.
    destruct (pureColorLoop_frame (m_pureColorTileQueue (afterDiscards q)) 0
                (afterDiscards q)) as (_ & (_ & _ & _ & _ & -> & _ & _ & ->) & _).
    unfold afterDiscards, getHasGLContext.
    destruct (cleanupPendingDiscard_control q)
      as (_ & _ & _ & _ & Hi & _ & _ & Ha).
    by destruct (m_hasGLContext (cleanupPendingDiscard q)). }
  by destruct (fst (afterRingWalk q)).
Qed.

Lemma wf_emit (e : Event) (q : TQ) : wf q -> wf (emit e q).
Proof. intros Hwf. by apply (wf_intro q). Qed.

(** Without a wait, the update goes straight to the enqueue. *)
Lemma tryUpdate_admitted (others : TQ -> TQ) (writeOk : bool)
    (r : TileRenderInfo) (bmp : SkBitmap) (q : TQ) :
  m_hasGLContext q = true -> m_emptyItemCount q <> 0%Z ->
  tryUpdateQueueWithBitmap others writeOk r bmp q
  = match m_currentUploadType q with
    | CpuUpload => (true, addItemInTransferQueue r CpuUpload (Some bmp) q)
    | GpuUpload =>
        if m_ANW q then
          if writeOk
          then (true, addItemInTransferQueue r GpuUpload (Some bmp)
                        (emit (EvSharedSurfaceWrite bmp true) q))
          else (false, emit (EvSharedSurfaceWrite bmp false) q)
        else (false, q)
    end.
Proof.
  intros Hgl Hc. unfold tryUpdateQueueWithBitmap, readyForUpdate,
    getHasGLContext.
  rewrite Hgl. cbn. destruct (Z.eqb_spec (m_emptyItemCount q) 0); [done|].
  cbn. destruct (m_currentUploadType q); [done|].
  destruct (m_ANW q); [|done]. by destruct writeOk.
Qed.

(** X4.  Right after a drain the gate admits a producer without waiting,
    whatever the interruption flag says, and a DirectUpload update then
    succeeds and writes the slot after the write index. *)
Theorem drain_readmits (others : TQ -> TQ) (writeOk : bool)
    (r : TileRenderInfo) (bmp : SkBitmap) (q : TQ) :
  wf q ->
  readyForUpdate others (updateDirtyTiles q) = (true, updateDirtyTiles q)
  /\ (m_currentUploadType q = CpuUpload ->
      tryUpdateQueueWithBitmap others writeOk r bmp (updateDirtyTiles q)
      = (true, addItemInTransferQueue r CpuUpload (Some bmp)
                 (updateDirtyTiles q))).
Proof.
  intros Hwf.
  destruct (updateDirtyTiles_result q Hwf) as (_ & _ & _ & C & G & T & _).
  assert (m_emptyItemCount (updateDirtyTiles q) <> 0%Z) as Hc
    by (rewrite C; destruct Hwf; lia).
  split.
  - unfold readyForUpdate, getHasGLContext. rewrite G. cbn.
    by destruct (Z.eqb_spec (m_emptyItemCount (updateDirtyTiles q)) 0).
  - intros Hty. rewrite tryUpdate_admitted by done. by rewrite T, Hty.
Qed.

(** X5.  A producer blocked on a full ring (context live, count zero, not
    interrupted) is released by whatever signals the condition: woken by
    [setPendingDiscard], by [emptyQueue] or by an interruption it is told
    the queue is not ready; woken by a drain it is told the queue is ready,
    and the count is then the ring size. *)
Theorem blocked_producer_released (q : TQ) :
  m_hasGLContext q = true -> m_emptyItemCount q = 0%Z ->
  m_interruptedByRemovingOp q = false ->
  readyForUpdate setPendingDiscard q
  = (false, setPendingDiscard (emit EvWait q))
  /\ readyForUpdate emptyQueue q = (false, emptyQueue (emit EvWait q))
  /\ readyForUpdate (interruptTransferQueue true) q
     = (false, interruptTransferQueue true (emit EvWait q))
  /\ (wf q ->
      readyForUpdate updateDirtyTiles q
      = (true, updateDirtyTiles (emit EvWait q))
      /\ m_emptyItemCount (updateDirtyTiles (emit EvWait q))
         = Z.of_nat (m_transferQueueSize q)).
Proof.
  intros Hgl Hc Hint.
  assert (forall q0 : TQ,
            m_hasGLContext (setPendingDiscard q0) = false
            /\ m_interruptedByRemovingOp (setPendingDiscard q0)
               = m_interruptedByRemovingOp q0) as Hspd.
  { intros q0. unfold setPendingDiscard, getHasGLContext. cbn.
    by destruct (m_hasGLContext q0). }
  unfold readyForUpdate, getHasGLContext. rewrite Hgl, Hc, Hint. cbn.
  split; [|split; [|split]].
  - destruct (Hspd (emit EvWait q)) as [-> ->]. cbn. by rewrite Hint.
  - unfold emptyQueue.
    destruct (cleanupPendingDiscard_control (setPendingDiscard (emit EvWait q)))
      as (_ & _ & _ & -> & -> & _).
    destruct (Hspd (emit EvWait q)) as [-> ->]. cbn. by rewrite Hint.
  - done.
  - intros Hwf. apply (wf_emit EvWait) in Hwf.
    destruct (updateDirtyTiles_result _ Hwf) as (_ & _ & _ & C & G & _).
    destruct (updateDirtyTiles_interrupted (emit EvWait q)) as [I _].
    rewrite I, G. cbn. rewrite Hint. done.
Qed.

(** X6.  The interruption flag only stops a producer that would have to
    wait: after [interruptTransferQueue(true)], which signals the condition
    once, [readyForUpdate] never waits; it answers ready exactly when the
    context is live and the empty-slot count is nonzero.  Clearing the flag
    signals nothing. *)
Theorem interruption_only_stops_waiting (others : TQ -> TQ) (q : TQ) :
  readyForUpdate others (interruptTransferQueue true q)
  = (m_hasGLContext q && negb (m_emptyItemCount q =? 0)%Z,
     interruptTransferQueue true q)
  /\ calls (interruptTransferQueue true q) = calls q ++ [EvSignal]
  /\ calls (interruptTransferQueue false q) = calls q
  /\ m_interruptedByRemovingOp (interruptTransferQueue false q) = false.
Proof.
  split; [|done].
  unfold readyForUpdate, interruptTransferQueue, getHasGLContext. cbn.
  destruct (m_hasGLContext q); [|done]. cbn.
  by destruct (m_emptyItemCount q =? 0)%Z.
Qed.

End Admission.

Section Backpressure.
Context {W : Type} `{TileWorld W}.

#[local] Abbreviation TQ := (TransferQueue W).

Lemma addItemInTransferQueue_frame (r : TileRenderInfo)
    (type : TextureUploadType) (bmp : option SkBitmap) (q : TQ) :
  m_hasGLContext (addItemInTransferQueue r type bmp q) = m_hasGLContext q
  /\ m_currentUploadType (addItemInTransferQueue r type bmp q)
     = m_currentUploadType q
  /\ m_ANW (addItemInTransferQueue r type bmp q) = m_ANW q
  /\ calls (addItemInTransferQueue r type bmp q) = calls q
  /\ m_emptyItemCount (addItemInTransferQueue r type bmp q)
     = (m_emptyItemCount q - 1)%Z.
Proof.
  unfold addItemInTransferQueue. cbn.
  by destruct (m_transferQueue q !! _).
Qed.

(** One admitted update: the request is enqueued without a wait. *)
Lemma serve_update_admitted (others : TQ -> TQ) (writeOk : bool)
    (bmp : SkBitmap) (r : TileRenderInfo) (q : TQ) :
  wf q -> m_hasGLContext q = true ->
  (m_currentUploadType q = CpuUpload \/ (m_ANW q = true /\ writeOk = true)) ->
  (0 < m_emptyItemCount q)%Z ->
  let q1 := snd (serve (ReqUpdate others writeOk r bmp) q) in
  fst (serve (ReqUpdate others writeOk r bmp) q) = Some true
  /\ wf q1 /\ m_hasGLContext q1 = true
  /\ m_currentUploadType q1 = m_currentUploadType q /\ m_ANW q1 = m_ANW q
  /\ m_emptyItemCount q1 = (m_emptyItemCount q - 1)%Z
  /\ m_transferQueueIndex q1 = getNextTransferQueueIndex q
  /\ m_transferQueueSize q1 = m_transferQueueSize q
  /\ countEvents isWait (calls q1) = countEvents isWait (calls q).
Proof.
  intros Hwf Hgl Hkind Hc q1. unfold q1. cbn [serve fst snd].
  unfold updateQueueWithBitmap.
  rewrite tryUpdate_admitted by (done || lia).
  assert (forall (ty : TextureUploadType) (q0 : TQ),
            wf q0 -> m_hasGLContext q0 = true ->
            m_currentUploadType q0 = m_currentUploadType q ->
            m_ANW q0 = m_ANW q -> m_emptyItemCount q0 = m_emptyItemCount q ->
            getNextTransferQueueIndex q0 = getNextTransferQueueIndex q ->
            m_transferQueueSize q0 = m_transferQueueSize q ->
            countEvents isWait (calls q0) = countEvents isWait (calls q) ->
            let q' := addItemInTransferQueue r ty (Some bmp) q0 in
            wf q' /\ m_hasGLContext q' = true
            /\ m_currentUploadType q' = m_currentUploadType q
            /\ m_ANW q' = m_ANW q
            /\ m_emptyItemCount q' = (m_emptyItemCount q - 1)%Z
            /\ m_transferQueueIndex q' = getNextTransferQueueIndex q
            /\ m_transferQueueSize q' = m_transferQueueSize q
            /\ countEvents isWait (calls q') = countEvents isWait (calls q))
    as Hadd.
  { intros ty q0 Hwf0 G T A C N S L q'.
    destruct (addItemInTransferQueue_frame r ty (Some bmp) q0)
      as (G' & T' & A' & L' & C').
    destruct (addItemInTransferQueue_effect r ty (Some bmp) q0 Hwf0)
      as (old & data & _ & R & _ & _ & _ & S1 & S2 & _).
    pose proof (runOp_wf (OpEnqueue r ty (Some bmp)) q0 Hwf0) as Hwf'.
    cbn [runOp] in Hwf'. unfold q'.
    repeat split; try congruence; apply Hwf'. }
  assert (m_currentUploadType q = CpuUpload
          \/ (m_currentUploadType q = GpuUpload /\ m_ANW q = true
              /\ writeOk = true)) as [Hty|(Hty & Ha & ->)].
  { destruct Hkind as [?|[? ?]]; [by left|].
    destruct (m_currentUploadType q); [by left|by right]. }
  - destruct (Hadd CpuUpload q) as (A1 & A2 & A3 & A4 & A5 & A6 & A7 & A8);
      try done.
    rewrite Hty. cbn [fst snd negb].
    repeat split; first [apply A1 | congruence].
  - assert (countEvents isWait (calls (emit (EvSharedSurfaceWrite bmp true) q))
            = countEvents isWait (calls q)) as Hw
      by (unfold emit; cbn [calls]; rewrite countEvents_app;
          unfold countEvents at 2; cbn; lia).
    destruct (Hadd GpuUpload (emit (EvSharedSurfaceWrite bmp true) q)
                (wf_emit _ _ Hwf) Hgl eq_refl eq_refl eq_refl eq_refl eq_refl
                Hw)
      as (A1 & A2 & A3 & A4 & A5 & A6 & A7 & A8).
    rewrite Hty, Ha. cbn [fst snd negb].
    repeat split; first [apply A1 | congruence].
Qed.

(** X7.  Backpressure counts down: on a well-formed queue with a live
    context whose empty-slot count is at least the number of requests, every
    update (direct upload, or shared-surface upload whose pixel write
    succeeds) is admitted without waiting and enqueued; afterwards the count
    has dropped by the number of requests and the write index has advanced
    by as many positions modulo the ring size. *)
Theorem updates_admitted_up_to_count (others : TQ -> TQ) (writeOk : bool)
    (bmp : SkBitmap) (rs : list TileRenderInfo) (q : TQ) :
  wf q -> m_hasGLContext q = true ->
  (m_currentUploadType q = CpuUpload \/ (m_ANW q = true /\ writeOk = true)) ->
  (Z.of_nat (length rs) <= m_emptyItemCount q)%Z ->
  let run := serveAll (updateRequests others writeOk bmp rs) q in
  fst run = replicate (length rs) (Some true)
  /\ m_emptyItemCount (snd run) = (m_emptyItemCount q - Z.of_nat (length rs))%Z
  /\ m_transferQueueIndex (snd run)
     = (m_transferQueueIndex q + length rs) mod m_transferQueueSize q
  /\ countEvents isWait (calls (snd run)) = countEvents isWait (calls q).
Proof.
  revert q. induction rs as [|r rs IH]; intros q Hwf Hgl Hkind Hc run.
  - unfold run. cbn. destruct Hwf as (? & ? & ?).
    repeat split; try lia. by rewrite Nat.add_0_r, Nat.mod_small.
  - cbn [length] in Hc.
    destruct (serve_update_admitted others writeOk bmp r q Hwf Hgl Hkind)
      as (Hres & Hwf1 & Hgl1 & Hty1 & Ha1 & Hc1 & Hi1 & Hs1 & Hw1); [lia|].
    unfold run, updateRequests. cbn [fmap list_fmap serveAll].
    destruct (serve (ReqUpdate others writeOk r bmp) q) as [res q1].
    cbn [fst snd] in *.
    specialize (IH q1 Hwf1 Hgl1).
    destruct IH as (I1 & I2 & I3 & I4);
      [rewrite Hty1, Ha1; exact Hkind|lia|].
    unfold updateRequests in *.
    destruct (serveAll _ q1) as [ress q2]. cbn [fst snd] in *.
    split; [cbn; congruence|]. split; [cbn [length]; lia|].
    split; [|congruence].
    rewrite I3, Hi1, Hs1. unfold getNextTransferQueueIndex.
    rewrite Nat.Div0.add_mod_idemp_l. f_equal. cbn. lia.
Qed.

Lemma serve_update_refused (others : TQ -> TQ) (writeOk : bool)
    (bmp : SkBitmap) (r : TileRenderInfo) (q : TQ) :
  m_hasGLContext q = false ->
  serve (ReqUpdate others writeOk r bmp) q
  = (Some false,
     match baseTile r with
     | Some tile =>
         call (EvBackTextureTransferFail tile) (backTextureTransferFail tile) q
     | None => q
     end).
Proof.
  intros Hgl. cbn [serve].
  unfold updateQueueWithBitmap, tryUpdateQueueWithBitmap, readyForUpdate,
    getHasGLContext.
  by rewrite Hgl.
Qed.

(** X8.  While the context is not live no update reaches the ring: each
    request is refused without a wait, the ring, write index and count stay
    as they are, and the tile of each request that carries one is told once,
    in request order, that its back-texture transfer failed; a request whose
    [baseTile] is null causes no call. *)
Theorem updates_refused_without_context (others : TQ -> TQ) (writeOk : bool)
    (bmp : SkBitmap) (rs : list TileRenderInfo) (q : TQ) :
  m_hasGLContext q = false ->
  let run := serveAll (updateRequests others writeOk bmp rs) q in
  fst run = replicate (length rs) (Some false)
  /\ m_transferQueue (snd run) = m_transferQueue q
  /\ m_transferQueueIndex (snd run) = m_transferQueueIndex q
  /\ m_emptyItemCount (snd run) = m_emptyItemCount q
  /\ calls (snd run)
     = calls q ++ omap (λ r, EvBackTextureTransferFail <$> baseTile r) rs.
Proof.
  revert q. induction rs as [|r rs IH]; intros q Hgl run.
  - unfold run. cbn. by rewrite app_nil_r.
  - unfold run. change (updateRequests others writeOk bmp (r :: rs))
      with (ReqUpdate others writeOk r bmp
            :: updateRequests others writeOk bmp rs).
    cbn [serveAll]. rewrite serve_update_refused by done.
    set (q1 := match baseTile r with
               | Some tile =>
                   call (EvBackTextureTransferFail tile)
                     (backTextureTransferFail tile) q
               | None => q
               end).
    assert (m_hasGLContext q1 = false /\ m_transferQueue q1 = m_transferQueue q
            /\ m_transferQueueIndex q1 = m_transferQueueIndex q
            /\ m_emptyItemCount q1 = m_emptyItemCount q
            /\ calls q1
               = calls q ++ omap (λ r, EvBackTextureTransferFail <$> baseTile r)
                             [r]) as (G1 & R1 & X1 & C1 & L1).
    { unfold q1. cbn [omap list_omap]. destruct (baseTile r) as [tile|]; cbn.
      - done.
      - by rewrite app_nil_r. }
    destruct (IH q1 G1) as (I1 & I2 & I3 & I4 & I5).
    destruct (serveAll (updateRequests others writeOk bmp rs) q1)
      as [ress q2].
    cbn [fst snd] in *.
    split; [cbn; congruence|]. split; [congruence|]. split; [congruence|].
    split; [congruence|].
    rewrite I5, L1, <- app_assoc. f_equal.
    cbn [omap list_omap]. by destruct (baseTile r).
Qed.

End Backpressure.

Section Slots.
Context {W : Type} `{TileWorld W}.

#[local] Abbreviation TQ := (TransferQueue W).

(** X9.  A pure-colour request is taken whatever the state of the context
    and comes back out at the next processing of the pure-colour queue: if
    the tile still holds the back texture it held when the request was made,
    that texture is given the request's colour and then marked
    transfer-complete; if the tile held no back texture then, or holds none
    or another one now, nothing is called.  Either way the pure-colour queue
    is empty afterwards and the ring and its count are untouched. *)
Theorem pure_colour_round_trip (r : TileRenderInfo) (w' : W) (q : TQ) :
  m_pureColorTileQueue q = [] ->
  let q1 := set_tiles w' (addItemInPureColorQueue r q) in
  calls (updatePureColorTiles q1)
  = calls q
    ++ match baseTile r ≫= backTexture (tiles q),
             baseTile r ≫= backTexture w' with
       | Some x, Some y =>
           if bool_decide (x = y)
           then [EvSetPureColor 0 y (ri_pureColor r);
                 EvTransferComplete (Side 0) y]
           else []
       | _, _ => []
       end
  /\ m_pureColorTileQueue (updatePureColorTiles q1) = []
  /\ m_transferQueue (updatePureColorTiles q1) = m_transferQueue q
  /\ m_emptyItemCount (updatePureColorTiles q1) = m_emptyItemCount q.
Proof.
  intros Hside q1.
  destruct (updatePureColorTiles_frame q1) as (R & _ & _ & C & _ & _ & P & _).
  split; [|by repeat split].
  unfold q1, updatePureColorTiles, addItemInPureColorQueue. cbn.
  rewrite Hside. cbn. unfold pureColorBody, checkObsolete, ptr_eqb. cbn.
  destruct (baseTile r) as [t|]; cbn; [|by rewrite app_nil_r].
  destruct (backTexture w' t) as [y|] eqn:Hy; cbn.
  - destruct (backTexture (tiles q) t) as [x|] eqn:Hx.
    + destruct (decide (x = y)) as [->|Hne].
      * rewrite !bool_decide_eq_true_2 by done. cbn.
        by rewrite <- app_assoc.
      * rewrite (bool_decide_eq_false_2 (Some y = Some x)) by congruence.
        rewrite (bool_decide_eq_false_2 (x = y)) by done. cbn.
        by rewrite app_nil_r.
    + rewrite bool_decide_eq_false_2 by done. cbn. by rewrite app_nil_r.
  - destruct (backTexture (tiles q) t); by rewrite app_nil_r.
Qed.

(** X10.  What a slot holds is fixed from enqueue to release.  An enqueue
    writes the slot after the write index and no other.  Drain, discard
    marking and discard resolution never change a slot's bitmap buffer,
    upload kind or dirty region, never touch an Empty slot, and leave the
    tile and texture references of any slot that is still pending
    afterwards as they were. *)
Theorem slot_contents_stable (o : Op) (q : TQ) (i : nat) (d : TileTransferData) :
  wf q -> m_transferQueue q !! i = Some d ->
  match o with
  | OpEnqueue _ _ _ =>
      i <> getNextTransferQueueIndex q ->
      m_transferQueue (runOp o q) !! i = Some d
  | _ =>
      exists d', m_transferQueue (runOp o q) !! i = Some d'
        /\ bitmap d' = bitmap d /\ uploadType d' = uploadType d
        /\ invalRect d' = invalRect d
        /\ (status d = emptyItem -> d' = d)
        /\ (status d' <> emptyItem ->
            savedTilePtr d' = savedTilePtr d
            /\ savedTileTexturePtr d' = savedTileTexturePtr d)
  end.
Proof.
  intros Hwf Hd. destruct o as [r ty bmp| | |]; cbn [runOp].
  - intros Hne.
    destruct (addItemInTransferQueue_effect r ty bmp q Hwf)
      as (old & data & _ & -> & _).
    by rewrite list_lookup_insert_ne.
  - destruct (updateDirtyTiles_result q Hwf) as (-> & _).
    exists (releaseBlit (resolveDiscard d)).
    split; [by rewrite !list_lookup_fmap, Hd|].
    unfold releaseBlit, resolveDiscard.
    destruct d as [[] ? ? ? ? ? ?]; cbn; by repeat split.
  - destruct (setPendingDiscard_frame q) as (-> & _);
      [by destruct Hwf as (_ & ? & _)|].
    exists (toDiscard d). split; [by rewrite list_lookup_fmap, Hd|].
    unfold toDiscard. destruct d as [[] ? ? ? ? ? ?]; cbn; by repeat split.
  - rewrite cleanupPendingDiscard_ring by done.
    exists (resolveDiscard d). split; [by rewrite list_lookup_fmap, Hd|].
    unfold resolveDiscard.
    destruct d as [[] ? ? ? ? ? ?]; cbn; by repeat split.
Qed.

Lemma enqueueAll_count (rs : list TileRenderInfo) (type : TextureUploadType)
    (bmp : option SkBitmap) (q : TQ) :
  m_emptyItemCount (enqueueAll rs type bmp q)
  = (m_emptyItemCount q - Z.of_nat (length rs))%Z.
Proof.
  revert q. induction rs as [|r rs IH]; intros q; [cbn; lia|].
  unfold enqueueAll in *. cbn [foldl length]. rewrite IH.
  destruct (addItemInTransferQueue_frame r type bmp q) as (_ & _ & _ & _ & ->).
  lia.
Qed.

(** X11.  The ring wraps: once as many requests as the ring has slots have
    been enqueued, every slot is PendingUpload, the write index is back
    where it started, the count has dropped by the ring size, and the slot
    the next enqueue would write is the one holding the first request. *)
Theorem ring_full_after_capacity (rs : list TileRenderInfo)
    (type : TextureUploadType) (bmp : option SkBitmap) (q0 : TQ) :
  wf q0 -> length rs = m_transferQueueSize q0 ->
  let q := enqueueAll rs type bmp q0 in
  Forall (λ d, status d = pendingBlit) (m_transferQueue q)
  /\ m_transferQueueIndex q = m_transferQueueIndex q0
  /\ m_emptyItemCount q
     = (m_emptyItemCount q0 - Z.of_nat (m_transferQueueSize q0))%Z
  /\ (forall r, rs !! 0 = Some r ->
        exists d, m_transferQueue q !! getNextTransferQueueIndex q = Some d
          /\ savedTilePtr d = baseTile r).
Proof.
  intros Hwf0 Hlen q.
  destruct (enqueueAll_state rs type bmp q0 Hwf0) as (Hwf & Hsz & Hix & Hin & _);
    [lia|].
  fold q in Hwf, Hsz, Hix, Hin.
  set (N := m_transferQueueSize q0) in *.
  assert (0 < N /\ m_transferQueueIndex q0 < N) as [HN Hi0]
    by (destruct Hwf0 as (? & _ & ?); done).
  assert (m_transferQueueIndex q = m_transferQueueIndex q0) as Hback.
  { rewrite Hix, Hlen.
    replace (m_transferQueueIndex q0 + N) with (m_transferQueueIndex q0 + 1 * N)
      by lia.
    by rewrite Nat.Div0.mod_add, Nat.mod_small. }
  split; [|split; [done|split]].
  - apply Forall_lookup. intros j d Hd.
    assert (j < N) as Hj.
    { apply lookup_lt_Some in Hd. destruct Hwf as (_ & Hl & _).
      rewrite Hl, Hsz in Hd. done. }
    assert (j ∈ walkFrom N ((m_transferQueueIndex q0 + 1) mod N) N) as Hw
      by (apply walkFrom_elem; [apply Nat.mod_upper_bound; lia|done]).
    rewrite walkFrom_map in Hw by (apply Nat.mod_upper_bound; lia).
    apply list_elem_of_fmap in Hw as (a & -> & Ha%elem_of_seq).
    rewrite Nat.Div0.add_mod_idemp_l in Hd.
    destruct (lookup_lt_is_Some_2 rs a) as [r Hr]; [lia|].
    destruct (Hin a r Hr) as (d' & Hd' & Hs & _). congruence.
  - unfold q. rewrite enqueueAll_count, Hlen. done.
  - intros r Hr. destruct (Hin 0 r Hr) as (d & Hd & _ & Ht).
    exists d. split; [|done].
    unfold getNextTransferQueueIndex. rewrite Hsz, Hback.
    by rewrite Nat.add_0_r in Hd.
Qed.

End Slots.

Section SlotFoldsBound.
Context {St A : Type} (step : nat -> St -> St) (ring : St -> list A) (f : A -> A).
Hypothesis step_ring : forall i s, ring (step i s) = alter f i (ring s).

(** A quantity that only the step at position [j] can raise, by at most an
    amount that depends on that slot. *)
Lemma foldl_step_count_le (m : St -> nat) (c : A -> nat) (j : nat) :
  (forall i s, m (step i s)
     <= m s + (if decide (i = j) then from_option c 0 (ring s !! i) else 0)) ->
  forall (l : list nat) (s : St), NoDup l ->
    m (foldl (λ s i, step i s) s l)
    <= m s + (if decide (j ∈ l) then from_option c 0 (ring s !! j) else 0).
Proof.
  intros Hm l. induction l as [|a l IH]; intros s Hnd; cbn [foldl].
  - rewrite decide_False; [lia|]. apply not_elem_of_nil.
  - apply NoDup_cons in Hnd as [Ha Hnd].
    specialize (IH (step a s) Hnd). specialize (Hm a s).
    rewrite step_ring in IH. destruct (decide (a = j)) as [->|Hne].
    + rewrite (decide_False (P := j ∈ l)) in IH by done.
      rewrite decide_True by apply list_elem_of_here. lia.
    + rewrite list_lookup_alter_ne in IH by done.
      destruct (decide (j ∈ l)).
      * rewrite decide_True; [lia|]. by apply list_elem_of_further.
      * rewrite decide_False; [lia|].
        intros [?|?]%elem_of_cons; congruence.
Qed.

End SlotFoldsBound.

Section DrainLog.
Context {W : Type} `{TileWorld W}.

#[local] Abbreviation TQ := (TransferQueue W).

(** In [evs], each slot has as many texture materializations as pixel
    transfers, as non-pure markings and as transfer-complete markings. *)
Lemma balanced_app (j : nat) (a b : list Event) :
  (countEvents (isRequireAt j) a = countEvents (isTransferAt j) a
   /\ countEvents (isRequireAt j) a = countEvents (isSetPureAt j) a
   /\ countEvents (isRequireAt j) a = countEvents (isCompleteAt j) a) ->
  (countEvents (isRequireAt j) b = countEvents (isTransferAt j) b
   /\ countEvents (isRequireAt j) b = countEvents (isSetPureAt j) b
   /\ countEvents (isRequireAt j) b = countEvents (isCompleteAt j) b) ->
  countEvents (isRequireAt j) (a ++ b) = countEvents (isTransferAt j) (a ++ b)
  /\ countEvents (isRequireAt j) (a ++ b) = countEvents (isSetPureAt j) (a ++ b)
  /\ countEvents (isRequireAt j) (a ++ b) = countEvents (isCompleteAt j) (a ++ b).
Proof. rewrite !countEvents_app. lia. Qed.

Lemma blitEvents_balanced (i j : nat) (u : bool) (w : W)
    (slot : option TileTransferData) :
  countEvents (isRequireAt j) (blitEvents i u w slot)
  = countEvents (isTransferAt j) (blitEvents i u w slot)
  /\ countEvents (isRequireAt j) (blitEvents i u w slot)
     = countEvents (isSetPureAt j) (blitEvents i u w slot)
  /\ countEvents (isRequireAt j) (blitEvents i u w slot)
     = countEvents (isCompleteAt j) (blitEvents i u w slot).
Proof.
  unfold blitEvents. destruct slot as [d|]; [|done].
  destruct (status d); try done.
  destruct (checkObsolete w d).
  - by destruct (uploadType d).
  - destruct (savedTilePtr d ≫= backTexture w); [|by destruct (uploadType d)].
    destruct (uploadType d), u; unfold countEvents; cbn;
      destruct (bool_decide (i = j)); cbn; done.
Qed.

Lemma blitEvents_require (i j : nat) (u : bool) (w : W)
    (slot : option TileTransferData) :
  countEvents (isRequireAt j) (blitEvents i u w slot)
  <= if decide (i = j)
     then from_option (λ d, if decide (status d = pendingBlit) then 1 else 0)
            0 slot
     else 0.
Proof.
  unfold blitEvents, countEvents.
  destruct slot as [d|]; [|case_decide; cbn; lia].
  cbn [from_option].
  destruct (status d); try (repeat case_decide; cbn; lia).
  rewrite (decide_True (P := pendingBlit = pendingBlit)) by done.
  destruct (checkObsolete w d).
  - destruct (uploadType d); cbn; case_decide; lia.
  - destruct (savedTilePtr d ≫= backTexture w);
      destruct (uploadType d), u; cbn;
      try case_bool_decide; case_decide; cbn; try lia; congruence.
Qed.

(** X12.  In the log of a drain cycle every ring slot has as many texture
    materializations as pixel transfers (bitmap upload or blit), as non-pure
    markings and as transfer-complete markings: no destination is marked
    complete without having been written, or written without being marked.
    On a well-formed ring each of them happens at most once per slot, and
    not at all for a slot that was not PendingUpload. *)
Theorem uploads_marked_complete (q : TQ) (j : nat) :
  let L := newCalls q (updateDirtyTiles q) in
  countEvents (isRequireAt j) L = countEvents (isTransferAt j) L
  /\ countEvents (isRequireAt j) L = countEvents (isSetPureAt j) L
  /\ countEvents (isRequireAt j) L = countEvents (isCompleteAt j) L
  /\ (wf q ->
      countEvents (isRequireAt j) L <= 1
      /\ ((forall d, m_transferQueue q !! j = Some d -> status d <> pendingBlit) ->
          countEvents (isRequireAt j) L = 0)).
Proof.
  intros L. unfold L. rewrite updateDirtyTiles_log.
  set (quiet := λ evs : list Event,
         forall p, p = isRequireAt j \/ p = isTransferAt j
                   \/ p = isSetPureAt j \/ p = isCompleteAt j ->
                   countEvents p evs = 0).
  assert (quiet (newCalls q (cleanupPendingDiscard q))) as HD.
  { apply (cleanupPendingDiscard_newCalls quiet q).
    - intros p _. done.
    - intros a b Ha Hb p Hp. rewrite countEvents_app, Ha, Hb; done.
    - intros i w slot p Hp. unfold cleanupEvents.
      destruct slot as [d|]; [|done]. destruct (status d); try done.
      destruct (uploadType d), (stillOwned w d);
        destruct Hp as [->|[->|[->| ->]]]; done. }
  assert (quiet (newCalls (afterDiscards q) (afterPureColor q))) as HS.
  { intros p Hp. apply countEvents_none.
    eapply Forall_impl; [apply (afterPureColor_newCalls q)|].
    intros e He. destruct Hp as [->|[->|[->| ->]]]; destruct e as
      [| | | | | | | | | | [] | | | |]; done. }
  assert (quiet ((if fst (afterRingWalk q) then [EvRestoreGLState] else [])
                 ++ [EvSignal])) as HT.
  { intros p Hp. destruct (fst (afterRingWalk q));
      destruct Hp as [->|[->|[->| ->]]]; done. }
  set (R := newCalls (afterPureColor q) (snd (afterRingWalk q))) in *.
  assert (forall p, p = isRequireAt j \/ p = isTransferAt j
                    \/ p = isSetPureAt j \/ p = isCompleteAt j ->
            countEvents p
              (newCalls q (cleanupPendingDiscard q)
               ++ newCalls (afterDiscards q) (afterPureColor q)
               ++ R ++ (if fst (afterRingWalk q) then [EvRestoreGLState]
                        else []) ++ [EvSignal])
            = countEvents p R) as Honly.
  { intros p Hp. rewrite !countEvents_app.
    pose proof (HT p Hp) as HT'. rewrite countEvents_app in HT'.
    rewrite (HD p Hp), (HS p Hp). lia. }
  rewrite !Honly by auto.
  destruct (afterRingWalk_newCalls
              (λ evs, countEvents (isRequireAt j) evs
                      = countEvents (isTransferAt j) evs
                      /\ countEvents (isRequireAt j) evs
                         = countEvents (isSetPureAt j) evs
                      /\ countEvents (isRequireAt j) evs
                         = countEvents (isCompleteAt j) evs) q)
    as [E (B1 & B2 & B3)].
  { done. }
  { apply balanced_app. }
  { intros i u w slot. apply blitEvents_balanced. }
  fold R in E, B1, B2, B3.
  split; [done|]. split; [done|]. split; [done|].
  intros Hwf.
  pose proof (afterPureColor_wf q Hwf) as Hwf2.
  destruct (walk_full _ Hwf2) as [Hnd Hall].
  pose proof (countEvents_newCalls (isRequireAt j) _ _ _ E) as Hc.
  fold R in Hc.
  assert (countEvents (isRequireAt j) (calls (snd (afterRingWalk q)))
          <= countEvents (isRequireAt j) (calls (afterPureColor q))
             + from_option (λ d, if decide (status d = pendingBlit) then 1 else 0)
                 0 (m_transferQueue (afterPureColor q) !! j)) as Hle.
  { unfold afterRingWalk. rewrite blitLoop_fold. cbn [snd].
    pose proof (foldl_step_count_le (λ i st, blitBody i st)
                  (λ st, m_transferQueue (snd st)) releaseBlit blitBody_ring
                  (λ st, countEvents (isRequireAt j) (calls (snd st)))
                  (λ d, if decide (status d = pendingBlit) then 1 else 0) j)
      as Hfold.
    cbn [snd] in Hfold. etransitivity; [apply Hfold; [|exact Hnd]|].
    - intros i s. rewrite blitBody_calls, countEvents_app.
      pose proof (blitEvents_require i j (fst s) (tiles (snd s))
                    (m_transferQueue (snd s) !! i)).
      case_decide; lia.
    - cbn [snd]. case_decide as Hj; [lia|]. rewrite Hall in Hj.
      rewrite lookup_ge_None_2 by lia. cbn. lia. }
  destruct (afterPureColor_frame q) as (Rq & _). rewrite Rq in Hle.
  rewrite cleanupPendingDiscard_ring, list_lookup_fmap in Hle by done.
  split.
  - destruct (m_transferQueue q !! j) as [d|];
      cbn [from_option fmap option_fmap option_map] in Hle; [|lia].
    case_decide; lia.
  - intros Hnot. destruct (m_transferQueue q !! j) as [d|] eqn:Hd;
      cbn [from_option fmap option_fmap option_map] in Hle; [|lia].
    specialize (Hnot d eq_refl).
    rewrite decide_False in Hle; [lia|].
    unfold resolveDiscard. destruct (status d) eqn:Hs; cbn; congruence.
Qed.

End DrainLog.

Section FboLog.
Context {W : Type} `{TileWorld W}.

#[local] Abbreviation TQ := (TransferQueue W).

Lemma blitBody_usedFbo (i : nat) (st : bool * TQ) :
  fst (blitBody i st)
  = fst st || takesBlitPath (tiles (snd st)) (m_transferQueue (snd st) !! i).
Proof.
  destruct st as [u q]. change (snd (u, q)) with q. change (fst (u, q)) with u.
  unfold blitBody, takesBlitPath.
  destruct (m_transferQueue q !! i) as [d|]; [|by rewrite orb_false_r].
  destruct (status d); try by rewrite orb_false_r.
  destruct (checkObsolete (tiles q) d).
  - destruct (uploadType d); cbn; by rewrite orb_false_r.
  - destruct (savedTilePtr d ≫= backTexture (tiles q));
      destruct (uploadType d), u; done.
Qed.

Lemma blitEvents_fbo (i : nat) (u : bool) (w : W)
    (slot : option TileTransferData) :
  countEvents isSaveGLState (blitEvents i u w slot)
  = (if negb u && takesBlitPath w slot then 1 else 0)
  /\ countEvents isBlit (blitEvents i u w slot)
     = (if takesBlitPath w slot then 1 else 0).
Proof.
  unfold blitEvents, takesBlitPath, countEvents.
  destruct slot as [d|]; [|by destruct u].
  destruct (status d); try by destruct u.
  destruct (checkObsolete w d).
  - by destruct (uploadType d), u.
  - destruct (savedTilePtr d ≫= backTexture w);
      by destruct (uploadType d), u.
Qed.

(** Over any stretch of the ring walk: the state is saved when, and only
    when, the walk first takes the blit path. *)
Lemma blitWalk_fbo (l : list nat) (st : bool * TQ) :
  let st' := foldl (λ st i, blitBody i st) st l in
  countEvents isSaveGLState (calls (snd st'))
  = countEvents isSaveGLState (calls (snd st))
    + (if negb (fst st) && fst st' then 1 else 0)
  /\ countEvents isBlit (calls (snd st)) <= countEvents isBlit (calls (snd st'))
  /\ fst st'
     = fst st
       || negb (countEvents isBlit (calls (snd st'))
                =? countEvents isBlit (calls (snd st))).
Proof.
  revert st. induction l as [|a l IH]; intros st st'.
  - unfold st'. cbn [foldl]. rewrite Nat.eqb_refl.
    destruct (fst st); cbn; repeat split; lia.
  - unfold st'. cbn [foldl].
    specialize (IH (blitBody a st)). cbv zeta in IH.
    destruct IH as (I1 & I2 & I3).
    set (st2 := foldl (λ st i, blitBody i st) (blitBody a st) l) in *.
    pose proof (blitBody_usedFbo a st) as Hu.
    pose proof (blitBody_calls a st) as Hc.
    destruct (blitEvents_fbo a (fst st) (tiles (snd st))
                (m_transferQueue (snd st) !! a)) as [Hs Hb].
    rewrite Hc, countEvents_app in I1, I2, I3.
    rewrite Hs in I1. rewrite Hb in I2, I3. rewrite Hu in I1, I3.
    rewrite I1, I3.
    destruct (fst st), (takesBlitPath _ _); cbn in *.
    + repeat split; lia.
    + repeat split; lia.
    + repeat split; try lia.
      symmetry. apply negb_true_iff, Nat.eqb_neq. lia.
    + repeat split; try lia. by rewrite Nat.add_0_r.
Qed.

(** X13.  A drain cycle saves the GL state at most once and restores it
    exactly as often; it does so if and only if the cycle blits at least
    one slot, so a cycle of direct uploads, stale entries and discards
    leaves the GL state alone. *)
Theorem gl_state_saved_once (q : TQ) :
  let L := newCalls q (updateDirtyTiles q) in
  countEvents isSaveGLState L = countEvents isRestoreGLState L
  /\ countEvents isSaveGLState L <= 1
  /\ (countEvents isSaveGLState L = 1 <-> 0 < countEvents isBlit L).
Proof.
  intros L. unfold L. rewrite updateDirtyTiles_log.
  set (quiet := λ evs : list Event,
         forall p, p = isSaveGLState \/ p = isRestoreGLState \/ p = isBlit ->
                   countEvents p evs = 0).
  assert (quiet (newCalls q (cleanupPendingDiscard q))) as HD.
  { apply (cleanupPendingDiscard_newCalls quiet q).
    - intros p _. done.
    - intros a b Ha Hb p Hp. rewrite countEvents_app, Ha, Hb; done.
    - intros i w slot p Hp. unfold cleanupEvents.
      destruct slot as [d|]; [|done]. destruct (status d); try done.
      destruct (uploadType d), (stillOwned w d);
        destruct Hp as [->|[->| ->]]; done. }
  assert (quiet (newCalls (afterDiscards q) (afterPureColor q))) as HS.
  { intros p Hp. apply countEvents_none.
    eapply Forall_impl; [apply (afterPureColor_newCalls q)|].
    intros e He. destruct Hp as [->|[->| ->]]; by destruct e. }
  set (R := newCalls (afterPureColor q) (snd (afterRingWalk q))) in *.
  destruct (afterRingWalk_newCalls
              (λ evs, countEvents isRestoreGLState evs = 0) q) as [E HR].
  { done. }
  { intros a b Ha Hb. rewrite countEvents_app. lia. }
  { intros i u w slot. unfold blitEvents.
    destruct slot as [d|]; [|done]. destruct (status d); try done.
    destruct (checkObsolete w d); [by destruct (uploadType d)|].
    destruct (savedTilePtr d ≫= backTexture w);
      by destruct (uploadType d), u. }
  fold R in E, HR.
  pose proof (countEvents_newCalls isSaveGLState _ _ _ E) as Hsave.
  pose proof (countEvents_newCalls isBlit _ _ _ E) as Hblit.
  fold R in Hsave, Hblit.
  pose proof (blitWalk_fbo
                (walkFrom (m_transferQueueSize (afterPureColor q))
                   (getNextTransferQueueIndex (afterPureColor q))
                   (m_transferQueueSize (afterPureColor q)))
                (false, afterPureColor q)) as Hwalk.
  cbv zeta in Hwalk. rewrite <- blitLoop_fold in Hwalk.
  fold (afterRingWalk q) in Hwalk. cbn [fst snd negb andb orb] in Hwalk.
  destruct Hwalk as (W1 & W2 & W3).
  rewrite !countEvents_app.
  rewrite (HD isSaveGLState), (HD isRestoreGLState), (HD isBlit) by auto.
  rewrite (HS isSaveGLState), (HS isRestoreGLState), (HS isBlit) by auto.
  rewrite HR.
  destruct (fst (afterRingWalk q)) eqn:Hu.
  - symmetry in W3. apply negb_true_iff, Nat.eqb_neq in W3.
    change (countEvents isSaveGLState [EvRestoreGLState]) with 0.
    change (countEvents isRestoreGLState [EvRestoreGLState]) with 1.
    change (countEvents isBlit [EvRestoreGLState]) with 0.
    change (countEvents isSaveGLState [EvSignal]) with 0.
    change (countEvents isRestoreGLState [EvSignal]) with 0.
    change (countEvents isBlit [EvSignal]) with 0.
    repeat split; lia.
  - symmetry in W3. apply negb_false_iff, Nat.eqb_eq in W3.
    change (countEvents isSaveGLState []) with 0.
    change (countEvents isRestoreGLState []) with 0.
    change (countEvents isBlit []) with 0.
    change (countEvents isSaveGLState [EvSignal]) with 0.
    change (countEvents isRestoreGLState [EvSignal]) with 0.
    change (countEvents isBlit [EvSignal]) with 0.
    repeat split; lia.
Qed.

End FboLog.

(** A sum or difference that fits in an [int] is not changed by the
    wrap-around. *)
Lemma wrapInt_small (z : Z) :
  (- 2 ^ 31 <= z < 2 ^ 31)%Z -> wrapInt z = z.
Proof.
  intros Hz. unfold wrapInt. rewrite Z.mod_small; lia.
Qed.

Section GLResources.

Lemma GL_cleanup_zeroes (r : GL.Resources) :
  GL.m_sharedSurfaceTextureId (fst (GL.cleanupGLResources r)) = 0
  /\ GL.m_fboID (fst (GL.cleanupGLResources r)) = 0.
Proof.
  destruct r as [tex fbo surface anw]. unfold GL.cleanupGLResources.
  cbn [GL.m_sharedSurfaceTexture GL.m_fboID GL.m_sharedSurfaceTextureId
       GL.m_ANW].
  destruct surface as [s|], (Nat.eqb_spec fbo 0) as [->|Hf],
    (Nat.eqb_spec tex 0) as [->|Ht]; cbn; done.
Qed.

(** X14.  [cleanupGLResources] releases everything once: afterwards both GL
    names are 0 and the surface texture is null, the native window handle
    is left as it was, and a second cleanup makes no GL call and changes
    nothing. *)
Theorem cleanupGLResources_idempotent (r : GL.Resources) :
  let r' := fst (GL.cleanupGLResources r) in
  GL.m_sharedSurfaceTextureId r' = 0
  /\ GL.m_fboID r' = 0
  /\ GL.m_sharedSurfaceTexture r' = None
  /\ GL.m_ANW r' = GL.m_ANW r
  /\ GL.cleanupGLResources r' = (r', []).
Proof.
  destruct r as [tex fbo surface anw]. unfold GL.cleanupGLResources.
  cbn [GL.m_sharedSurfaceTexture GL.m_fboID GL.m_sharedSurfaceTextureId
       GL.m_ANW].
  destruct surface as [s|], (Nat.eqb_spec fbo 0) as [->|Hf],
    (Nat.eqb_spec tex 0) as [->|Ht]; cbn; done.
Qed.

(** X15.  [initGLResources] creates each resource once: when the driver
    hands out non-zero names, a second call makes no GL call and changes
    nothing, whatever size it asks for, so the buffer geometry of the first
    call stays. *)
Theorem initGLResources_once (size size' newTexture newFbo newTexture'
    newFbo' : nat) (extra extra' width height width' height' : Z)
    (r : GL.Resources) :
  newTexture <> 0 -> newFbo <> 0 ->
  let r1 := fst (GL.initGLResources size newTexture newFbo extra width height
                   r) in
  GL.m_sharedSurfaceTextureId r1 <> 0
  /\ GL.m_fboID r1 <> 0
  /\ GL.initGLResources size' newTexture' newFbo' extra' width' height' r1
     = (r1, []).
Proof.
  intros Ht Hf.
  destruct r as [[|tex] [|fbo] surface anw], newTexture as [|t],
    newFbo as [|f]; try done; cbn; done.
Qed.

(** X16.  After [cleanupGLResources], whatever the members held before,
    [initGLResources] builds everything anew: texture, surface texture
    whose buffer count is the [int] sum
    [m_transferQueueSize + extraBuffersNeeded] (the exact sum whenever that
    fits in an [int]), window and framebuffer; and the cleanup that follows
    releases exactly the names that were generated. *)
Theorem initGLResources_after_cleanup (size newTexture newFbo : nat)
    (extra width height : Z) (r : GL.Resources) :
  let r0 := fst (GL.cleanupGLResources r) in
  let built := GL.mkResources newTexture newFbo (Some newTexture)
                 (Some newTexture) in
  GL.initGLResources size newTexture newFbo extra width height r0
  = (built,
     [GL.GenTextures newTexture; GL.NewSurfaceTexture newTexture;
      GL.NewSurfaceTextureClient newTexture; GL.SetSynchronousMode true;
      GL.QueryMinUndequeuedBuffers;
      GL.SetBufferCount (wrapInt (Z.of_nat size + extra));
      GL.SetBuffersGeometry width height; GL.SetUsage;
      GL.GenFramebuffers newFbo])
  /\ ((- 2 ^ 31 <= Z.of_nat size + extra < 2 ^ 31)%Z ->
      wrapInt (Z.of_nat size + extra) = (Z.of_nat size + extra)%Z)
  /\ (newTexture <> 0 -> newFbo <> 0 ->
      GL.cleanupGLResources built
      = (GL.mkResources 0 0 None (Some newTexture),
         [GL.Abandon newTexture; GL.DeleteFramebuffers newFbo;
          GL.DeleteTextures newTexture])).
Proof.
  intros r0 built. split; [|split].
  - destruct (GL_cleanup_zeroes r) as (E1 & E2). fold r0 in E1, E2.
    destruct r0 as [tex fbo surface anw]. cbn in E1, E2. subst tex fbo.
    done.
  - apply wrapInt_small.
  - intros Ht Hf. unfold GL.cleanupGLResources, built. cbn.
    destruct (Nat.eqb_spec newFbo 0), (Nat.eqb_spec newTexture 0); done.
Qed.

End GLResources.

Section GLStateRoundTrip.

(** X17.  [restoreGLState] after [saveGLState] brings back the viewport and
    re-enables the scissor and depth tests that were on: it undoes
    [setGLStateForCopy] exactly and leaves an untouched state as it is, but
    it never disables a test, so one switched on in between stays on. *)
Theorem restoreGLState_round_trip (gl gl' : GLState) (width height : Z) :
  restoreGLState (saveGLState gl) (setGLStateForCopy width height gl') = gl
  /\ restoreGLState (saveGLState gl) gl = gl
  /\ restoreGLState (saveGLState gl) gl'
     = mkGLState (gl_viewport gl) (gl_scissorTest gl || gl_scissorTest gl')
         (gl_depthTest gl || gl_depthTest gl').
Proof.
  destruct gl as [vp [] []], gl' as [vp' [] []]; done.
Qed.

End GLStateRoundTrip.

Section BlitRegion.
Context {W : Type} `{TileWorld W}.

(** X18.  What the blit copies for a queued request.  The slot's dirty
    region has the request rectangle's origin and its width and height as
    [SkIRect::width()] and [height()] compute them in [int] (the exact
    differences whenever those fit).  Without a rectangle, or when that
    width or height is not positive, the whole destination is copied from
    the shared texture and the front texture is not read.  Otherwise the
    front texture, when the tile has one, is first copied over the whole
    destination, then the region of that size at the origin of the shared
    texture is copied to the rectangle's position. *)
Theorem blit_region_of_request (w : W) (r : TileRenderInfo)
    (type : TextureUploadType) (d0 : TileTransferData) (fboID : nat)
    (destTex : TextureInfo) (frontTex : option TextureInfo) (srcTexId : nat) :
  let inval := invalRect (addItemCommon w r type d0) in
  let whole := CopyTexSubImage2D 0 0 0 0 (textureWidth destTex)
                 (textureHeight destTex) in
  let full := [BindFramebuffer fboID; BindTexture (m_ownTextureId destTex);
               FramebufferTexture2D srcTexId; whole] in
  blitTileFromQueue fboID destTex frontTex srcTexId inval
  = match invalRectPtr r with
    | None => full
    | Some rect =>
        let width := wrapInt (fRight rect - fLeft rect) in
        let height := wrapInt (fBottom rect - fTop rect) in
        if (0 <? width)%Z && (0 <? height)%Z
        then [BindFramebuffer fboID; BindTexture (m_ownTextureId destTex)]
             ++ match frontTex with
                | Some front =>
                    [FramebufferTexture2D (m_ownTextureId front); whole]
                | None => []
                end
             ++ [FramebufferTexture2D srcTexId;
                 CopyTexSubImage2D (fLeft rect) (fTop rect) 0 0 width height]
        else full
    end
  /\ (forall rect, invalRectPtr r = Some rect ->
        (- 2 ^ 31 <= fRight rect - fLeft rect < 2 ^ 31)%Z ->
        (- 2 ^ 31 <= fBottom rect - fTop rect < 2 ^ 31)%Z ->
        rwidth inval = (fRight rect - fLeft rect)%Z
        /\ rheight inval = (fBottom rect - fTop rect)%Z).
Proof.
  intros inval whole full. split.
  - unfold inval, addItemCommon, blitTileFromQueue.
    cbn [invalRect]. unfold IntRect_isEmpty.
    destruct (invalRectPtr r) as [rect|]; cbn [rx ry rwidth rheight].
    + cbv zeta.
      destruct (Z.ltb_spec 0 (wrapInt (fRight rect - fLeft rect))) as [Hx|Hx],
        (Z.ltb_spec 0 (wrapInt (fBottom rect - fTop rect))) as [Hy|Hy];
        destruct (Z.leb_spec (wrapInt (fRight rect - fLeft rect)) 0),
          (Z.leb_spec (wrapInt (fBottom rect - fTop rect)) 0); try lia;
        cbn [negb andb orb]; try done; by destruct frontTex.
    + by destruct frontTex.
  - intros rect Hr Hw Hh. unfold inval, addItemCommon. cbn [invalRect].
    rewrite Hr. cbn [rwidth rheight]. by rewrite !wrapInt_small.
Qed.

End BlitRegion.

Section Window.
Context {W : Type} `{TileWorld W}.

#[local] Abbreviation TQ := (TransferQueue W).

(** X19.  A GpuUpload update that finds the context and a free slot still
    fails when the native window is null (it is until [initGLResources] has
    run) or when the write to the shared surface fails: no slot is taken,
    and the request's tile, if the request carries one, is told of the
    failure; with a null [baseTile] nothing is called.  Once
    [initGLResources] has run, a successful write is followed by the
    enqueue. *)
Theorem gpu_update_needs_window (others : TQ -> TQ) (writeOk : bool)
    (r : TileRenderInfo) (bmp : SkBitmap) (q : TQ) :
  m_hasGLContext q = true -> m_emptyItemCount q <> 0%Z ->
  m_currentUploadType q = GpuUpload ->
  let fail (q : TQ) :=
    match baseTile r with
    | Some tile =>
        call (EvBackTextureTransferFail tile) (backTextureTransferFail tile) q
    | None => q
    end in
  (m_ANW q = false -> updateQueueWithBitmap others writeOk r bmp q = fail q)
  /\ (m_ANW q = true ->
      updateQueueWithBitmap others false r bmp q
      = fail (emit (EvSharedSurfaceWrite bmp false) q))
  /\ updateQueueWithBitmap others true r bmp (initGLResources q)
     = addItemInTransferQueue r GpuUpload (Some bmp)
         (emit (EvSharedSurfaceWrite bmp true) (initGLResources q)).
Proof.
  intros Hgl Hcount Hty fail.
  apply Z.eqb_neq in Hcount.
  assert (forall q0 : TQ,
            m_hasGLContext q0 = true -> (m_emptyItemCount q0 =? 0)%Z = false ->
            readyForUpdate others q0 = (true, q0)) as Hready.
  { intros q0 E1 E2. unfold readyForUpdate, getHasGLContext.
    by rewrite E1, E2. }
  repeat split.
  - intros Hanw. unfold updateQueueWithBitmap, tryUpdateQueueWithBitmap.
    rewrite (Hready q Hgl Hcount). cbn [negb]. by rewrite Hty, Hanw.
  - intros Hanw. unfold updateQueueWithBitmap, tryUpdateQueueWithBitmap.
    rewrite (Hready q Hgl Hcount). cbn [negb]. by rewrite Hty, Hanw.
  - unfold updateQueueWithBitmap, tryUpdateQueueWithBitmap.
    rewrite (Hready (initGLResources q) Hgl Hcount). cbn [negb].
    change (m_currentUploadType (initGLResources q))
      with (m_currentUploadType q).
    by rewrite Hty.
Qed.

End Window.

Section RoundTrip.
Context {W : Type} `{TileWorld W}.

#[local] Abbreviation TQ := (TransferQueue W).

(** A walk over a ring whose only slot that may be pending is [j] runs the
    body at [j] and nothing else. *)
Lemma blitWalk_single (j : nat) (l : list nat) (st : bool * TQ) :
  NoDup l ->
  (forall i d, i <> j -> m_transferQueue (snd st) !! i = Some d ->
     status d = emptyItem) ->
  foldl (λ st i, blitBody i st) st l
  = if decide (j ∈ l) then blitBody j st else st.
Proof.
  assert (forall (i : nat) (s : bool * TQ),
            (forall d, m_transferQueue (snd s) !! i = Some d ->
               status d = emptyItem) ->
            blitBody i s = s) as Hidle.
  { intros i [u q] Hi. change (snd (u, q)) with q in Hi. unfold blitBody.
    destruct (m_transferQueue q !! i) as [d|] eqn:Hd; [|done].
    by rewrite (Hi d eq_refl). }
  revert st. induction l as [|a l IH]; intros st Hnd Hrest.
  - cbn [foldl]. by rewrite decide_False by apply not_elem_of_nil.
  - apply NoDup_cons in Hnd as [Ha Hnd]. cbn [foldl].
    destruct (decide (a = j)) as [->|Haj].
    + rewrite (decide_True (P := j ∈ j :: l)) by apply list_elem_of_here.
      rewrite IH; [by rewrite decide_False| done |].
      intros i d Hij. rewrite blitBody_ring, list_lookup_alter_ne by done.
      by apply Hrest.
    + rewrite (Hidle a st) by (intros d; by apply Hrest).
      rewrite IH by done.
      destruct (decide (j ∈ l)).
      * rewrite decide_True by (by apply list_elem_of_further). done.
      * rewrite decide_False; [done|].
        rewrite elem_of_cons. intros [->|?]; done.
Qed.

(** The log of a drain that finds one pending entry, at slot [j]. *)
Lemma drain_single (q : TQ) (j : nat) (d : TileTransferData) :
  wf q -> m_pureColorTileQueue q = [] ->
  m_transferQueue q !! j = Some d -> status d = pendingBlit ->
  (forall i x, i <> j -> m_transferQueue q !! i = Some x ->
     status x = emptyItem) ->
  newCalls q (updateDirtyTiles q)
  = blitEvents j false (tiles q) (Some d)
    ++ (if takesBlitPath (tiles q) (Some d) then [EvRestoreGLState] else [])
    ++ [EvSignal].
Proof.
  intros Hwf Hside Hj Hs Hrest.
  assert (cleanupPendingDiscard q = q) as Hclean.
  { apply cleanupLoop_none_pending, Forall_lookup. intros i x Hx.
    destruct (decide (i = j)) as [->|Hij].
    - replace x with d by congruence. by rewrite Hs.
    - by rewrite (Hrest i x Hij Hx). }
  set (q3 := set_pureColorTileQueue []
               (if negb (getHasGLContext q) then setHasGLContext true q
                else q)).
  assert (afterPureColor q = q3) as Hq3.
  { unfold afterPureColor, afterDiscards, updatePureColorTiles, q3.
    rewrite Hclean.
    by destruct (getHasGLContext q); cbn; rewrite Hside. }
  assert (m_transferQueue q3 = m_transferQueue q
          /\ m_transferQueueSize q3 = m_transferQueueSize q
          /\ m_transferQueueIndex q3 = m_transferQueueIndex q
          /\ tiles q3 = tiles q /\ calls q3 = calls q)
    as (R3 & S3 & I3 & T3 & C3).
  { unfold q3. by destruct (getHasGLContext q). }
  assert (wf q3) as Hwf3.
  { unfold wf. rewrite R3, S3, I3. exact Hwf. }
  assert (afterRingWalk q = blitBody j (false, q3)) as Hwalk.
  { unfold afterRingWalk. rewrite Hq3, blitLoop_fold.
    change (snd (false, q3)) with q3.
    destruct (walk_full q3 Hwf3) as [Hnd Hin].
    rewrite (blitWalk_single j _ _ Hnd);
      [|intros i x Hij Hx; cbn [snd] in Hx; rewrite R3 in Hx;
        by apply (Hrest i x)].
    rewrite decide_True; [done|].
    apply Hin. rewrite R3. by eapply lookup_lt_Some. }
  apply newCalls_app.
  rewrite updateDirtyTiles_stages, Hwalk.
  pose proof (blitBody_calls j (false, q3)) as Hc.
  pose proof (blitBody_usedFbo j (false, q3)) as Hu.
  change (snd (false, q3)) with q3 in Hc, Hu.
  change (fst (false, q3)) with false in Hc, Hu.
  rewrite R3, Hj, T3, C3 in Hc. rewrite R3, Hj, T3 in Hu.
  cbn [orb] in Hu. rewrite Hu.
  destruct (takesBlitPath (tiles q) (Some d));
    unfold emit, set_emptyItemCount; cbn [calls]; rewrite Hc;
    by rewrite <- ?app_assoc.
Qed.

(** X20.  Enqueue and drain round trip.  On a queue with nothing pending,
    a request that is enqueued and then drained reaches its tile exactly
    when the tile still holds the back texture it held at enqueue time:
    that texture is materialized, receives the request's bitmap and dirty
    rectangle (direct upload) or a blit of that rectangle between one save
    and one restore of the GL state (shared-surface upload, after one
    [updateTexImage]), is marked not pure and transfer-complete.  If the
    tile held no back texture then, or holds none or another one now, the
    slot is emptied and nothing reaches any texture.  Either way the ring is
    all Empty afterwards. *)
Theorem enqueue_drain_round_trip (r : TileRenderInfo)
    (type : TextureUploadType) (bmp : SkBitmap) (w' : W) (q : TQ) :
  wf q ->
  Forall (λ d, status d = emptyItem) (m_transferQueue q) ->
  m_pureColorTileQueue q = [] ->
  let j := getNextTransferQueueIndex q in
  let t := baseTile r in
  let q1 := set_tiles w' (addItemInTransferQueue r type (Some bmp) q) in
  exists d1,
    m_transferQueue q1 !! j = Some d1
    /\ newCalls q1 (updateDirtyTiles q1)
       = match type with
         | GpuUpload => [EvUpdateTexImage j]
         | CpuUpload => []
         end
         ++ [EvSlotEmptied j (releaseBlit d1)]
         ++ match t ≫= backTexture (tiles q), t ≫= backTexture w' with
            | Some x, Some y =>
                if bool_decide (x = y)
                then [EvRequireGLTexture j y]
                     ++ match type with
                        | CpuUpload =>
                            [EvUpdateTextureWithBitmap j y (Some bmp)
                               (invalRect d1)]
                        | GpuUpload =>
                            [EvSaveGLState;
                             EvBlit j y (t ≫= frontTexture w')
                               (invalRect d1)]
                        end
                     ++ [EvSetPure j y false; EvTransferComplete (Ring j) y]
                     ++ match type with
                        | GpuUpload => [EvRestoreGLState]
                        | CpuUpload => []
                        end
                else []
            | _, _ => []
            end
         ++ [EvSignal]
    /\ invalRect d1 = invalRect (addItemCommon (tiles q) r type d1)
    /\ Forall (λ d, status d = emptyItem)
         (m_transferQueue (updateDirtyTiles q1)).
Proof.
  intros Hwf Hall Hside j t q1.
  destruct (Hwf) as (Hpos & Hlen & Hidx).
  assert (j < length (m_transferQueue q)) as Hnext
    by (rewrite Hlen; apply Nat.mod_upper_bound; lia).
  destruct (lookup_lt_is_Some_2 _ _ Hnext) as [old Hold].
  set (d1 := mkData pendingBlit t (t ≫= backTexture (tiles q)) type
               (match type with CpuUpload => Some bmp | GpuUpload => bitmap old end)
               (invalRect (addItemCommon (tiles q) r type old))
               (pureColor old)).
  assert (m_transferQueue q1 = <[j := d1]> (m_transferQueue q)
          /\ m_transferQueueSize q1 = m_transferQueueSize q
          /\ m_transferQueueIndex q1 = j
          /\ m_pureColorTileQueue q1 = m_pureColorTileQueue q
          /\ tiles q1 = w') as (R1 & S1 & I1 & P1 & T1).
  { unfold q1, addItemInTransferQueue. cbn.
    fold (getNextTransferQueueIndex q). fold j. rewrite Hold. cbn.
    repeat split. unfold d1, addItemCommon. by destruct type. }
  assert (wf q1) as Hwf1.
  { unfold wf. rewrite R1, S1, I1, length_insert.
    repeat split; [done|done|]. apply Nat.mod_upper_bound. lia. }
  assert (m_transferQueue q1 !! j = Some d1) as Hj
    by (rewrite R1; by apply list_lookup_insert_eq).
  exists d1. split; [exact Hj|]. split; [|split].
  - rewrite (drain_single q1 j d1 Hwf1); [|by rewrite P1|exact Hj|done|].
    2:{ intros i x Hij Hx. rewrite R1, list_lookup_insert_ne in Hx by done.
        rewrite Forall_lookup in Hall. by apply (Hall i x). }
    rewrite T1. unfold blitEvents, takesBlitPath, checkObsolete, ptr_eqb.
    cbn [status savedTilePtr savedTileTexturePtr uploadType bitmap invalRect
         d1 mbind option_bind].
    clear Hj R1. subst t d1.
    destruct (baseTile r) as [t|]; cbn [mbind option_bind];
      [|destruct type; cbn; done].
    destruct (backTexture w' t) as [y|] eqn:Hy.
    + destruct (backTexture (tiles q) t) as [x|] eqn:Hx.
      * destruct (decide (x = y)) as [->|Hne].
        -- rewrite !bool_decide_eq_true_2 by done.
           destruct type; cbn; by rewrite <- ?app_assoc.
        -- rewrite (bool_decide_eq_false_2 (Some y = Some x)) by congruence.
           rewrite (bool_decide_eq_false_2 (x = y)) by done.
           destruct type; cbn; done.
      * rewrite (bool_decide_eq_false_2 (Some y = None)) by done.
        destruct type; cbn; done.
    + rewrite (bool_decide_eq_false_2 (is_Some None))
        by (intros [? [=]]).
      destruct (backTexture (tiles q) t); destruct type; cbn; done.
  - unfold d1, addItemCommon. done.
  - by apply updateDirtyTiles_all_empty.
Qed.

End RoundTrip.

(** ** Instances *)

Lemma setPendingDiscard_idempotent_witness :
  length (m_transferQueue oneQueuedGpu) = m_transferQueueSize oneQueuedGpu
  /\ setPendingDiscard (setPendingDiscard oneQueuedGpu)
     = setPendingDiscard oneQueuedGpu.
Proof.
  assert (length (m_transferQueue oneQueuedGpu)
          = m_transferQueueSize oneQueuedGpu) as Hlen by (vm_compute; reflexivity).
  split; [exact Hlen|].
  exact (setPendingDiscard_idempotent oneQueuedGpu Hlen).
Defined.

Lemma cleanupPendingDiscard_idempotent_witness :
  wf discardedThenPure
  /\ cleanupPendingDiscard (cleanupPendingDiscard discardedThenPure)
     = cleanupPendingDiscard discardedThenPure.
Proof.
  assert (wf discardedThenPure) as Hwf
    by (unfold wf; vm_compute; repeat split; lia).
  split; [exact Hwf|].
  exact (proj2 (proj2 (cleanupPendingDiscard_idempotent discardedThenPure Hwf))).
Defined.

Lemma emptyQueue_effect_witness :
  wf oneQueuedGpu
  /\ Forall (λ d, status d = emptyItem) (m_transferQueue (emptyQueue oneQueuedGpu)).
Proof.
  assert (wf oneQueuedGpu) as Hwf by (unfold wf; vm_compute; repeat split; lia).
  split; [exact Hwf|].
  exact (proj1 (emptyQueue_effect oneQueuedGpu Hwf)).
Defined.

Lemma drain_readmits_witness :
  wf fullSmallQueue
  /\ m_currentUploadType fullSmallQueue = CpuUpload
  /\ tryUpdateQueueWithBitmap id true (requestFor 2) [2%Z]
       (updateDirtyTiles fullSmallQueue)
     = (true, addItemInTransferQueue (requestFor 2) CpuUpload (Some [2%Z])
                (updateDirtyTiles fullSmallQueue)).
Proof.
  assert (wf fullSmallQueue) as Hwf by (unfold wf; vm_compute; repeat split; lia).
  split; [exact Hwf|]. split; [reflexivity|].
  exact (proj2 (drain_readmits id true (requestFor 2) [2%Z] fullSmallQueue Hwf)
           eq_refl).
Defined.

Lemma blocked_producer_released_witness :
  m_hasGLContext fullSmallQueue = true
  /\ m_emptyItemCount fullSmallQueue = 0%Z
  /\ m_interruptedByRemovingOp fullSmallQueue = false
  /\ wf fullSmallQueue
  /\ readyForUpdate updateDirtyTiles fullSmallQueue
     = (true, updateDirtyTiles (emit EvWait fullSmallQueue)).
Proof.
  assert (wf fullSmallQueue) as Hwf by (unfold wf; vm_compute; repeat split; lia).
  split; [reflexivity|]. split; [reflexivity|]. split; [reflexivity|].
  split; [exact Hwf|].
  exact (proj1 (proj2 (proj2 (proj2
           (blocked_producer_released fullSmallQueue eq_refl eq_refl eq_refl)))
           Hwf)).
Defined.

Lemma updates_admitted_up_to_count_witness :
  let q := TransferQueue_new CpuUpload false paintedTiles in
  let rs := [requestFor 1; requestFor 2] in
  wf q /\ m_hasGLContext q = true /\ m_currentUploadType q = CpuUpload
  /\ (Z.of_nat (length rs) <= m_emptyItemCount q)%Z
  /\ fst (serveAll (updateRequests id true [1%Z] rs) q)
     = replicate (length rs) (Some true).
Proof.
  cbv zeta.
  assert (wf (TransferQueue_new CpuUpload false paintedTiles)) as Hwf
    by (unfold wf; vm_compute; repeat split; lia).
  assert (Z.of_nat (length [requestFor 1%nat; requestFor 2%nat])
          <= m_emptyItemCount (TransferQueue_new CpuUpload false paintedTiles))%Z
    as Hle by (vm_compute; discriminate).
  split; [exact Hwf|]. split; [reflexivity|]. split; [reflexivity|].
  split; [exact Hle|].
  exact (proj1 (updates_admitted_up_to_count id true [1%Z]
                  [requestFor 1; requestFor 2]
                  (TransferQueue_new CpuUpload false paintedTiles)
                  Hwf eq_refl (or_introl eq_refl) Hle)).
Defined.

Lemma updates_refused_without_context_witness :
  let q := setPendingDiscard oneQueuedGpu in
  m_hasGLContext q = false
  /\ fst (serveAll (updateRequests id true [2%Z] [requestFor 2]) q)
     = [Some false].
Proof.
  cbv zeta. split; [reflexivity|].
  exact (proj1 (updates_refused_without_context id true [2%Z] [requestFor 2]
                  (setPendingDiscard oneQueuedGpu) eq_refl)).
Defined.

Lemma pure_colour_round_trip_witness :
  m_pureColorTileQueue oneQueuedGpu = []
  /\ calls (updatePureColorTiles
              (set_tiles paintedTiles
                 (addItemInPureColorQueue (requestFor 4) oneQueuedGpu)))
     = calls oneQueuedGpu
       ++ [EvSetPureColor 0 104 0%Z; EvTransferComplete (Side 0) 104].
Proof.
  split; [reflexivity|].
  exact (proj1 (pure_colour_round_trip (requestFor 4) paintedTiles oneQueuedGpu
                  eq_refl)).
Defined.

Lemma slot_contents_stable_witness :
  wf oneQueuedGpu
  /\ m_transferQueue oneQueuedGpu !! 0 = Some (TileTransferData_new GpuUpload)
  /\ 0 <> getNextTransferQueueIndex oneQueuedGpu
  /\ m_transferQueue
       (runOp (OpEnqueue (requestFor 2) GpuUpload None) oneQueuedGpu) !! 0
     = Some (TileTransferData_new GpuUpload).
Proof.
  assert (wf oneQueuedGpu) as Hwf by (unfold wf; vm_compute; repeat split; lia).
  assert (0 <> getNextTransferQueueIndex oneQueuedGpu) as Hne
    by (vm_compute; lia).
  split; [exact Hwf|]. split; [reflexivity|]. split; [exact Hne|].
  exact (slot_contents_stable (OpEnqueue (requestFor 2) GpuUpload None)
           oneQueuedGpu 0 (TileTransferData_new GpuUpload) Hwf eq_refl Hne).
Defined.

Lemma ring_full_after_capacity_witness :
  let q0 := TransferQueue_new CpuUpload true paintedTiles in
  wf q0 /\ length [requestFor 1] = m_transferQueueSize q0
  /\ Forall (λ d, status d = pendingBlit)
       (m_transferQueue (enqueueAll [requestFor 1] CpuUpload (Some [1%Z]) q0)).
Proof.
  cbv zeta.
  assert (wf (TransferQueue_new CpuUpload true paintedTiles)) as Hwf
    by (unfold wf; vm_compute; repeat split; lia).
  split; [exact Hwf|]. split; [reflexivity|].
  exact (proj1 (ring_full_after_capacity [requestFor 1] CpuUpload (Some [1%Z])
                  (TransferQueue_new CpuUpload true paintedTiles) Hwf eq_refl)).
Defined.

Lemma uploads_marked_complete_witness :
  wf fullSmallQueue
  /\ countEvents (isRequireAt 0)
       (newCalls fullSmallQueue (updateDirtyTiles fullSmallQueue)) <= 1.
Proof.
  assert (wf fullSmallQueue) as Hwf by (unfold wf; vm_compute; repeat split; lia).
  split; [exact Hwf|].
  exact (proj1 (proj2 (proj2 (proj2 (uploads_marked_complete fullSmallQueue 0)))
                  Hwf)).
Defined.

Lemma initGLResources_once_witness :
  7 <> 0 /\ 3 <> 0
  /\ GL.initGLResources 1 8 4 0 128 128 initialisedGL = (initialisedGL, []).
Proof.
  assert (7 <> 0) as H7 by lia. assert (3 <> 0) as H3 by lia.
  split; [exact H7|]. split; [exact H3|].
  exact (proj2 (proj2 (initGLResources_once 6 1 7 3 8 4 2 0 256 256 128 128
                         GL.fresh H7 H3))).
Defined.

Lemma initGLResources_after_cleanup_witness :
  (- 2 ^ 31 <= Z.of_nat 6 + 2 < 2 ^ 31)%Z /\ 7 <> 0 /\ 3 <> 0
  /\ wrapInt (Z.of_nat 6 + 2) = (Z.of_nat 6 + 2)%Z
  /\ GL.cleanupGLResources (GL.mkResources 7 3 (Some 7) (Some 7))
     = (GL.mkResources 0 0 None (Some 7),
        [GL.Abandon 7; GL.DeleteFramebuffers 3; GL.DeleteTextures 7]).
Proof.
  assert (- 2 ^ 31 <= Z.of_nat 6 + 2 < 2 ^ 31)%Z as Hfit by (simpl; lia).
  assert (7 <> 0) as H7 by lia. assert (3 <> 0) as H3 by lia.
  split; [exact Hfit|]. split; [exact H7|]. split; [exact H3|].
  split.
  - exact (proj1 (proj2 (initGLResources_after_cleanup 6 7 3 2 256 256
                           initialisedGL)) Hfit).
  - exact (proj2 (proj2 (initGLResources_after_cleanup 6 7 3 2 256 256
                           initialisedGL)) H7 H3).
Defined.

Lemma blit_region_of_request_witness :
  let r := mkRenderInfo (Some 1) (Some (mkSkIRect 10 20 30 50)) 0%Z in
  let inval := invalRect (addItemCommon paintedTiles r GpuUpload
                            (TileTransferData_new GpuUpload)) in
  invalRectPtr r = Some (mkSkIRect 10 20 30 50)
  /\ (- 2 ^ 31 <= 30 - 10 < 2 ^ 31)%Z /\ (- 2 ^ 31 <= 50 - 20 < 2 ^ 31)%Z
  /\ rwidth inval = (30 - 10)%Z /\ rheight inval = (50 - 20)%Z.
Proof.
  cbv zeta.
  assert (- 2 ^ 31 <= 30 - 10 < 2 ^ 31)%Z as Hw by lia.
  assert (- 2 ^ 31 <= 50 - 20 < 2 ^ 31)%Z as Hh by lia.
  split; [reflexivity|]. split; [exact Hw|]. split; [exact Hh|].
  exact (proj2 (blit_region_of_request paintedTiles
                  (mkRenderInfo (Some 1) (Some (mkSkIRect 10 20 30 50)) 0%Z)
                  GpuUpload (TileTransferData_new GpuUpload) 3
                  (mkTextureInfo 101 256 256) None 7)
           (mkSkIRect 10 20 30 50) eq_refl Hw Hh).
Defined.

Lemma gpu_update_needs_window_witness :
  let q := TransferQueue_new GpuUpload false paintedTiles in
  m_hasGLContext q = true /\ m_emptyItemCount q <> 0%Z
  /\ m_currentUploadType q = GpuUpload /\ m_ANW q = false
  /\ updateQueueWithBitmap id true (requestFor 1) [1%Z] q
     = call (EvBackTextureTransferFail 1) (backTextureTransferFail 1) q.
Proof.
  cbv zeta.
  assert (m_emptyItemCount (TransferQueue_new GpuUpload false paintedTiles)
          <> 0%Z) as Hc by (vm_compute; discriminate).
  split; [reflexivity|]. split; [exact Hc|]. split; [reflexivity|].
  split; [reflexivity|].
  exact (proj1 (gpu_update_needs_window id true (requestFor 1) [1%Z]
                  (TransferQueue_new GpuUpload false paintedTiles)
                  eq_refl Hc eq_refl) eq_refl).
Defined.

Lemma gl_state_saved_once_witness :
  0 < countEvents isBlit (newCalls oneQueuedGpu (updateDirtyTiles oneQueuedGpu))
  /\ countEvents isSaveGLState
       (newCalls oneQueuedGpu (updateDirtyTiles oneQueuedGpu)) = 1.
Proof.
  assert (0 < countEvents isBlit
                (newCalls oneQueuedGpu (updateDirtyTiles oneQueuedGpu))) as Hb
    by (vm_compute; lia).
  split; [exact Hb|].
  exact (proj2 (proj2 (proj2 (gl_state_saved_once oneQueuedGpu))) Hb).
Defined.

Lemma enqueue_drain_round_trip_witness :
  let q := TransferQueue_new CpuUpload false paintedTiles in
  wf q /\ Forall (λ d, status d = emptyItem) (m_transferQueue q)
  /\ m_pureColorTileQueue q = []
  /\ exists d1,
       m_transferQueue
         (set_tiles paintedTiles
            (addItemInTransferQueue (requestFor 1) CpuUpload (Some [1%Z]) q))
         !! 1 = Some d1
       /\ newCalls
            (set_tiles paintedTiles
               (addItemInTransferQueue (requestFor 1) CpuUpload (Some [1%Z]) q))
            (updateDirtyTiles
               (set_tiles paintedTiles
                  (addItemInTransferQueue (requestFor 1) CpuUpload
                     (Some [1%Z]) q)))
          = [EvSlotEmptied 1 (releaseBlit d1); EvRequireGLTexture 1 101;
             EvUpdateTextureWithBitmap 1 101 (Some [1%Z]) (invalRect d1);
             EvSetPure 1 101 false; EvTransferComplete (Ring 1) 101;
             EvSignal].
Proof.
  cbv zeta.
  assert (wf (TransferQueue_new CpuUpload false paintedTiles)) as Hwf
    by (unfold wf; vm_compute; repeat split; lia).
  assert (Forall (λ d, status d = emptyItem)
            (m_transferQueue (TransferQueue_new CpuUpload false paintedTiles)))
    as Hall by (vm_compute; repeat constructor).
  split; [exact Hwf|]. split; [exact Hall|]. split; [reflexivity|].
  destruct (enqueue_drain_round_trip (requestFor 1) CpuUpload [1%Z] paintedTiles
              (TransferQueue_new CpuUpload false paintedTiles) Hwf Hall eq_refl)
    as (d1 & Hd & Hlog & _).
  exists d1. split; [exact Hd|exact Hlog].
Defined.
